(** * book_age_app: title-pattern extraction and statistics pipeline

    A shallow embedding of [app.py]: the extractors [is_kara_pattern],
    [extract_age] and [extract_decade], the filtering block of the main
    script, [aggregate_statistics] and [generate_article_with_gemini],
    then the look-up of the API key, the header, the two charts and the
    article buttons of the main script, followed by the properties of the
    specification and further properties of the code. *)

From Stdlib Require Import Ascii String.
From Stdlib Require Import ZArith List Bool Lia.
From Stdlib Require Import Permutation Sorted Floats.
Import ListNotations.
Open Scope Z_scope.

(** ** Python strings

    A Python [str] is a sequence of Unicode code points; the regular
    expressions of [app.py] work on code points, not on bytes. *)

Definition codepoint := Z.
Definition ustring := list codepoint.

Module Utf8.

(** Decoder state while reading the bytes of a literal: the code points
    read so far (reversed), and the pending multi-byte character. *)
Record state := { out : ustring; pending : nat; acc : Z }.

Definition step (st : state) (a : ascii) : state :=
  let b := Z.of_N (N_of_ascii a) in
  match pending st with
  | O =>
      if b <? 128 then {| out := b :: out st; pending := 0; acc := 0 |}
      else if b <? 224 then {| out := out st; pending := 1; acc := b - 192 |}
      else if b <? 240 then {| out := out st; pending := 2; acc := b - 224 |}
      else {| out := out st; pending := 3; acc := b - 240 |}
  | S O => {| out := (acc st * 64 + (b - 128)) :: out st; pending := 0; acc := 0 |}
  | S n => {| out := out st; pending := n; acc := acc st * 64 + (b - 128) |}
  end.

Fixpoint run (st : state) (s : String.string) : state :=
  match s with
  | String.EmptyString => st
  | String.String a s' => run (step st a) s'
  end.

(** The code points of a (well-formed) UTF-8 literal. *)
Definition decode (s : String.string) : ustring :=
  rev (out (run {| out := []; pending := 0; acc := 0 |} s)).

End Utf8.

Definition u (s : String.string) : ustring := Utf8.decode s.
Arguments u s%_string.

Fixpoint starts_with (prefix s : ustring) : bool :=
  match prefix, s with
  | [], _ => true
  | _ :: _, [] => false
  | p :: prefix', c :: s' => (p =? c) && starts_with prefix' s'
  end.

(** [needle in s] *)
Fixpoint contains (needle s : ustring) : bool :=
  starts_with needle s ||
  match s with
  | [] => false
  | _ :: s' => contains needle s'
  end.

(** ** Results of Python computations that may raise

    [Exc msg] is a raised exception whose [str(e)] is [msg]. *)

Inductive pyresult (A : Type) : Type :=
| Ok (a : A)
| Exc (msg : ustring).

Arguments Ok {A} a.
Arguments Exc {A} msg.

Definition bind {A B} (r : pyresult A) (f : A -> pyresult B) : pyresult B :=
  match r with
  | Ok a => f a
  | Exc msg => Exc msg
  end.

Notation "x <- r ;; k" := (bind r (fun x => k))
  (at level 61, r at next level, right associativity).

(** ** Decimal digits

    [\d] in a [str] pattern and [int()] both use the Unicode property
    "decimal digit" (category Nd).  Every script's digits are ten
    consecutive code points; the table lists the code point of each
    script's zero (Unicode 14.0, the database of CPython 3.11). *)

Definition Nd_zeros : list codepoint :=
  [ 0x30; 0x660; 0x6f0; 0x7c0; 0x966; 0x9e6; 0xa66; 0xae6; 0xb66; 0xbe6;
    0xc66; 0xce6; 0xd66; 0xde6; 0xe50; 0xed0; 0xf20; 0x1040; 0x1090; 0x17e0;
    0x1810; 0x1946; 0x19d0; 0x1a80; 0x1a90; 0x1b50; 0x1bb0; 0x1c40; 0x1c50;
    0xa620; 0xa8d0; 0xa900; 0xa9d0; 0xa9f0; 0xaa50; 0xabf0; 0xff10; 0x104a0;
    0x10d30; 0x11066; 0x110f0; 0x11136; 0x111d0; 0x112f0; 0x11450; 0x114d0;
    0x11650; 0x116c0; 0x11730; 0x118e0; 0x11950; 0x11c50; 0x11d50; 0x11da0;
    0x16a60; 0x16ac0; 0x16b50; 0x1d7ce; 0x1d7d8; 0x1d7e2; 0x1d7ec; 0x1d7f6;
    0x1e140; 0x1e2f0; 0x1e950; 0x1fbf0 ].

Fixpoint decimal_in (zeros : list codepoint) (c : codepoint) : option Z :=
  match zeros with
  | [] => None
  | z :: zeros' =>
      if (z <=? c) && (c <? z + 10) then Some (c - z) else decimal_in zeros' c
  end.

(** [unicodedata.decimal(c)], [None] when [c] is not a decimal digit. *)
Definition decimal (c : codepoint) : option Z := decimal_in Nd_zeros c.

(** The character class [\d]. *)
Definition is_decimal (c : codepoint) : bool :=
  match decimal c with Some _ => true | None => false end.

(** The value of a string of decimal digits, most significant first. *)
Definition digits_value (tok : ustring) : Z :=
  fold_left (fun n c => 10 * n + match decimal c with Some d => d | None => 0 end) tok 0.

(** ** Decimal rendering: [str(n)] for an [int] *)

Fixpoint digits_rev (fuel : nat) (n : Z) : ustring :=
  match fuel with
  | O => []
  | S fuel' =>
      if n <? 10 then [48 + n]
      else (48 + n mod 10) :: digits_rev fuel' (n / 10)
  end.

Definition str_nat (n : Z) : ustring :=
  rev (digits_rev (S (Z.to_nat (Z.log2 n))) n).

Definition str_int (n : Z) : ustring :=
  if n <? 0 then 45 :: str_nat (- n) else str_nat n.

(** ** Conversions between [int] and [str]

    CPython refuses to convert between [int] and a decimal string of more
    than [sys.get_int_max_str_digits()] digits (4300 unless reconfigured),
    in either direction: the conversion raises [ValueError].  Leading
    zeros of a string count. *)

Definition int_max_str_digits : Z := 4300.

(** [int(tok)] for a string of decimal digits. *)
Definition py_int (tok : ustring) : pyresult Z :=
  let n := Z.of_nat (length tok) in
  if int_max_str_digits <? n then
    Exc (u"Exceeds the limit (4300 digits) for integer string conversion: value has "
         ++ str_int n ++ u" digits; use sys.set_int_max_str_digits() to increase the limit")
  else Ok (digits_value tok).

(** [str(n)] for an [int]. *)
Definition py_str_int (n : Z) : pyresult ustring :=
  if int_max_str_digits <? Z.of_nat (length (str_nat (Z.abs n))) then
    Exc (u"Exceeds the limit (4300 digits) for integer string conversion; use sys.set_int_max_str_digits() to increase the limit")
  else Ok (str_int n).

(** ** Regular expressions of the extractors *)

(** The literal suffix of both age patterns. *)
Definition marker : ustring := Eval vm_compute in u"歳からの".

(** The character class of pattern 2, [[一二三四五六七八九十百]]. *)
Definition kanji_class : ustring := Eval vm_compute in u"一二三四五六七八九十百".

Definition is_kanji_numeral (c : codepoint) : bool := existsb (Z.eqb c) kanji_class.

Section Regex.

Variable cls : codepoint -> bool.

(** [re.match(r'(cls+)歳からの', s)]: the pattern anchored at the head of
    [s], returning group 1.  [+] is greedy: one more class character is
    tried first, and the matcher backtracks to the literal. *)
Fixpoint match_token (s : ustring) : option ustring :=
  match s with
  | [] => None
  | c :: s' =>
      if cls c then
        match match_token s' with
        | Some tok => Some (c :: tok)
        | None => if starts_with marker s' then Some [c] else None
        end
      else None
  end.

(** [re.search(r'(cls+)歳からの', s)]: the leftmost position at which the
    pattern matches. *)
Fixpoint search_token (s : ustring) : option ustring :=
  match s with
  | [] => None
  | _ :: s' =>
      match match_token s with
      | Some tok => Some tok
      | None => search_token s'
      end
  end.

End Regex.

(** [re.search(r'(\d{4})', s)]. *)
Definition match_year (s : ustring) : option ustring :=
  match s with
  | a :: b :: c :: d :: _ =>
      if is_decimal a && is_decimal b && is_decimal c && is_decimal d
      then Some [a; b; c; d] else None
  | _ => None
  end.

Fixpoint search_year (s : ustring) : option ustring :=
  match s with
  | [] => None
  | _ :: s' =>
      match match_year s with
      | Some y => Some y
      | None => search_year s'
      end
  end.

(** ** Cell values

    The extractors receive whatever a cell of the sheet holds.  They look
    at a value through three operations only: its truth value
    ([not title]), [pd.isna] and [str]. *)

Record pyvalue := {
  truthy : bool;             (* bool(x) *)
  isna : bool;               (* pd.isna(x) *)
  str : pyresult ustring     (* str(x) *)
}.

Definition PyStr (s : ustring) : pyvalue :=
  {| truthy := match s with [] => false | _ => true end; isna := false; str := Ok s |}.

Definition PyInt (n : Z) : pyvalue :=
  {| truthy := negb (n =? 0); isna := false; str := py_str_int n |}.

Definition PyNone : pyvalue :=
  {| truthy := false; isna := true; str := Ok (u"None") |}.

Definition PyNaN : pyvalue :=
  {| truthy := true; isna := true; str := Ok (u"nan") |}.

(** The guard [if not x or pd.isna(x)]. *)
Definition missing (x : pyvalue) : bool := negb (truthy x) || isna x.

(** ** The extractors *)

(** The body of the [try] block of [is_kara_pattern]; [Ok false] when
    the block ends without a [return]. *)
Definition is_kara_pattern_try (title : pyvalue) : pyresult bool :=
  title_str <- str title ;;
  match search_token is_decimal title_str with
  | Some _ => Ok true
  | None =>
      match search_token is_kanji_numeral title_str with
      | Some _ => Ok true
      | None => Ok false
      end
  end.

Definition is_kara_pattern (title : pyvalue) : bool :=
  if missing title then false
  else
    match is_kara_pattern_try title with
    | Ok r => r
    | Exc _ => false
    end.

Section Extractor.

(** [kanjize.kanji2number], a third-party function: its result on a
    token, or the exception it raises. *)
Variable kanji2number : ustring -> pyresult Z.

(** The body of the [try] block of [extract_age]; [Ok None] when the
    block ends without a [return]. *)
Definition extract_age_try (title : pyvalue) : pyresult (option Z) :=
  title_str <- str title ;;
  match search_token is_decimal title_str with
  | Some tok => n <- py_int tok ;; Ok (Some n)
  | None =>
      match search_token is_kanji_numeral title_str with
      | Some tok => n <- kanji2number tok ;; Ok (Some n)
      | None => Ok None
      end
  end.

Definition extract_age (title : pyvalue) : option Z :=
  if missing title then None
  else
    match extract_age_try title with
    | Ok r => r
    | Exc _ => None
    end.

End Extractor.

(** The body of the [try] block of [extract_decade]. *)
Definition extract_decade_try (publish_date : pyvalue) : pyresult (option ustring) :=
  date_str <- str publish_date ;;
  match search_year date_str with
  | Some y =>
      year <- py_int y ;;
      let decade := (year / 10) * 10 in
      label <- py_str_int decade ;;
      Ok (Some (label ++ u"年代"))
  | None => Ok None
  end.

Definition extract_decade (publish_date : pyvalue) : option ustring :=
  if missing publish_date then None
  else
    match extract_decade_try publish_date with
    | Ok r => r
    | Exc _ => None
    end.

(** ** The numeral parser *)

Module NumeralParser.

(** Modelled from the spec: the digit characters (1 to 9) of the numeral
    parser.  The parser itself, [kanjize.kanji2number], is a third-party
    function that is not part of the sources. *)
Definition digit (c : codepoint) : option Z :=
  if c =? 0x4e00 then Some 1 else if c =? 0x4e8c then Some 2
  else if c =? 0x4e09 then Some 3 else if c =? 0x56db then Some 4
  else if c =? 0x4e94 then Some 5 else if c =? 0x516d then Some 6
  else if c =? 0x4e03 then Some 7 else if c =? 0x516b then Some 8
  else if c =? 0x4e5d then Some 9 else None.

(** Modelled from the spec: the place-value characters of the numeral
    parser (ten, hundred, thousand, ten thousand). *)
Definition place (c : codepoint) : option Z :=
  if c =? 0x5341 then Some 10 else if c =? 0x767e then Some 100
  else if c =? 0x5343 then Some 1000 else if c =? 0x4e07 then Some 10000
  else None.

Definition parse_error : ustring := u"invalid numeral".

(** Modelled from the spec: the algorithm of the numeral parser.  A digit
    immediately before a place character multiplies it, a place character
    with no digit before it counts once, and the groups are summed;
    [pending] is a digit read and not yet attached to a place. *)
Fixpoint groups (pending : option Z) (total : Z) (s : ustring) : pyresult Z :=
  match s with
  | [] => Ok (total + match pending with Some d => d | None => 0 end)
  | c :: s' =>
      match digit c, place c with
      | Some d, _ =>
          groups (Some d) (total + match pending with Some p => p | None => 0 end) s'
      | None, Some v =>
          groups None (total + match pending with Some p => p | None => 1 end * v) s'
      | None, None => Exc parse_error
      end
  end.

(** Modelled from the spec: [parse] of the numeral parser, which fails on
    an empty text and on a character outside the vocabulary. *)
Definition parse (numeral_text : ustring) : pyresult Z :=
  match numeral_text with
  | [] => Exc parse_error
  | _ => groups None 0 numeral_text
  end.

End NumeralParser.

(** ** The filtering block of the main script

    The block runs when the sheet has a title column; a row is modelled
    by the two cells the pipeline reads. *)

Record record := {
  title : pyvalue;          (* タイトル *)
  publish_date : pyvalue    (* 発行日 *)
}.

(** A row of [df] after the column 対象年齢 has been added; [None] is the
    missing value ([None]/NaN) of that column. *)
Record enriched := {
  source : record;
  target_age : option Z
}.

Section Pipeline.

Variable kanji2number : ustring -> pyresult Z.

(** [df = df[df[COL_TITLE].apply(is_kara_pattern)].copy()] followed by
    [df["対象年齢"] = df[COL_TITLE].apply(extract_age)]. *)
Definition filter_and_enrich (df : list record) : list enriched :=
  let df := filter (fun r => is_kara_pattern (title r)) df in
  map (fun r => {| source := r; target_age := extract_age kanji2number (title r) |}) df.

Definition notna (e : enriched) : bool :=
  match target_age e with Some _ => true | None => false end.

(** [df_with_age = df[df["対象年齢"].notna()].copy()], what the charts and
    [aggregate_statistics] receive. *)
Definition df_with_age (df : list enriched) : list enriched := filter notna df.

End Pipeline.

(** ** Floating-point numbers

    Python's [float] is IEEE 754 binary64, as are Rocq's primitive floats. *)

(** [float(n)] for an [int]: the nearest float, [OverflowError] when
    there is none. *)
Definition float_of_Z (n : Z) : float := SF2Prim (binary_normalize prec emax n 0 false).

Definition py_float (n : Z) : pyresult float :=
  let x := float_of_Z n in
  match Prim2SF x with
  | S754_infinity _ => Exc (u"int too large to convert to float")
  | _ => Ok x
  end.

(** Nearest integer to [num / den], ties to even ([0 < den]). *)
Definition round_half_even (num den : Z) : Z :=
  let q := num / den in
  let r := num mod den in
  if 2 * r <? den then q
  else if den <? 2 * r then q + 1
  else if Z.even q then q else q + 1.

(** [format(x, '.1f')] for a [float]: the exact binary value rounded to
    one decimal. *)
Definition format_1f (x : float) : ustring :=
  match Prim2SF x with
  | S754_nan => u"nan"
  | S754_infinity s => if s then u"-inf" else u"inf"
  | S754_zero s => if s then u"-0.0" else u"0.0"
  | S754_finite s m e =>
      let tenths :=
        if 0 <=? e then 10 * Z.pos m * 2 ^ e
        else round_half_even (10 * Z.pos m) (2 ^ (- e)) in
      (if s then [45] else []) ++ str_nat (tenths / 10) ++ [46] ++ str_nat (tenths mod 10)
  end.

(** ** Sorting a series by value

    [Series.sort_values(ascending=False)] is called with pandas' default
    [kind] ('quicksort'), which pandas documents as not stable: the result
    is a rearrangement of the series in descending order of the values,
    and the order among equal values is left to the implementation. *)

Definition desc {K : Type} (x y : K * Z) : Prop := snd y <= snd x.

Record sort_values := {
  sort_desc : forall K : Type, list (K * Z) -> list (K * Z);
  sort_desc_perm : forall K (l : list (K * Z)), Permutation l (sort_desc K l);
  sort_desc_sorted : forall K (l : list (K * Z)), StronglySorted desc (sort_desc K l)
}.

Arguments sort_desc s {K} l.

(** Two implementations: a stable insertion sort, which keeps equal
    values in their order of appearance, and a sort that moves the last
    entry of the series in front of the entries equal to it. *)

Fixpoint insert_before {K} (x : K * Z) (l : list (K * Z)) : list (K * Z) :=
  match l with
  | [] => [x]
  | y :: l' => if snd y <=? snd x then x :: l else y :: insert_before x l'
  end.

Definition stable_sort_desc {K} (l : list (K * Z)) : list (K * Z) :=
  fold_right insert_before [] l.


(** ** aggregate_statistics *)

(** The frame that [aggregate_statistics] receives: the column 対象年齢
    and, when the frame has it, the column 年代. *)
Record frame := {
  ages : list (option Z);
  decades : option (list (option ustring))
}.

(** [series.dropna()] *)
Fixpoint dropna {A} (l : list (option A)) : list A :=
  match l with
  | [] => []
  | Some a :: l' => a :: dropna l'
  | None :: l' => dropna l'
  end.

(** A number of the summary: [0] in the empty case is an [int], a mean
    or a median is a [float]. *)
Inductive number :=
| NInt (n : Z)
| NFloat (x : float)
| NStr (s : ustring).

Definition sum (l : list Z) : Z := fold_right Z.add 0 l.

Definition mean (l : list Z) : float :=
  PrimFloat.div (float_of_Z (sum l)) (float_of_Z (Z.of_nat (length l))).

Definition minimum (l : list Z) : Z :=
  match l with [] => 0 | a :: l' => fold_left Z.min l' a end.

Definition maximum (l : list Z) : Z :=
  match l with [] => 0 | a :: l' => fold_left Z.max l' a end.

Fixpoint insert_sorted (x : Z) (l : list Z) : list Z :=
  match l with
  | [] => [x]
  | y :: l' => if x <=? y then x :: l else y :: insert_sorted x l'
  end.

Definition median (l : list Z) : float :=
  let s := fold_right insert_sorted [] l in
  let n := length s in
  if Nat.even n then
    PrimFloat.div
      (PrimFloat.add (float_of_Z (nth (n / 2 - 1) s 0)) (float_of_Z (nth (n / 2) s 0)))
      (float_of_Z 2)
  else float_of_Z (nth (n / 2) s 0).

Section Counting.

Variable K : Type.
Variable eqb : K -> K -> bool.

(** One more occurrence of [a] in a table of counts kept in order of
    first appearance. *)
Fixpoint bump (a : K) (t : list (K * Z)) : list (K * Z) :=
  match t with
  | [] => [(a, 1)]
  | (b, c) :: t' => if eqb a b then (b, c + 1) :: t' else (b, c) :: bump a t'
  end.

Definition tally (l : list K) : list (K * Z) :=
  fold_left (fun t a => bump a t) l [].

Variable S : sort_values.

(** [series.value_counts()]: missing values dropped, one entry per
    distinct value, sorted by count, largest first. *)
Definition value_counts (l : list (option K)) : list (K * Z) :=
  sort_desc S (tally (dropna l)).

End Counting.

Arguments bump {K} eqb a t.
Arguments tally {K} eqb l.
Arguments value_counts {K} eqb S l.

Definition ustring_eqb (a b : ustring) : bool :=
  if list_eq_dec Z.eq_dec a b then true else false.

(** [len(df[cond(df["対象年齢"])])]: comparisons with a missing value are
    false. *)
Definition count_where (cond : Z -> bool) (l : list (option Z)) : Z :=
  Z.of_nat (length (filter cond (dropna l))).

Record statistics := {
  total_count : Z;                                  (* 総書籍数 *)
  mean_age : number;                                (* 平均対象年齢 *)
  min_age : Z;                                      (* 最小年齢 *)
  max_age : Z;                                      (* 最大年齢 *)
  median_age : number;                              (* 中央値年齢 *)
  top_ages : list (Z * Z);                          (* 年齢別書籍数（上位10位） *)
  peak : option (Z * Z);                            (* ピーク年齢, ピーク年齢の書籍数 *)
  decade_counts : option (list (ustring * Z));      (* 年代別書籍数 *)
  age_band_counts : list (ustring * Z)              (* 年齢帯別書籍数 *)
}.

Section Aggregator.

Variable S : sort_values.

Definition age_groups (col : list (option Z)) : list (ustring * Z) :=
  [ (u"0-9歳", count_where (fun a => (0 <=? a) && (a <? 10)) col);
    (u"10-19歳", count_where (fun a => (10 <=? a) && (a <? 20)) col);
    (u"20-29歳", count_where (fun a => (20 <=? a) && (a <? 30)) col);
    (u"30-39歳", count_where (fun a => (30 <=? a) && (a <? 40)) col);
    (u"40-49歳", count_where (fun a => (40 <=? a) && (a <? 50)) col);
    (u"50-59歳", count_where (fun a => (50 <=? a) && (a <? 60)) col);
    (u"60-69歳", count_where (fun a => (60 <=? a) && (a <? 70)) col);
    (u"70-79歳", count_where (fun a => (70 <=? a) && (a <? 80)) col);
    (u"80-89歳", count_where (fun a => (80 <=? a) && (a <? 90)) col);
    (u"90歳以上", count_where (fun a => 90 <=? a) col) ].

Definition aggregate_statistics (df_with_age : frame) : statistics :=
  let col := ages df_with_age in
  let valid_ages := dropna col in
  let nonempty := match valid_ages with [] => false | _ => true end in
  let age_counts := sort_desc S (value_counts Z.eqb S col) in
  {| total_count := Z.of_nat (length col);
     mean_age := if nonempty then NFloat (mean valid_ages) else NInt 0;
     min_age := if nonempty then minimum valid_ages else 0;
     max_age := if nonempty then maximum valid_ages else 0;
     median_age := if nonempty then NFloat (median valid_ages) else NInt 0;
     top_ages := firstn 10 age_counts;
     peak := match age_counts with [] => None | first :: _ => Some first end;
     decade_counts :=
       match decades df_with_age with
       | Some col => Some (value_counts ustring_eqb S col)
       | None => None
       end;
     age_band_counts := age_groups col |}.

End Aggregator.

(** ** The statistics dictionary as the prompt reads it

    [generate_article_with_gemini] reads [stats] with [stats.get(key,
    default)]: every key may be missing.  A value printed with [{...}] is
    an [int] or a [str]; a value printed with [{...:.1f}] is an [int], a
    [float] or (malformed) a [str]. *)

Inductive atom :=
| AInt (n : Z)
| AStr (s : ustring).

Record stats_dict := {
  get_total : option atom;                    (* 総書籍数 *)
  get_mean : option number;                   (* 平均対象年齢 *)
  get_min : option atom;                      (* 最小年齢 *)
  get_max : option atom;                      (* 最大年齢 *)
  get_median : option number;                 (* 中央値年齢 *)
  get_peak_age : option atom;                 (* ピーク年齢 *)
  get_peak_count : option atom;               (* ピーク年齢の書籍数 *)
  get_top : option (list (atom * atom));      (* 年齢別書籍数（上位10位） *)
  get_bands : option (list (atom * atom));    (* 年齢帯別書籍数 *)
  get_decades : option (list (atom * atom))   (* 年代別書籍数 *)
}.

Definition int_items (l : list (Z * Z)) : list (atom * atom) :=
  map (fun kv => (AInt (fst kv), AInt (snd kv))) l.

Definition str_items (l : list (ustring * Z)) : list (atom * atom) :=
  map (fun kv => (AStr (fst kv), AInt (snd kv))) l.

(** The dictionary that [aggregate_statistics] returns. *)
Definition as_dict (st : statistics) : stats_dict :=
  {| get_total := Some (AInt (total_count st));
     get_mean := Some (mean_age st);
     get_min := Some (AInt (min_age st));
     get_max := Some (AInt (max_age st));
     get_median := Some (median_age st);
     get_peak_age := option_map (fun p => AInt (fst p)) (peak st);
     get_peak_count := option_map (fun p => AInt (snd p)) (peak st);
     get_top := Some (int_items (top_ages st));
     get_bands := Some (str_items (age_band_counts st));
     get_decades := option_map str_items (decade_counts st) |}.

(** [stats.get(key, default)] *)
Definition get {A} (field : option A) (default : A) : A :=
  match field with Some v => v | None => default end.

(** [f"{v}"] *)
Definition py_str (v : atom) : pyresult ustring :=
  match v with
  | AInt n => py_str_int n
  | AStr s => Ok s
  end.

(** [f"{v:.1f}"] *)
Definition py_format_1f (v : number) : pyresult ustring :=
  match v with
  | NInt n => x <- py_float n ;; Ok (format_1f x)
  | NFloat x => Ok (format_1f x)
  | NStr _ => Exc (u"Unknown format code 'f' for object of type 'str'")
  end.

(** [sep.join(lines)] *)
Fixpoint join (sep : ustring) (lines : list ustring) : ustring :=
  match lines with
  | [] => []
  | [l] => l
  | l :: rest => l ++ sep ++ join sep rest
  end.

(** [[f"- {k}{mid}{v}冊" for k, v in items]] *)
Fixpoint item_lines (mid : ustring) (items : list (atom * atom)) : pyresult (list ustring) :=
  match items with
  | [] => Ok []
  | (k, v) :: rest =>
      ks <- py_str k ;;
      vs <- py_str v ;;
      lines <- item_lines mid rest ;;
      Ok ((u"- " ++ ks ++ mid ++ vs ++ u"冊") :: lines)
  end.

Definition style_standard : ustring := u"客観的で読みやすい標準的な文体で書いてください。".

(** [style_instructions.get(writing_style, style_instructions["標準的"])] *)
Definition style_instruction (writing_style : ustring) : ustring :=
  if ustring_eqb writing_style (u"標準的") then style_standard
  else if ustring_eqb writing_style (u"評論的") then
    u"批判的かつ分析的な視点で、データの意味を深く考察する評論的な文体で書いてください。"
  else if ustring_eqb writing_style (u"詩的") then
    u"比喩やイメージを多用し、文学的で詩的な表現を用いた文体で書いてください。"
  else if ustring_eqb writing_style (u"学術的") then
    u"学術論文のような形式で、専門用語を使い、論理的に分析する文体で書いてください。"
  else if ustring_eqb writing_style (u"親しみやすい") then
    u"読者に語りかけるような親しみやすい口調で、わかりやすく説明する文体で書いてください。"
  else style_standard.

(** The characters that [str.strip()] removes. *)
Definition is_space (c : codepoint) : bool :=
  ((9 <=? c) && (c <=? 13)) || ((28 <=? c) && (c <=? 32))
  || (c =? 0x85) || (c =? 0xa0) || (c =? 0x1680)
  || ((0x2000 <=? c) && (c <=? 0x200a))
  || (c =? 0x2028) || (c =? 0x2029) || (c =? 0x202f) || (c =? 0x205f) || (c =? 0x3000).

(** [user_insights and user_insights.strip()] as a condition. *)
Definition has_text (user_insights : ustring) : bool :=
  negb (forallb is_space user_insights).

Definition user_insights_section (user_insights : ustring) : ustring :=
  if has_text user_insights then
    u"

【ユーザーの気づき・観察】
" ++ user_insights ++ u"

上記のユーザーの気づきや観察も踏まえて、考察記事に反映してください。"
  else [].

Definition prompt_outline : ustring := u"

以下の構成で、800-1000文字程度の考察記事を書いてください：
1. 導入（データの概要と主要な傾向）
2. 年齢分布の特徴とその背景
   - 特定の年齢層に書籍が集中している理由
   - 社会的・文化的な背景の考察
3. 年代別の傾向とその背景（データがある場合）
   - 時代の変化が出版傾向に与えた影響
5. 総合的な考察とまとめ
   - なぜこのような出版傾向が生まれたのか
   - 社会背景、市場ニーズ、文化的要因などの多角的な分析

記事は読みやすく、データに基づいた具体的な分析を含めてください。
特に、単に「どのような傾向があるか」を述べるだけでなく、「なぜそのような傾向になっているのか」という原因や背景を深く考察することが重要です。
また、".

Definition prompt_intro : ustring := u"以下の年齢別書籍数の統計データを分析して、考察記事を書いてください。
特に、「なぜそのような出版傾向になっているのか」という原因や背景を深く考察することが重要です。

【統計データ】
".

Definition prompt_top_header : ustring := u"

【年齢別書籍数（上位10位）】
".

Definition prompt_bands_header : ustring := u"

【年齢帯別書籍数】
".

Definition prompt_decades_header : ustring := u"

【年代別書籍数】
".

(** The pieces of the f-string that builds [prompt], in order; the
    replacement fields are evaluated from left to right. *)
Definition prompt_pieces (stats : stats_dict) (writing_style user_insights : ustring)
  : pyresult (list ustring) :=
  total <- py_str (get (get_total stats) (AInt 0)) ;;
  mean_s <- py_format_1f (get (get_mean stats) (NInt 0)) ;;
  min_s <- py_str (get (get_min stats) (AInt 0)) ;;
  max_s <- py_str (get (get_max stats) (AInt 0)) ;;
  median_s <- py_format_1f (get (get_median stats) (NInt 0)) ;;
  peak_age <- py_str (get (get_peak_age stats) (AStr (u"N/A"))) ;;
  peak_count <- py_str (get (get_peak_count stats) (AInt 0)) ;;
  top <- item_lines (u"歳: ") (get (get_top stats) []) ;;
  bands <- item_lines (u": ") (get (get_bands stats) []) ;;
  decades <-
    match get_decades stats with
    | Some ((_ :: _) as items) =>
        lines <- item_lines (u": ") items ;; Ok (join [10] lines)
    | _ => Ok (u"データなし")
    end ;;
  Ok [ prompt_intro;
       u"- 総書籍数: " ++ total ++ u"冊"; [10];
       u"- 平均対象年齢: " ++ mean_s ++ u"歳"; [10];
       u"- 最小年齢: " ++ min_s ++ u"歳"; [10];
       u"- 最大年齢: " ++ max_s ++ u"歳"; [10];
       u"- 中央値年齢: " ++ median_s ++ u"歳"; [10];
       u"- ピーク年齢: " ++ peak_age ++ u"歳（書籍数: " ++ peak_count ++ u"冊）";
       prompt_top_header;
       join [10] top;
       prompt_bands_header;
       join [10] bands;
       prompt_decades_header;
       decades;
       user_insights_section user_insights;
       prompt_outline;
       style_instruction writing_style ].

Definition build_prompt (stats : stats_dict) (writing_style user_insights : ustring)
  : pyresult ustring :=
  pieces <- prompt_pieces stats writing_style user_insights ;;
  Ok (concat pieces).

(** ** generate_article_with_gemini *)

(** What the function finds around it: the API key that the look-ups in
    [st.secrets] and [os.environ] produce, and the generation service.
    [generate_content i prompt] is the text of the response to the [i]-th
    request, or the exception that [model.generate_content(prompt)] or
    [response.text] raises. *)
Record environment := {
  api_key : option ustring;
  generate_content : nat -> ustring -> pyresult ustring
}.

(** The pair that the function returns, and the prompts it has sent. *)
Record outcome := {
  article : option ustring;
  error : option ustring;
  requests : list ustring
}.

Definition no_api_key_message : ustring :=
  u"Gemini APIキーが見つかりません。Streamlit CloudのSecretsに'[gemini]'セクション内に'api_key = "
  ++ [34] ++ u"YOUR_API_KEY" ++ [34] ++ u"'を設定してください。".

Definition error_prefix : ustring := u"記事の生成中にエラーが発生しました: ".

Definition generate_article_with_gemini (env : environment) (stats : stats_dict)
    (writing_style user_insights : ustring) : outcome :=
  match api_key env with
  | None | Some [] =>
      {| article := None; error := Some no_api_key_message; requests := [] |}
  | Some _ =>
      match build_prompt stats writing_style user_insights with
      | Exc msg =>
          {| article := None; error := Some (error_prefix ++ msg); requests := [] |}
      | Ok prompt =>
          match generate_content env 0%nat prompt with
          | Ok text => {| article := Some text; error := None; requests := [prompt] |}
          | Exc msg =>
              {| article := None; error := Some (error_prefix ++ msg); requests := [prompt] |}
          end
      end
  end.

(** * Vocabulary of the properties *)

(** ** Strings and tokens *)

(** The value of reversed ASCII digits, least significant first. *)
Fixpoint value_rev (l : ustring) : Z :=
  match l with
  | [] => 0
  | c :: l' => (c - 48) + 10 * value_rev l'
  end.

Definition ascii_digit (c : codepoint) : bool := (48 <=? c) && (c <=? 57).

(** [s] ends with a character of the class. *)
Fixpoint ends_with_class (cls : codepoint -> bool) (s : ustring) : bool :=
  match s with
  | [] => false
  | [c] => cls c
  | _ :: s' => ends_with_class cls s'
  end.

(** ** Titles *)

(** The conversion of the matched token raises: [int] on a digit token
    longer than the limit, or [kanji2number] on the kanji token. *)
Definition conversion_fails (kanji2number : ustring -> pyresult Z) (title : pyvalue)
  : Prop :=
  missing title = false /\
  exists s, str title = Ok s /\
    ((exists tok, search_token is_decimal s = Some tok /\
                  int_max_str_digits < Z.of_nat (length tok)) \/
     (search_token is_decimal s = None /\
      exists tok msg, search_token is_kanji_numeral s = Some tok /\
                      kanji2number tok = Exc msg)).

(** A title of 4301 digits followed by the marker. *)
Definition overlong_title : pyvalue := PyStr (repeat 49 4301 ++ marker).

Definition thirteen : ustring := Eval vm_compute in u"十三".

Definition zero_marker : ustring := Eval vm_compute in u"0歳からの".

(** ** Batches *)

Definition overlong_record : record :=
  {| title := overlong_title; publish_date := PyStr (u"2001") |}.

Definition sample_df : list record :=
  [ {| title := PyStr (u"13歳からの哲学"); publish_date := PyStr (u"1995-01-01") |};
    {| title := PyStr (u"哲学入門"); publish_date := PyStr (u"2001") |} ].

(** What the main script passes to [aggregate_statistics]: the frame
    [df_with_age] built for the article, which has no column 年代. *)
Definition statistics_input (df : list enriched) : frame :=
  {| ages := map target_age df; decades := None |}.

(** The batch of the specification's example. *)
Definition sample_frame : frame :=
  {| ages := [Some 13; Some 13; Some 15; Some 20]; decades := None |}.

(** ** Counts and ties *)

(** The number of occurrences of [a] in [l]. *)
Definition occurrences {K} (eqb : K -> K -> bool) (a : K) (l : list K) : Z :=
  Z.of_nat (length (filter (eqb a) l)).

(** The count recorded for [a], [0] when it has no entry. *)
Fixpoint recorded {K} (eqb : K -> K -> bool) (a : K) (t : list (K * Z)) : Z :=
  match t with
  | [] => 0
  | (b, c) :: t' => if eqb a b then c else recorded eqb a t'
  end.

(** The series [age_counts] of [aggregate_statistics]. *)
Definition age_counts (S : sort_values) (df : frame) : list (Z * Z) :=
  sort_desc S (value_counts Z.eqb S (ages df)).

(** Position of the first occurrence of [a] in [l]. *)
Fixpoint first_index (a : Z) (l : list Z) : nat :=
  match l with
  | [] => 0
  | b :: l' => if a =? b then 0 else S (first_index a l')
  end.

(** Entries with equal counts stand in the order in which their ages
    first appear in [valid]. *)
Fixpoint ties_in_encounter_order (valid : list Z) (t : list (Z * Z)) : bool :=
  match t with
  | [] => true
  | x :: t' =>
      forallb (fun y => negb (snd x =? snd y)
                        || (first_index (fst x) valid <? first_index (fst y) valid)%nat) t'
      && ties_in_encounter_order valid t'
  end.

(** The keys [ks] are the values of [valid], in the order of their first
    appearance. *)
Definition appearance (valid ks : list Z) : Prop :=
  (forall a, In a ks <-> In a valid)
  /\ StronglySorted (fun a b => (first_index a valid < first_index b valid)%nat) ks.

(** Entries with equal counts are in the order [R]. *)
Definition tie_sorted {K} (R : K -> K -> Prop) (t : list (K * Z)) : Prop :=
  StronglySorted (fun x y => snd x = snd y -> R (fst x) (fst y)) t.

(** ** Age bands *)

(** The bands as the specification lists them: label, lower bound and,
    except for the last band, upper bound. *)
Definition band_table : list (ustring * Z * option Z) :=
  [ (u"0-9歳", 0, Some 10); (u"10-19歳", 10, Some 20); (u"20-29歳", 20, Some 30);
    (u"30-39歳", 30, Some 40); (u"40-49歳", 40, Some 50); (u"50-59歳", 50, Some 60);
    (u"60-69歳", 60, Some 70); (u"70-79歳", 70, Some 80); (u"80-89歳", 80, Some 90);
    (u"90歳以上", 90, None) ].

Definition in_band (low : Z) (high : option Z) (a : Z) : bool :=
  (low <=? a) && match high with Some h => a <? h | None => true end.

Definition band_count (col : list (option Z)) (band : ustring * Z * option Z)
  : ustring * Z :=
  let '(label, low, high) := band in (label, count_where (in_band low high) col).

(** ** Prompts *)

Definition renders {A} (r : pyresult A) : bool :=
  match r with Ok _ => true | Exc _ => false end.

Definition renderable_items (items : list (atom * atom)) : bool :=
  forallb (fun kv => renders (py_str (fst kv)) && renders (py_str (snd kv))) items.

(** Every value that the prompt prints can be printed. *)
Definition renderable (stats : stats_dict) : bool :=
  renders (py_str (get (get_total stats) (AInt 0)))
  && renders (py_format_1f (get (get_mean stats) (NInt 0)))
  && renders (py_str (get (get_min stats) (AInt 0)))
  && renders (py_str (get (get_max stats) (AInt 0)))
  && renders (py_format_1f (get (get_median stats) (NInt 0)))
  && renders (py_str (get (get_peak_age stats) (AStr (u"N/A"))))
  && renders (py_str (get (get_peak_count stats) (AInt 0)))
  && renderable_items (get (get_top stats) [])
  && renderable_items (get (get_bands stats) [])
  && renderable_items (get (get_decades stats) []).

(** The lines that print the values present in the dictionary. *)
Inductive shown (stats : stats_dict) : ustring -> Prop :=
| shown_total v s :
    get_total stats = Some v -> py_str v = Ok s ->
    shown stats (u"- 総書籍数: " ++ s ++ u"冊")
| shown_mean v s :
    get_mean stats = Some v -> py_format_1f v = Ok s ->
    shown stats (u"- 平均対象年齢: " ++ s ++ u"歳")
| shown_min v s :
    get_min stats = Some v -> py_str v = Ok s ->
    shown stats (u"- 最小年齢: " ++ s ++ u"歳")
| shown_max v s :
    get_max stats = Some v -> py_str v = Ok s ->
    shown stats (u"- 最大年齢: " ++ s ++ u"歳")
| shown_median v s :
    get_median stats = Some v -> py_format_1f v = Ok s ->
    shown stats (u"- 中央値年齢: " ++ s ++ u"歳")
| shown_peak_age v s :
    get_peak_age stats = Some v -> py_str v = Ok s ->
    shown stats (u"- ピーク年齢: " ++ s ++ u"歳（書籍数: ")
| shown_peak_count v s :
    get_peak_count stats = Some v -> py_str v = Ok s ->
    shown stats (u"歳（書籍数: " ++ s ++ u"冊）")
| shown_top items k v ks vs :
    get_top stats = Some items -> In (k, v) items ->
    py_str k = Ok ks -> py_str v = Ok vs ->
    shown stats (u"- " ++ ks ++ u"歳: " ++ vs ++ u"冊")
| shown_band items k v ks vs :
    get_bands stats = Some items -> In (k, v) items ->
    py_str k = Ok ks -> py_str v = Ok vs ->
    shown stats (u"- " ++ ks ++ u": " ++ vs ++ u"冊")
| shown_decade items k v ks vs :
    get_decades stats = Some items -> In (k, v) items ->
    py_str k = Ok ks -> py_str v = Ok vs ->
    shown stats (u"- " ++ ks ++ u": " ++ vs ++ u"冊").

(** The lines that stand for the keys missing from the dictionary. *)
Inductive fallback (stats : stats_dict) : ustring -> Prop :=
| fallback_total :
    get_total stats = None -> fallback stats (u"- 総書籍数: " ++ u"0" ++ u"冊")
| fallback_mean :
    get_mean stats = None -> fallback stats (u"- 平均対象年齢: " ++ u"0.0" ++ u"歳")
| fallback_min :
    get_min stats = None -> fallback stats (u"- 最小年齢: " ++ u"0" ++ u"歳")
| fallback_max :
    get_max stats = None -> fallback stats (u"- 最大年齢: " ++ u"0" ++ u"歳")
| fallback_median :
    get_median stats = None -> fallback stats (u"- 中央値年齢: " ++ u"0.0" ++ u"歳")
| fallback_peak_age :
    get_peak_age stats = None ->
    fallback stats (u"- ピーク年齢: " ++ u"N/A" ++ u"歳（書籍数: ")
| fallback_peak_count :
    get_peak_count stats = None -> fallback stats (u"歳（書籍数: " ++ u"0" ++ u"冊）")
| fallback_top :
    get_top stats = None ->
    fallback stats (prompt_top_header ++ [] ++ prompt_bands_header)
| fallback_bands :
    get_bands stats = None ->
    fallback stats (prompt_bands_header ++ [] ++ prompt_decades_header)
| fallback_decades :
    get_decades stats = None \/ get_decades stats = Some [] ->
    fallback stats (prompt_decades_header ++ u"データなし").

(** The dictionary with no key. *)
Definition no_stats : stats_dict :=
  {| get_total := None; get_mean := None; get_min := None; get_max := None;
     get_median := None; get_peak_age := None; get_peak_count := None;
     get_top := None; get_bands := None; get_decades := None |}.

(** A dictionary whose mean is a string. *)
Definition malformed_stats : stats_dict :=
  {| get_total := Some (AInt 4); get_mean := Some (NStr (u"15.25"));
     get_min := Some (AInt 13); get_max := Some (AInt 20);
     get_median := None; get_peak_age := None; get_peak_count := None;
     get_top := None; get_bands := None; get_decades := None |}.

(** A service that refuses every request. *)
Definition failing_service : environment :=
  {| api_key := Some (u"key");
     generate_content := fun _ _ => Exc (u"429 quota exceeded") |}.

(** * Other parts of the script *)

(** ** The API key

    [st.secrets] and its sections map names to values.  The look-up of
    [generate_article_with_gemini] inspects a value through
    [isinstance(_, dict)], [isinstance(_, str)], [key in _], [_[key]] and
    its truth value. *)

#[warnings="-register-all"]
Inductive secret :=
| SStr (s : ustring)                       (* a str *)
| SDict (items : list (ustring * secret))  (* a dict *)
| SOther (truth : bool).                   (* any other object, with its truth value *)

(** [d[key]], [None] when [key not in d]. *)
Fixpoint lookup {A} (key : ustring) (d : list (ustring * A)) : option A :=
  match d with
  | [] => None
  | (k, v) :: d' => if ustring_eqb key k then Some v else lookup key d'
  end.

Definition secret_truthy (v : secret) : bool :=
  match v with
  | SStr [] | SDict [] => false
  | SStr _ | SDict _ => true
  | SOther truth => truth
  end.

(** [not api_key]; the variable holds [None] at first. *)
Definition not_key (api_key : option secret) : bool :=
  match api_key with
  | None => true
  | Some v => negb (secret_truthy v)
  end.

(** The five look-ups, in the order of the source; the result is the
    final value of the variable [api_key], which the function then tests
    with [if not api_key]. *)
Definition find_api_key (secrets : list (ustring * secret))
    (environ : list (ustring * ustring)) : option secret :=
  let api_key := None in
  let api_key :=
    match lookup (u"gemini") secrets with
    | Some (SDict gemini_section) =>
        match lookup (u"api_key") gemini_section with
        | Some v => Some v
        | None => api_key
        end
    | _ => api_key
    end in
  let api_key :=
    if not_key api_key then
      match lookup (u"GEMINI_API_KEY") secrets with
      | Some (SDict gemini_section) =>
          match lookup (u"GEMINI_API_KEY") gemini_section with
          | Some v => Some v
          | None => api_key
          end
      | Some (SStr gemini_section) => Some (SStr gemini_section)
      | _ => api_key
      end
    else api_key in
  let api_key :=
    if not_key api_key then
      match lookup (u"GEMINI_API_KEY") secrets with
      | Some (SStr s) => Some (SStr s)
      | _ => api_key
      end
    else api_key in
  let api_key :=
    if not_key api_key then
      match lookup (u"gemini_api_key") secrets with
      | Some v => Some v
      | None => api_key
      end
    else api_key in
  let api_key :=
    if not_key api_key then
      match lookup (u"GEMINI_API_KEY") environ with
      | Some s => Some (SStr s)
      | None => api_key
      end
    else api_key in
  api_key.

(** ** The header *)


(** ** The histogram *)

(** [series.sort_index()] for a series indexed by age.  The ages of a
    series of counts are distinct, so that the result does not depend on
    the sorting algorithm. *)
Fixpoint insert_by_index (x : Z * Z) (l : list (Z * Z)) : list (Z * Z) :=
  match l with
  | [] => [x]
  | y :: l' => if fst x <=? fst y then x :: l else y :: insert_by_index x l'
  end.

Definition sort_index (l : list (Z * Z)) : list (Z * Z) :=
  fold_right insert_by_index [] l.

(** The frame [age_df] of the histogram: one row per age, with the
    columns 対象年齢 and 書籍数. *)
Definition age_df (S : sort_values) (df_with_age : list enriched) : list (Z * Z) :=
  let age_counts := sort_index (value_counts Z.eqb S (map target_age df_with_age)) in
  age_counts.

(** ** The chart of decades and ages *)

(** [a <= b] for two [str]: the order of the code points, a proper
    prefix first. *)
Fixpoint str_le (a b : ustring) : bool :=
  match a, b with
  | [], _ => true
  | _ :: _, [] => false
  | x :: a', y :: b' => (x <? y) || ((x =? y) && str_le a' b')
  end.



(** The columns 年代 and 対象年齢 of a row. *)
Definition decade_row := (ustring * Z)%type.


Definition decade_row_eqb (x y : decade_row) : bool :=
  ustring_eqb (fst x) (fst y) && (snd x =? snd y).




(** A cell of [cross_table]. *)
Definition cross_table (rows : list decade_row) (decade : ustring) (age : Z) : Z :=
  Z.of_nat (length (filter (decade_row_eqb (decade, age)) rows)).


(** The order of [sort_values(["対象年齢", "年代"])]. *)
Definition by_age_decade (x y : decade_row * Z) : bool :=
  (snd (fst x) <? snd (fst y))
  || ((snd (fst x) =? snd (fst y)) && str_le (fst (fst x)) (fst (fst y))).



(** ** The article buttons

    The two buttons of the second tab, as functions of
    [st.session_state], of which the script uses the keys
    [generated_article] and [writing_style]. *)

Module SessionState.

Record t := {
  generated_article : option ustring;
  writing_style : option ustring
}.

End SessionState.

Inductive notice :=
| st_error (msg : ustring)
| st_warning (msg : ustring)
| st_success (msg : ustring).

(** What a click does: the session state it leaves, the messages it
    displays, the requests sent to the generation service, and whether
    the script is run again ([st.rerun()]). *)
Record click := {
  session : SessionState.t;
  notices : list notice;
  sent : list ustring;
  rerun : bool
}.

(** The truth value of [None] or a [str]. *)
Definition nonempty (s : option ustring) : bool :=
  match s with Some (_ :: _) => true | _ => false end.

(** The button 考察記事を生成; [df] is [None] when the frame has no column
    対象年齢. *)
Definition on_generate (S : sort_values) (env : environment)
    (df : option (list enriched)) (writing_style user_insights : ustring)
    (state : SessionState.t) : click :=
  match df with
  | Some df =>
      let df_with_age := df_with_age df in
      match df_with_age with
      | _ :: _ =>
          let stats := as_dict (aggregate_statistics S (statistics_input df_with_age)) in
          let out := generate_article_with_gemini env stats writing_style user_insights in
          if nonempty (error out) then
            {| session := state;
               notices := [st_error (match error out with Some e => e | None => [] end)];
               sent := requests out; rerun := false |}
          else if nonempty (article out) then
            {| session := {| SessionState.generated_article := article out;
                             SessionState.writing_style := Some writing_style |};
               notices := [st_success (u"記事が生成されました！「考察記事」タブで確認できます。")];
               sent := requests out; rerun := true |}
          else
            {| session := state;
               notices := [st_warning (u"記事の生成に失敗しました。")];
               sent := requests out; rerun := false |}
      | [] =>
          {| session := state;
             notices := [st_warning (u"年齢データを抽出できた書籍がありません。")];
             sent := []; rerun := false |}
      end
  | None =>
      {| session := state;
         notices := [st_warning (u"対象年齢のデータがありません。")];
         sent := []; rerun := false |}
  end.

(** The button 記事をクリア, which is shown when an article is stored. *)
Definition on_clear (state : SessionState.t) : click :=
  match SessionState.generated_article state with
  | Some _ =>
      {| session := {| SessionState.generated_article := None;
                       SessionState.writing_style := None |};
         notices := []; sent := []; rerun := true |}
  | None => {| session := state; notices := []; sent := []; rerun := false |}
  end.

Inductive button :=
| Generate (env : environment) (df : option (list enriched))
           (writing_style user_insights : ustring)
| Clear.

Definition press (S : sort_values) (state : SessionState.t) (b : button) : click :=
  match b with
  | Generate env df writing_style user_insights =>
      on_generate S env df writing_style user_insights state
  | Clear => on_clear state
  end.

(** The session state after a series of clicks. *)
Definition replay (S : sort_values) (state : SessionState.t) (clicks : list button)
  : SessionState.t :=
  fold_left (fun state b => session (press S state b)) clicks state.

(** * Vocabulary of the further properties *)

(** A character of one of the two classes of the age patterns. *)
Definition age_character (c : codepoint) : bool := is_decimal c || is_kanji_numeral c.

(** The digits [ds] written in the script whose zero is [zero]. *)
Definition in_script (zero : codepoint) (ds : list Z) : ustring :=
  map (fun d => zero + d) ds.

(** The number with the decimal digits [ds], most significant first. *)
Definition of_digits (ds : list Z) : Z := fold_left (fun n d => 10 * n + d) ds 0.

Definition digit_values : list Z := [0; 1; 2; 3; 4; 5; 6; 7; 8; 9].

(** The title of the record gives an age. *)
Definition has_age (kanji2number : ustring -> pyresult Z) (r : record) : bool :=
  match extract_age kanji2number (title r) with Some _ => true | None => false end.

(** The record with its column 対象年齢. *)
Definition enrich (kanji2number : ustring -> pyresult Z) (r : record) : enriched :=
  {| source := r; target_age := extract_age kanji2number (title r) |}.

(** A value that an [int64] column holds. *)
Definition int64 (n : Z) : Prop := - 2 ^ 63 <= n < 2 ^ 63.

(** Rows of a series in increasing order of the index. *)
Definition by_index (x y : Z * Z) : Prop := fst x < fst y.


(** The key when it passes the test [if not api_key]. *)
Definition usable (api_key : option secret) : option secret :=
  if not_key api_key then None else api_key.

(** The places where a key may be configured, in order of precedence:
    [[gemini] api_key], [GEMINI_API_KEY] as a section or as a text,
    [gemini_api_key], and the environment variable. *)
Definition key_sources (secrets : list (ustring * secret))
    (environ : list (ustring * ustring)) : list (option secret) :=
  [ match lookup (u"gemini") secrets with
    | Some (SDict section) => lookup (u"api_key") section
    | _ => None
    end;
    match lookup (u"GEMINI_API_KEY") secrets with
    | Some (SDict section) => lookup (u"GEMINI_API_KEY") section
    | Some (SStr s) => Some (SStr s)
    | _ => None
    end;
    lookup (u"gemini_api_key") secrets;
    option_map SStr (lookup (u"GEMINI_API_KEY") environ) ].

Fixpoint first_usable (sources : list (option secret)) : option secret :=
  match sources with
  | [] => None
  | c :: sources' =>
      match usable c with
      | Some v => Some v
      | None => first_usable sources'
      end
  end.

(** The styles that the sidebar offers. *)
Definition writing_styles : list ustring :=
  [u"標準的"; u"評論的"; u"詩的"; u"学術的"; u"親しみやすい"].




Definition empty_session : SessionState.t :=
  {| SessionState.generated_article := None; SessionState.writing_style := None |}.

(** An article is stored with its style, and is not empty. *)
Definition article_with_style (state : SessionState.t) : Prop :=
  match SessionState.generated_article state with
  | Some text => text <> [] /\ exists style, SessionState.writing_style state = Some style
  | None => SessionState.writing_style state = None
  end.

(** * Properties *)

Arguments decimal c : simpl never.
Arguments is_decimal c : simpl never.
Arguments is_kanji_numeral c : simpl never.
Arguments u s : simpl never.
Arguments str_nat n : simpl never.
Arguments str_int n : simpl never.

(** ** Strings *)

Lemma starts_with_app (p s : ustring) : starts_with p (p ++ s) = true.
Proof.
  induction p as [|c p IH]; simpl; [reflexivity|].
  now rewrite Z.eqb_refl, IH.
Qed.

Lemma starts_with_prefix (p s : ustring) :
  starts_with p s = true -> exists r, s = p ++ r.
Proof.
  revert s; induction p as [|c p IH]; intros s H; simpl in *.
  - now exists s.
  - destruct s as [|d s]; [discriminate|].
    apply andb_true_iff in H as [Hc Hp].
    apply Z.eqb_eq in Hc; subst d.
    destruct (IH _ Hp) as [r ->]. now exists r.
Qed.

Lemma contains_head (needle s : ustring) :
  starts_with needle s = true -> contains needle s = true.
Proof. intros H. destruct s; simpl; now rewrite H. Qed.

Lemma contains_app (needle pre post : ustring) :
  contains needle (pre ++ needle ++ post) = true.
Proof.
  induction pre as [|c pre IH]; simpl.
  - apply contains_head, starts_with_app.
  - rewrite IH. apply orb_true_r.
Qed.

Lemma contains_piece (piece : ustring) (pieces : list ustring) :
  In piece pieces -> contains piece (concat pieces) = true.
Proof.
  intros H. apply in_split in H as (l1 & l2 & ->).
  rewrite concat_app. simpl. apply contains_app.
Qed.

Lemma contains_trans (a b c : ustring) :
  contains a b = true -> contains b c = true -> contains a c = true.
Proof.
  intros Hab Hbc.
  assert (Hdec : forall x y, contains x y = true -> exists p q, y = p ++ x ++ q).
  { intros x y; induction y as [|d y IH]; simpl; intros H.
    - rewrite orb_false_r in H. apply starts_with_prefix in H as [r Hr].
      exists [], r. exact Hr.
    - apply orb_true_iff in H as [H|H].
      + apply starts_with_prefix in H as [r Hr]. exists [], r. exact Hr.
      + destruct (IH H) as (p & q & ->). now exists (d :: p), q. }
  destruct (Hdec _ _ Hab) as (p1 & q1 & ->).
  destruct (Hdec _ _ Hbc) as (p2 & q2 & ->).
  replace (p2 ++ (p1 ++ a ++ q1) ++ q2) with ((p2 ++ p1) ++ a ++ (q1 ++ q2))
    by (now rewrite <- !app_assoc).
  apply contains_app.
Qed.

(** ** Decimal digits and decimal rendering *)

Lemma decimal_in_range (zeros : list codepoint) (c d : Z) :
  decimal_in zeros c = Some d -> 0 <= d <= 9.
Proof.
  induction zeros as [|z zeros IH]; simpl; [discriminate|].
  destruct ((z <=? c) && (c <? z + 10)) eqn:E; [|exact IH].
  intros [= <-]. apply andb_true_iff in E as [E1 E2]. lia.
Qed.

Lemma decimal_range (c d : Z) : decimal c = Some d -> 0 <= d <= 9.
Proof. apply decimal_in_range. Qed.

Lemma decimal_ascii (c : Z) : 48 <= c <= 57 -> decimal c = Some (c - 48).
Proof.
  intros H. unfold decimal, Nd_zeros, decimal_in.
  replace (48 <=? c) with true by (symmetry; apply Z.leb_le; lia).
  replace (c <? 48 + 10) with true by (symmetry; apply Z.ltb_lt; lia).
  reflexivity.
Qed.

Lemma digits_value_app (a b : ustring) :
  digits_value (a ++ b)
  = fold_left (fun n c => 10 * n + match decimal c with Some d => d | None => 0 end)
      b (digits_value a).
Proof. unfold digits_value. apply fold_left_app. Qed.

Lemma fold_digits_nonneg (tok : ustring) (n : Z) :
  0 <= n ->
  0 <= fold_left (fun n c => 10 * n + match decimal c with Some d => d | None => 0 end) tok n.
Proof.
  revert n; induction tok as [|c tok IH]; intros n Hn; cbn [fold_left]; [exact Hn|].
  apply IH. destruct (decimal c) eqn:E; [apply decimal_range in E|]; lia.
Qed.

Lemma digits_value_nonneg (tok : ustring) : 0 <= digits_value tok.
Proof. apply fold_digits_nonneg. lia. Qed.

Lemma digits_value_rev (l : ustring) :
  forallb ascii_digit l = true -> digits_value (rev l) = value_rev l.
Proof.
  induction l as [|c l IH]; cbn [forallb rev value_rev]; intros H; [reflexivity|].
  apply andb_true_iff in H as [Hc Hl].
  unfold ascii_digit in Hc. apply andb_true_iff in Hc as [H1 H2].
  apply Z.leb_le in H1, H2.
  rewrite digits_value_app. cbn [fold_left]. rewrite (IH Hl).
  rewrite decimal_ascii by lia. lia.
Qed.

Lemma digits_rev_S (fuel : nat) (n : Z) :
  digits_rev (S fuel) n
  = if n <? 10 then [48 + n] else (48 + n mod 10) :: digits_rev fuel (n / 10).
Proof. reflexivity. Qed.

Lemma digits_rev_spec (fuel : nat) (n : Z) :
  0 <= n < 2 ^ Z.of_nat (S fuel) ->
  forallb ascii_digit (digits_rev (S fuel) n) = true /\
  value_rev (digits_rev (S fuel) n) = n /\ digits_rev (S fuel) n <> [].
Proof.
  revert n; induction fuel as [|fuel IH]; intros n Hn;
    rewrite digits_rev_S; destruct (n <? 10) eqn:E.
  - apply Z.ltb_lt in E. cbn [forallb value_rev]. unfold ascii_digit.
    repeat split; try discriminate; lia.
  - apply Z.ltb_ge in E. change (2 ^ Z.of_nat 1) with 2 in Hn. lia.
  - apply Z.ltb_lt in E. cbn [forallb value_rev]. unfold ascii_digit.
    repeat split; try discriminate; lia.
  - apply Z.ltb_ge in E.
    assert (Hq : 0 <= n / 10 < 2 ^ Z.of_nat (S fuel)).
    { split; [apply Z.div_pos; lia|].
      apply Z.div_lt_upper_bound; [lia|].
      rewrite (Nat2Z.inj_succ (S fuel)), Z.pow_succ_r in Hn by lia. lia. }
    destruct (IH _ Hq) as (H1 & H2 & H3).
    pose proof (Z.mod_pos_bound n 10 ltac:(lia)) as Hm.
    cbn [forallb value_rev]. rewrite H1, H2. unfold ascii_digit.
    pose proof (Z.div_mod n 10 ltac:(lia)).
    repeat split; try discriminate; lia.
Qed.

Lemma str_nat_fuel (n : Z) : 0 <= n -> 0 <= n < 2 ^ Z.of_nat (S (Z.to_nat (Z.log2 n))).
Proof.
  intros Hn. split; [exact Hn|].
  rewrite Nat2Z.inj_succ, Z2Nat.id by apply Z.log2_nonneg.
  destruct (Z.eq_dec n 0) as [->|Hz]; [reflexivity|].
  apply Z.log2_spec. lia.
Qed.

(** [int(str(n)) == n] for a natural number. *)
Lemma digits_value_str_nat (n : Z) : 0 <= n -> digits_value (str_nat n) = n.
Proof.
  intros Hn. unfold str_nat.
  destruct (digits_rev_spec _ _ (str_nat_fuel n Hn)) as (H1 & H2 & _).
  now rewrite digits_value_rev.
Qed.

Lemma str_nat_digits (n : Z) :
  0 <= n -> forallb is_decimal (str_nat n) = true /\ str_nat n <> [].
Proof.
  intros Hn. unfold str_nat.
  destruct (digits_rev_spec _ _ (str_nat_fuel n Hn)) as (H1 & _ & H3). split.
  - rewrite forallb_forall in *. intros c Hc. apply in_rev in Hc.
    specialize (H1 _ Hc). unfold ascii_digit in H1.
    apply andb_true_iff in H1 as [Ha Hb]. apply Z.leb_le in Ha, Hb.
    unfold is_decimal. now rewrite decimal_ascii by lia.
  - intros E. apply H3. apply (f_equal (@rev _)) in E.
    now rewrite rev_involutive in E.
Qed.

Lemma digits_rev_length (fuel : nat) (k : nat) (n : Z) :
  0 <= n < 10 ^ Z.of_nat (S k) -> (length (digits_rev fuel n) <= S k)%nat.
Proof.
  revert k n; induction fuel as [|fuel IH]; intros k n Hn; [cbn; lia|].
  rewrite digits_rev_S. destruct (n <? 10) eqn:E; cbn [length]; [lia|].
  apply Z.ltb_ge in E. destruct k as [|k].
  - simpl in Hn. lia.
  - apply le_n_S, IH. split; [apply Z.div_pos; lia|].
    apply Z.div_lt_upper_bound; [lia|].
    destruct Hn as [_ Hn].
    rewrite (Nat2Z.inj_succ (S k)), Z.pow_succ_r in Hn by lia. lia.
Qed.

Lemma str_nat_length (n : Z) (k : nat) :
  0 <= n < 10 ^ Z.of_nat (S k) -> (length (str_nat n) <= S k)%nat.
Proof.
  intros Hn. unfold str_nat. rewrite length_rev. now apply digits_rev_length.
Qed.

(** ** The age patterns *)

Section RegexFacts.

Variable cls : codepoint -> bool.

(** No character of the marker belongs to the class. *)
Hypothesis marker_outside : forallb (fun c => negb (cls c)) marker = true.

Lemma marker_head_outside (post : ustring) : match_token cls (marker ++ post) = None.
Proof.
  unfold marker in *. cbn [forallb] in marker_outside.
  apply andb_true_iff in marker_outside as [H _].
  apply negb_true_iff in H. cbn [app match_token]. now rewrite H.
Qed.

Lemma match_token_sound (s tok : ustring) :
  match_token cls s = Some tok ->
  tok <> [] /\ forallb cls tok = true /\ exists post, s = tok ++ marker ++ post.
Proof.
  revert tok; induction s as [|c s IH]; intros tok H; cbn [match_token] in H.
  - discriminate.
  - destruct (cls c) eqn:Hc; [|discriminate].
    destruct (match_token cls s) as [tok'|] eqn:Hm.
    + injection H as <-. destruct (IH _ eq_refl) as (_ & Hall & post & ->).
      repeat split; [discriminate | cbn [forallb]; now rewrite Hc, Hall |].
      now exists post.
    + destruct (starts_with marker s) eqn:Hs; [|discriminate].
      injection H as <-. apply starts_with_prefix in Hs as [post ->].
      repeat split; [discriminate | cbn [forallb]; now rewrite Hc |].
      now exists post.
Qed.

Lemma match_token_complete (tok post : ustring) :
  tok <> [] -> forallb cls tok = true ->
  match_token cls (tok ++ marker ++ post) = Some tok.
Proof.
  induction tok as [|c tok IH]; intros Hne Hall; [congruence|].
  cbn [forallb] in Hall. apply andb_true_iff in Hall as [Hc Hall].
  cbn [app match_token]. rewrite Hc.
  destruct tok as [|c' tok].
  - cbn [app]. now rewrite marker_head_outside, starts_with_app.
  - now rewrite IH.
Qed.

Lemma starts_with_before_class (m q r : ustring) (c : codepoint) :
  forallb (fun x => negb (cls x)) m = true -> cls c = true ->
  starts_with m (q ++ c :: r) = starts_with m q.
Proof.
  revert q; induction m as [|x m IH]; intros q Hm Hc; [reflexivity|].
  cbn [forallb] in Hm. apply andb_true_iff in Hm as [Hx Hm].
  apply negb_true_iff in Hx.
  destruct q as [|y q]; cbn [app starts_with].
  - destruct (Z.eqb_spec x c) as [->|_]; [congruence | reflexivity].
  - now rewrite IH.
Qed.

Lemma match_token_before_class (p r : ustring) (c : codepoint) :
  p <> [] -> ends_with_class cls p = false -> cls c = true ->
  match_token cls (p ++ c :: r) = match_token cls p.
Proof.
  induction p as [|x p IH]; intros Hne Hend Hc; [congruence|].
  cbn [app match_token]. destruct (cls x) eqn:Hx; [|reflexivity].
  destruct p as [|y p].
  - cbn [ends_with_class] in Hend. congruence.
  - rewrite IH; [|discriminate|exact Hend|exact Hc].
    now rewrite (starts_with_before_class marker (y :: p) r c marker_outside Hc).
Qed.

Lemma search_token_none_head (s : ustring) :
  search_token cls s = None -> match_token cls s = None.
Proof.
  destruct s as [|c s]; [reflexivity|]. cbn [search_token].
  destruct (match_token cls (c :: s)); [discriminate | reflexivity].
Qed.

Lemma search_token_none_tail (c : codepoint) (s : ustring) :
  search_token cls (c :: s) = None -> search_token cls s = None.
Proof.
  cbn [search_token]. destruct (match_token cls (c :: s)); [discriminate | trivial].
Qed.

Lemma ends_with_class_tail (c : codepoint) (s : ustring) :
  s <> [] -> ends_with_class cls (c :: s) = ends_with_class cls s.
Proof. destruct s; [congruence | reflexivity]. Qed.

(** A match-free prefix that does not end inside a token is skipped. *)
Lemma search_token_skip (pre r : ustring) (c : codepoint) :
  search_token cls pre = None -> ends_with_class cls pre = false -> cls c = true ->
  search_token cls (pre ++ c :: r) = search_token cls (c :: r).
Proof.
  induction pre as [|x pre IH]; intros Hnone Hend Hc; [reflexivity|].
  change ((x :: pre) ++ c :: r) with (x :: (pre ++ c :: r)).
  cbn [search_token].
  change (x :: (pre ++ c :: r)) with ((x :: pre) ++ c :: r).
  rewrite match_token_before_class by (discriminate || assumption).
  rewrite (search_token_none_head _ Hnone).
  destruct pre as [|y pre]; [reflexivity|].
  apply IH; [now apply search_token_none_tail in Hnone | | exact Hc].
  now rewrite ends_with_class_tail in Hend by discriminate.
Qed.

(** The leftmost token followed by the marker is the one found. *)
Lemma search_token_found (pre tok post : ustring) :
  search_token cls pre = None -> ends_with_class cls pre = false ->
  tok <> [] -> forallb cls tok = true ->
  search_token cls (pre ++ tok ++ marker ++ post) = Some tok.
Proof.
  intros Hnone Hend Hne Hall.
  destruct tok as [|c tok]; [congruence|].
  pose proof Hall as Hall'. cbn [forallb] in Hall'.
  apply andb_true_iff in Hall' as [Hc _].
  change ((c :: tok) ++ marker ++ post) with (c :: (tok ++ marker ++ post)).
  rewrite search_token_skip by assumption.
  cbn [search_token].
  change (c :: (tok ++ marker ++ post)) with ((c :: tok) ++ marker ++ post).
  now rewrite match_token_complete.
Qed.

Lemma search_token_sound (s tok : ustring) :
  search_token cls s = Some tok ->
  tok <> [] /\ forallb cls tok = true /\
  exists pre post, s = pre ++ tok ++ marker ++ post.
Proof.
  induction s as [|c s IH]; intros H; cbn [search_token] in H; [discriminate|].
  destruct (match_token cls (c :: s)) as [tok'|] eqn:Hm.
  - injection H as <-. destruct (match_token_sound _ _ Hm) as (H1 & H2 & post & E).
    repeat split; try assumption. exists [], post. exact E.
  - destruct (IH H) as (H1 & H2 & pre & post & ->).
    repeat split; try assumption. now exists (c :: pre), post.
Qed.

(** Any token followed by the marker makes the search succeed. *)
Lemma search_token_some (pre tok post : ustring) :
  tok <> [] -> forallb cls tok = true ->
  exists found, search_token cls (pre ++ tok ++ marker ++ post) = Some found.
Proof.
  intros Hne Hall. induction pre as [|c pre IH].
  - destruct tok as [|c tok]; [congruence|].
    exists (c :: tok). cbn [app search_token].
    change (c :: (tok ++ marker ++ post)) with ((c :: tok) ++ marker ++ post).
    now rewrite match_token_complete.
  - destruct IH as [found IH]. cbn [app search_token].
    destruct (match_token cls (c :: pre ++ tok ++ marker ++ post)) as [g|].
    + now exists g.
    + now exists found.
Qed.

End RegexFacts.

Lemma marker_not_decimal : forallb (fun c => negb (is_decimal c)) marker = true.
Proof. reflexivity. Qed.

Lemma marker_not_kanji_numeral : forallb (fun c => negb (is_kanji_numeral c)) marker = true.
Proof. reflexivity. Qed.

(** ** The extractors *)

Lemma missing_PyStr (s : ustring) : s <> [] -> missing (PyStr s) = false.
Proof. destruct s; [congruence | reflexivity]. Qed.

Lemma py_int_ok (tok : ustring) :
  Z.of_nat (length tok) <= int_max_str_digits -> py_int tok = Ok (digits_value tok).
Proof.
  intros H. unfold py_int. cbv zeta.
  destruct (Z.ltb_spec int_max_str_digits (Z.of_nat (length tok))); [lia | reflexivity].
Qed.

Lemma py_int_overlong (tok : ustring) :
  int_max_str_digits < Z.of_nat (length tok) -> exists msg, py_int tok = Exc msg.
Proof.
  intros H. unfold py_int. cbv zeta.
  destruct (Z.ltb_spec int_max_str_digits (Z.of_nat (length tok))); [|lia].
  eexists; reflexivity.
Qed.

Lemma py_str_int_ok (n : Z) (k : nat) :
  0 <= n < 10 ^ Z.of_nat (S k) -> Z.of_nat (S k) <= int_max_str_digits ->
  py_str_int n = Ok (str_int n).
Proof.
  intros Hn Hk. unfold py_str_int. rewrite Z.abs_eq by lia.
  pose proof (str_nat_length n k Hn).
  destruct (Z.ltb_spec int_max_str_digits (Z.of_nat (length (str_nat n)))); [lia | reflexivity].
Qed.

Section ExtractorFacts.

Variable kanji2number : ustring -> pyresult Z.

(** The digit form is tried first; its first match decides the result. *)
Lemma extract_age_digit_form (title : pyvalue) (s tok : ustring) :
  missing title = false -> str title = Ok s ->
  search_token is_decimal s = Some tok ->
  extract_age kanji2number title
  = if int_max_str_digits <? Z.of_nat (length tok) then None else Some (digits_value tok).
Proof.
  intros Hm Hs Hd. unfold extract_age, extract_age_try. rewrite Hm, Hs.
  cbn [bind]. rewrite Hd. unfold py_int. cbv zeta.
  now destruct (int_max_str_digits <? Z.of_nat (length tok)).
Qed.

(** The numeral form is used only when no digit form matches. *)
Lemma extract_age_numeral_form (title : pyvalue) (s tok : ustring) :
  missing title = false -> str title = Ok s ->
  search_token is_decimal s = None ->
  search_token is_kanji_numeral s = Some tok ->
  extract_age kanji2number title
  = match kanji2number tok with Ok n => Some n | Exc _ => None end.
Proof.
  intros Hm Hs Hd Hk. unfold extract_age, extract_age_try. rewrite Hm, Hs.
  cbn [bind]. rewrite Hd, Hk. now destruct (kanji2number tok).
Qed.

Lemma extract_age_matches (title : pyvalue) (n : Z) :
  extract_age kanji2number title = Some n -> is_kara_pattern title = true.
Proof.
  unfold extract_age, extract_age_try, is_kara_pattern, is_kara_pattern_try.
  destruct (missing title); [discriminate|].
  destruct (str title) as [s|msg]; cbn [bind]; [|discriminate].
  destruct (search_token is_decimal s); [reflexivity|].
  destruct (search_token is_kanji_numeral s); [reflexivity | discriminate].
Qed.

Lemma conversion_fails_no_age (title : pyvalue) :
  conversion_fails kanji2number title -> extract_age kanji2number title = None.
Proof.
  intros (Hm & s & Hs & [(tok & Hd & Hlen) | (Hd & tok & msg & Hk & Hexc)]).
  - rewrite (extract_age_digit_form _ _ _ Hm Hs Hd).
    destruct (Z.ltb_spec int_max_str_digits (Z.of_nat (length tok))); [reflexivity | lia].
  - rewrite (extract_age_numeral_form _ _ _ Hm Hs Hd Hk). now rewrite Hexc.
Qed.

Lemma matches_age_or_fault (title : pyvalue) :
  is_kara_pattern title = true ->
  (exists n, extract_age kanji2number title = Some n) \/ conversion_fails kanji2number title.
Proof.
  unfold is_kara_pattern, is_kara_pattern_try. intros H.
  destruct (missing title) eqn:Hm; [discriminate|].
  destruct (str title) as [s|msg] eqn:Hs; cbn [bind] in H; [|discriminate].
  destruct (search_token is_decimal s) as [tok|] eqn:Hd.
  - rewrite (extract_age_digit_form _ _ _ Hm Hs Hd).
    destruct (Z.ltb_spec int_max_str_digits (Z.of_nat (length tok))).
    + right. split; [exact Hm|]. exists s. split; [exact Hs|]. left. now exists tok.
    + left. now eexists.
  - destruct (search_token is_kanji_numeral s) as [tok|] eqn:Hk; [|discriminate].
    rewrite (extract_age_numeral_form _ _ _ Hm Hs Hd Hk).
    destruct (kanji2number tok) as [n|msg] eqn:Hr.
    + left. now exists n.
    + right. split; [exact Hm|]. exists s. split; [exact Hs|]. right.
      split; [exact Hd|]. now exists tok, msg.
Qed.

Lemma conversion_fails_matches (title : pyvalue) :
  conversion_fails kanji2number title -> is_kara_pattern title = true.
Proof.
  intros (Hm & s & Hs & H). unfold is_kara_pattern, is_kara_pattern_try.
  rewrite Hm, Hs. cbn [bind].
  destruct H as [(tok & -> & _) | (-> & tok & msg & -> & _)]; reflexivity.
Qed.

End ExtractorFacts.

Lemma missing_no_match (kanji2number : ustring -> pyresult Z) (title : pyvalue) :
  missing title = true ->
  is_kara_pattern title = false /\ extract_age kanji2number title = None.
Proof.
  intros Hm. unfold is_kara_pattern, extract_age. now rewrite Hm.
Qed.

(** C2, amended: a title matches the pattern exactly when [extract_age]
    returns an integer or the conversion of the matched token raises; in
    the second case the title matches and the age is absent.  A missing
    value (empty, [None], NaN) neither matches nor has an age. *)
Theorem kara_pattern_iff_age_or_fault (kanji2number : ustring -> pyresult Z)
    (title : pyvalue) :
  (is_kara_pattern title = true <->
   (exists n, extract_age kanji2number title = Some n)
   \/ conversion_fails kanji2number title)
  /\ (conversion_fails kanji2number title ->
      is_kara_pattern title = true /\ extract_age kanji2number title = None)
  /\ (missing title = true ->
      is_kara_pattern title = false /\ extract_age kanji2number title = None).
Proof.
  split; [split | split].
  - apply matches_age_or_fault.
  - intros [[n Hn] | Hf].
    + exact (extract_age_matches _ _ _ Hn).
    + exact (conversion_fails_matches _ _ Hf).
  - intros Hf. split.
    + exact (conversion_fails_matches _ _ Hf).
    + exact (conversion_fails_no_age _ _ Hf).
  - apply missing_no_match.
Qed.

(** C2 fails as stated: the title matches and no age is extracted. *)
Lemma overlong_title_matches_without_age :
  is_kara_pattern overlong_title = true
  /\ extract_age NumeralParser.parse overlong_title = None.
Proof. vm_compute. split; reflexivity. Qed.

Lemma str_int_nonneg (n : Z) : 0 <= n -> str_int n = str_nat n.
Proof.
  intros H. unfold str_int. destruct (Z.ltb_spec n 0); [lia | reflexivity].
Qed.

Lemma str_nat_within_limit (n : Z) :
  0 <= n < 10 ^ int_max_str_digits ->
  Z.of_nat (length (str_nat n)) <= int_max_str_digits.
Proof.
  intros H. unfold int_max_str_digits in *.
  pose proof (str_nat_length n 4299) as L.
  replace (Z.of_nat 4300) with 4300 in L by (vm_compute; reflexivity).
  specialize (L H). apply Nat2Z.inj_le in L.
  replace (Z.of_nat 4300) with 4300 in L by (vm_compute; reflexivity).
  exact L.
Qed.

Lemma app_token_nonempty (pre tok rest : ustring) :
  tok <> [] -> pre ++ tok ++ rest <> [].
Proof. destruct pre, tok; cbn; congruence. Qed.

(** A digit token in any script, with or without leading zeros. *)
Lemma extract_age_digit_token (kanji2number : ustring -> pyresult Z)
    (pre tok post : ustring) :
  search_token is_decimal pre = None -> ends_with_class is_decimal pre = false ->
  tok <> [] -> forallb is_decimal tok = true ->
  Z.of_nat (length tok) <= int_max_str_digits ->
  extract_age kanji2number (PyStr (pre ++ tok ++ marker ++ post))
  = Some (digits_value tok).
Proof.
  intros Hpre Hend Hne Hall Hlen.
  pose proof (search_token_found is_decimal marker_not_decimal
                pre tok post Hpre Hend Hne Hall) as Hfound.
  rewrite (extract_age_digit_form kanji2number _ _ tok
             (missing_PyStr _ (app_token_nonempty pre tok _ Hne)) eq_refl Hfound).
  destruct (Z.ltb_spec int_max_str_digits (Z.of_nat (length tok))); [lia | reflexivity].
Qed.

(** C3, amended: a title whose first digit-form match is a natural
    number of at most 4300 digits yields that number; a title with no
    digit form whose first numeral token is 十三 yields what
    [kanji2number] returns for it, 13; and whenever a digit form matches
    within the limit, its first match is the result, whatever numeral
    forms the title contains. *)
Theorem extract_age_first_token :
  (forall (kanji2number : ustring -> pyresult Z) (pre post : ustring) (n : Z),
      search_token is_decimal pre = None -> ends_with_class is_decimal pre = false ->
      0 <= n < 10 ^ int_max_str_digits ->
      extract_age kanji2number (PyStr (pre ++ str_int n ++ marker ++ post)) = Some n)
  /\ (forall (kanji2number : ustring -> pyresult Z) (pre post : ustring),
      kanji2number thirteen = Ok 13 ->
      search_token is_decimal (pre ++ thirteen ++ marker ++ post) = None ->
      search_token is_kanji_numeral pre = None ->
      ends_with_class is_kanji_numeral pre = false ->
      extract_age kanji2number (PyStr (pre ++ thirteen ++ marker ++ post)) = Some 13)
  /\ (forall (kanji2number : ustring -> pyresult Z) (title : pyvalue) (s tok : ustring),
      missing title = false -> str title = Ok s ->
      search_token is_decimal s = Some tok ->
      Z.of_nat (length tok) <= int_max_str_digits ->
      extract_age kanji2number title = Some (digits_value tok)).
Proof.
  split; [|split].
  - intros k pre post n Hpre Hend Hn.
    rewrite str_int_nonneg by lia.
    destruct (str_nat_digits n ltac:(lia)) as [Hall Hne].
    rewrite extract_age_digit_token; try assumption.
    + now rewrite digits_value_str_nat by lia.
    + now apply str_nat_within_limit.
  - intros k pre post Hk Hd Hpre Hend.
    pose proof (search_token_found is_kanji_numeral marker_not_kanji_numeral
                  pre thirteen post Hpre Hend ltac:(discriminate) eq_refl) as Hfound.
    rewrite (extract_age_numeral_form k _ _ thirteen
               (missing_PyStr _ (app_token_nonempty pre thirteen _ ltac:(discriminate)))
               eq_refl Hd Hfound).
    now rewrite Hk.
  - intros k title s tok Hm Hs Hd Hlen.
    rewrite (extract_age_digit_form k _ _ _ Hm Hs Hd).
    destruct (Z.ltb_spec int_max_str_digits (Z.of_nat (length tok))); [lia | reflexivity].
Qed.

Lemma extract_age_first_token_witness :
  extract_age NumeralParser.parse (PyStr (u"13歳からの哲学")) = Some 13
  /\ extract_age NumeralParser.parse (PyStr (u"十三歳からの地政学")) = Some 13
  /\ extract_age NumeralParser.parse (PyStr (u"十三歳からの5歳からの")) = Some 5.
Proof.
  split; [|split].
  - assert (H : 0 <= 13 < 10 ^ int_max_str_digits)
      by (split; [lia | vm_compute; reflexivity]).
    pose proof (proj1 extract_age_first_token NumeralParser.parse [] (u"哲学") 13
                  eq_refl eq_refl H) as W.
    vm_compute in W. vm_compute. exact W.
  - pose proof (proj1 (proj2 extract_age_first_token) NumeralParser.parse [] (u"地政学")
                  eq_refl eq_refl eq_refl eq_refl) as W.
    vm_compute in W. vm_compute. exact W.
  - assert (H : Z.of_nat (length [53]) <= int_max_str_digits) by (vm_compute; discriminate).
    pose proof (proj2 (proj2 extract_age_first_token) NumeralParser.parse
                  (PyStr (u"十三歳からの5歳からの")) (u"十三歳からの5歳からの") [53]
                  eq_refl eq_refl eq_refl H) as W.
    vm_compute in W. vm_compute. exact W.
Defined.

(** C3 fails as stated: the marker is preceded by 4301 plain digits and
    no integer is returned. *)
Lemma overlong_digit_token_not_returned :
  forallb is_decimal (repeat 49 4301) = true
  /\ search_token is_decimal (repeat 49 4301 ++ marker) = Some (repeat 49 4301)
  /\ extract_age NumeralParser.parse (PyStr (repeat 49 4301 ++ marker)) = None.
Proof. vm_compute. repeat split; reflexivity. Qed.

(** ** The decade of a publication date *)

Lemma match_year_spec (s y : ustring) :
  match_year s = Some y <->
  exists a b c d rest,
    s = a :: b :: c :: d :: rest /\ y = [a; b; c; d] /\
    is_decimal a && is_decimal b && is_decimal c && is_decimal d = true.
Proof.
  unfold match_year. split.
  - destruct s as [|a [|b [|c [|d rest]]]]; try discriminate.
    destruct (is_decimal a && is_decimal b && is_decimal c && is_decimal d) eqn:E;
      [|discriminate].
    intros [= <-]. now exists a, b, c, d, rest.
  - intros (a & b & c & d & rest & -> & -> & ->). reflexivity.
Qed.

Lemma search_year_first (s : ustring) (i : nat) (y : ustring) :
  (forall j, (j < i)%nat -> match_year (skipn j s) = None) ->
  match_year (skipn i s) = Some y ->
  search_year s = Some y.
Proof.
  revert s; induction i as [|i IH]; intros s Hbefore Hat.
  - cbn [skipn] in Hat. destruct s as [|c s]; [discriminate|].
    cbn [search_year]. now rewrite Hat.
  - destruct s as [|c s]; [discriminate|].
    pose proof (Hbefore 0%nat ltac:(lia)) as H0. cbn [skipn] in H0.
    cbn [search_year]. rewrite H0.
    apply IH; [|exact Hat].
    intros j Hj. exact (Hbefore (S j) ltac:(lia)).
Qed.

Lemma search_year_none (s : ustring) :
  (forall j, match_year (skipn j s) = None) -> search_year s = None.
Proof.
  induction s as [|c s IH]; intros H; [reflexivity|].
  pose proof (H 0%nat) as H0. cbn [skipn] in H0.
  cbn [search_year]. rewrite H0.
  apply IH. intros j. exact (H (S j)).
Qed.

Lemma year_value_bound (a b c d : codepoint) :
  0 <= digits_value [a; b; c; d] < 10 ^ 4.
Proof.
  unfold digits_value. cbn [fold_left].
  destruct (decimal a) as [da|] eqn:Ea; [apply decimal_range in Ea|];
  destruct (decimal b) as [db|] eqn:Eb; [apply decimal_range in Eb| |apply decimal_range in Eb|];
  destruct (decimal c) as [dc|] eqn:Ec; try apply decimal_range in Ec;
  destruct (decimal d) as [dd|] eqn:Ed; try apply decimal_range in Ed;
  change (10 ^ 4) with 10000; lia.
Qed.

Lemma extract_decade_year (publish_date : pyvalue) (s y : ustring) :
  missing publish_date = false -> str publish_date = Ok s ->
  search_year s = Some y ->
  (exists a b c d, y = [a; b; c; d]) ->
  extract_decade publish_date = Some (str_int (digits_value y / 10 * 10) ++ u"年代").
Proof.
  intros Hm Hs Hy (a & b & c & d & ->).
  unfold extract_decade, extract_decade_try. rewrite Hm, Hs. cbn [bind]. rewrite Hy.
  rewrite py_int_ok by (vm_compute; discriminate). cbn [bind].
  pose proof (year_value_bound a b c d) as Hv. change (10 ^ 4) with 10000 in Hv.
  rewrite (py_str_int_ok (digits_value [a; b; c; d] / 10 * 10) 3).
  - reflexivity.
  - change (10 ^ Z.of_nat 4) with 10000.
    pose proof (Z.div_mod (digits_value [a; b; c; d]) 10 ltac:(lia)).
    pose proof (Z.mod_pos_bound (digits_value [a; b; c; d]) 10 ltac:(lia)). lia.
  - vm_compute. discriminate.
Qed.

(** C7: the first window of four decimal digits is read as the year and
    labelled with its decade; with no such window, and for a missing
    value, the result is absent.  The function is total: nothing escapes
    it. *)
Theorem extract_decade_first_year :
  (forall (publish_date : pyvalue) (s : ustring) (i : nat) (y : ustring),
      missing publish_date = false -> str publish_date = Ok s ->
      (forall j, (j < i)%nat -> match_year (skipn j s) = None) ->
      match_year (skipn i s) = Some y ->
      extract_decade publish_date
      = Some (str_int (digits_value y / 10 * 10) ++ u"年代"))
  /\ (forall (publish_date : pyvalue) (s : ustring),
      str publish_date = Ok s ->
      (forall j, match_year (skipn j s) = None) ->
      extract_decade publish_date = None)
  /\ (forall (publish_date : pyvalue) (msg : ustring),
      missing publish_date = true \/ str publish_date = Exc msg ->
      extract_decade publish_date = None)
  /\ extract_decade (PyStr (u"1995-01-01")) = Some (u"1990年代")
  /\ extract_decade (PyStr (u"reprint of 19999")) = Some (u"1990年代")
  /\ extract_decade (PyStr (u"abcd")) = None.
Proof.
  split; [|split; [|split; [|repeat split; vm_compute; reflexivity]]].
  - intros d s i y Hm Hs Hbefore Hat.
    apply (extract_decade_year d s y Hm Hs (search_year_first s i y Hbefore Hat)).
    apply match_year_spec in Hat as (a & b & c & e & rest & _ & -> & _).
    now exists a, b, c, e.
  - intros d s Hs Hnone. unfold extract_decade, extract_decade_try.
    rewrite Hs. cbn [bind]. rewrite (search_year_none s Hnone).
    now destruct (missing d).
  - intros d msg [Hm | Hs]; unfold extract_decade, extract_decade_try.
    + now rewrite Hm.
    + rewrite Hs. now destruct (missing d).
Qed.

Lemma extract_decade_first_year_witness :
  extract_decade (PyStr (u"初版 2003年")) = Some (u"2000年代")
  /\ extract_decade (PyInt 1995) = Some (u"1990年代")
  /\ extract_decade (PyStr (u"no year")) = None
  /\ extract_decade PyNaN = None.
Proof.
  split; [|split; [|split]].
  - assert (B : forall j, (j < 3)%nat -> match_year (skipn j (u"初版 2003年")) = None).
    { intros [|[|[|j]]] Hj; try reflexivity; lia. }
    pose proof (proj1 extract_decade_first_year (PyStr (u"初版 2003年")) (u"初版 2003年")
                  3%nat (u"2003") eq_refl eq_refl B eq_refl) as W.
    vm_compute in W. vm_compute. exact W.
  - assert (B : forall j, (j < 0)%nat -> match_year (skipn j (u"1995")) = None)
      by (intros j Hj; lia).
    pose proof (proj1 extract_decade_first_year (PyInt 1995) (u"1995")
                  0%nat (u"1995") eq_refl eq_refl B eq_refl) as W.
    vm_compute in W. vm_compute. exact W.
  - assert (B : forall j, match_year (skipn j (u"no year")) = None).
    { intros [|[|[|[|[|[|[|j]]]]]]]; try reflexivity.
      change (u"no year") with [110; 111; 32; 121; 101; 97; 114].
      cbn [skipn]. now rewrite skipn_nil. }
    exact (proj1 (proj2 extract_decade_first_year) (PyStr (u"no year")) (u"no year")
             eq_refl B).
  - exact (proj1 (proj2 (proj2 extract_decade_first_year)) PyNaN [] (or_introl eq_refl)).
Defined.

(** ** The filtering block *)

Section PipelineFacts.

Variable kanji2number : ustring -> pyresult Z.

Lemma filter_and_enrich_sources (df : list record) :
  map source (filter_and_enrich kanji2number df)
  = filter (fun r => is_kara_pattern (title r)) df.
Proof.
  unfold filter_and_enrich. cbv zeta. rewrite map_map. cbn [source]. apply map_id.
Qed.

Lemma filter_and_enrich_In (df : list record) (e : enriched) :
  In e (filter_and_enrich kanji2number df) <->
  In (source e) df /\ is_kara_pattern (title (source e)) = true
  /\ target_age e = extract_age kanji2number (title (source e)).
Proof.
  unfold filter_and_enrich. cbv zeta. rewrite in_map_iff. split.
  - intros (r & <- & Hr). apply filter_In in Hr as [Hin Hk]. cbn. auto.
  - intros (Hin & Hk & Hage). exists (source e). split.
    + destruct e as [r a]. cbn in *. now subst a.
    + apply filter_In. auto.
Qed.

End PipelineFacts.

(** C1, amended: the filter keeps exactly the records whose title
    matches, in their order, and attaches [extract_age] of the title; a
    kept record has an absent age exactly when the conversion of its
    token raises, and such a record stays in [df] until the selection
    [notna()] that builds [df_with_age], whose records all carry an
    age. *)
Theorem filter_and_enrich_spec (kanji2number : ustring -> pyresult Z)
    (df : list record) :
  map source (filter_and_enrich kanji2number df)
  = filter (fun r => is_kara_pattern (title r)) df
  /\ (forall e, In e (filter_and_enrich kanji2number df) ->
        is_kara_pattern (title (source e)) = true
        /\ target_age e = extract_age kanji2number (title (source e))
        /\ (target_age e = None <-> conversion_fails kanji2number (title (source e))))
  /\ (forall e, In e (df_with_age (filter_and_enrich kanji2number df)) ->
        In e (filter_and_enrich kanji2number df)
        /\ exists n, target_age e = Some n).
Proof.
  split; [apply filter_and_enrich_sources | split].
  - intros e He. apply filter_and_enrich_In in He as (_ & Hk & Hage).
    split; [exact Hk | split; [exact Hage | split]].
    + intros Hnone. rewrite Hage in Hnone.
      destruct (matches_age_or_fault kanji2number _ Hk) as [[n Hn] | Hf];
        [congruence | exact Hf].
    + intros Hf. rewrite Hage. now apply conversion_fails_no_age.
  - intros e He. unfold df_with_age in He. apply filter_In in He as [Hin Hna].
    split; [exact Hin|]. unfold notna in Hna.
    destruct (target_age e) as [n|]; [now exists n | discriminate].
Qed.

Lemma filter_and_enrich_spec_witness :
  map source (filter_and_enrich NumeralParser.parse sample_df)
  = filter (fun r => is_kara_pattern (title r)) sample_df
  /\ exists n,
       target_age
         {| source := {| title := PyStr (u"13歳からの哲学");
                         publish_date := PyStr (u"1995-01-01") |};
            target_age := Some 13 |} = Some n.
Proof.
  split.
  - exact (proj1 (filter_and_enrich_spec NumeralParser.parse sample_df)).
  - refine (proj2 (proj2 (proj2 (filter_and_enrich_spec NumeralParser.parse sample_df))
                     _ _)).
    vm_compute. left. reflexivity.
Defined.

(** C1 fails as stated: the record survives the filter-and-enrich step
    with an absent age. *)
Lemma overlong_record_kept_without_age :
  map target_age (filter_and_enrich NumeralParser.parse [overlong_record]) = [None].
Proof. vm_compute. reflexivity. Qed.

(** ** Sorting by value *)

Section SortFacts.

Variable K : Type.

Lemma insert_before_perm (x : K * Z) (l : list (K * Z)) :
  Permutation (x :: l) (insert_before x l).
Proof.
  induction l as [|y l IH]; cbn [insert_before]; [reflexivity|].
  destruct (snd y <=? snd x); [reflexivity|].
  rewrite perm_swap. now constructor.
Qed.

Lemma desc_trans (x y : K * Z) (l : list (K * Z)) :
  desc x y -> Forall (desc y) l -> Forall (desc x) l.
Proof.
  intros Hxy. apply Forall_impl. unfold desc in *. intros z. lia.
Qed.

Lemma insert_before_sorted (x : K * Z) (l : list (K * Z)) :
  StronglySorted desc l -> StronglySorted desc (insert_before x l).
Proof.
  induction 1 as [|y l Hs IH Hy]; cbn [insert_before].
  - repeat constructor.
  - destruct (Z.leb_spec (snd y) (snd x)) as [Hle|Hlt].
    + constructor; [now constructor|].
      constructor; [exact Hle|]. now apply (desc_trans x y).
    + constructor; [exact IH|].
      apply (Permutation_Forall (insert_before_perm x l)).
      constructor; [unfold desc; lia | exact Hy].
Qed.

Lemma stable_sort_desc_perm (l : list (K * Z)) : Permutation l (stable_sort_desc l).
Proof.
  induction l as [|x l IH]; [reflexivity|]. cbn [stable_sort_desc fold_right].
  rewrite <- insert_before_perm. now constructor.
Qed.

Lemma stable_sort_desc_sorted (l : list (K * Z)) : StronglySorted desc (stable_sort_desc l).
Proof.
  induction l as [|x l IH]; [constructor|]. now apply insert_before_sorted.
Qed.



End SortFacts.

(** A stable implementation of [sort_values]. *)
Definition stable : sort_values :=
  {| sort_desc := @stable_sort_desc;
     sort_desc_perm := stable_sort_desc_perm;
     sort_desc_sorted := stable_sort_desc_sorted |}.


Lemma sort_desc_nil (S : sort_values) (K : Type) : sort_desc S (@nil (K * Z)) = [].
Proof. apply Permutation_nil, sort_desc_perm. Qed.

Lemma sort_desc_In (S : sort_values) (K : Type) (l : list (K * Z)) (x : K * Z) :
  In x (sort_desc S l) <-> In x l.
Proof.
  split; apply Permutation_in; [symmetry|]; apply sort_desc_perm.
Qed.

Lemma sort_desc_length (S : sort_values) (K : Type) (l : list (K * Z)) :
  length (sort_desc S l) = length l.
Proof. symmetry. apply Permutation_length, sort_desc_perm. Qed.

(** ** Counting values *)

Section TallyFacts.

Variable K : Type.
Variable eqb : K -> K -> bool.
Hypothesis eqb_spec : forall a b, eqb a b = true <-> a = b.

Lemma eqb_refl (a : K) : eqb a a = true.
Proof. now apply eqb_spec. Qed.

Lemma eqb_neq (a b : K) : a <> b -> eqb a b = false.
Proof.
  intros H. destruct (eqb a b) eqn:E; [|reflexivity]. now apply eqb_spec in E.
Qed.

Lemma recorded_bump_same (a : K) (t : list (K * Z)) :
  recorded eqb a (bump eqb a t) = recorded eqb a t + 1.
Proof.
  induction t as [|[b c] t IH]; cbn [bump recorded].
  - now rewrite eqb_refl.
  - destruct (eqb a b) eqn:E; cbn [recorded]; rewrite E; [reflexivity | exact IH].
Qed.

Lemma recorded_bump_other (a b : K) (t : list (K * Z)) :
  a <> b -> recorded eqb b (bump eqb a t) = recorded eqb b t.
Proof.
  intros Hab. induction t as [|[x c] t IH]; cbn [bump recorded].
  - now rewrite eqb_neq by congruence.
  - destruct (eqb a x) eqn:E; cbn [recorded].
    + apply eqb_spec in E; subst x. now rewrite !eqb_neq by congruence.
    + now rewrite IH.
Qed.

Lemma bump_keys (a : K) (t : list (K * Z)) :
  map fst (bump eqb a t)
  = if existsb (eqb a) (map fst t) then map fst t else map fst t ++ [a].
Proof.
  induction t as [|[b c] t IH]; cbn [bump map fst existsb app]; [reflexivity|].
  destruct (eqb a b) eqn:E; cbn [map fst orb]; [reflexivity|].
  rewrite IH. now destruct (existsb (eqb a) (map fst t)).
Qed.

Lemma existsb_eqb_In (a : K) (l : list K) : existsb (eqb a) l = true <-> In a l.
Proof.
  rewrite existsb_exists. split.
  - intros (b & Hb & E). apply eqb_spec in E. now subst.
  - intros H. exists a. split; [exact H | apply eqb_refl].
Qed.

Lemma bump_NoDup (a : K) (t : list (K * Z)) :
  NoDup (map fst t) -> NoDup (map fst (bump eqb a t)).
Proof.
  intros H. rewrite bump_keys.
  destruct (existsb (eqb a) (map fst t)) eqn:E; [exact H|].
  apply NoDup_app; [exact H | repeat constructor; intros [] | ].
  intros x Hx [<-|[]]. apply existsb_eqb_In in Hx. congruence.
Qed.

Lemma bump_positive (a : K) (t : list (K * Z)) :
  Forall (fun e => 0 < snd e) t -> Forall (fun e => 0 < snd e) (bump eqb a t).
Proof.
  induction 1 as [|[b c] t Hc Ht IH]; cbn [bump].
  - repeat constructor.
  - destruct (eqb a b); constructor; cbn [snd] in *; try assumption. lia.
Qed.

Lemma occurrences_cons (a b : K) (l : list K) :
  occurrences eqb a (b :: l) = (if eqb a b then 1 else 0) + occurrences eqb a l.
Proof.
  unfold occurrences. cbn [filter]. destruct (eqb a b); cbn [length]; lia.
Qed.

Lemma tally_from (l : list K) (t : list (K * Z)) :
  NoDup (map fst t) -> Forall (fun e => 0 < snd e) t ->
  let t' := fold_left (fun t a => bump eqb a t) l t in
  NoDup (map fst t') /\ Forall (fun e => 0 < snd e) t'
  /\ forall a, recorded eqb a t' = recorded eqb a t + occurrences eqb a l.
Proof.
  revert t; induction l as [|b l IH]; intros t Hnd Hpos; cbn [fold_left].
  - repeat split; try assumption. intros a. unfold occurrences. cbn. lia.
  - destruct (IH (bump eqb b t) (bump_NoDup b t Hnd) (bump_positive b t Hpos))
      as (H1 & H2 & H3).
    repeat split; try assumption. intros a. rewrite H3, occurrences_cons.
    destruct (eqb a b) eqn:E.
    + apply eqb_spec in E; subst b. rewrite recorded_bump_same. lia.
    + rewrite recorded_bump_other; [lia|]. intros ->. now rewrite eqb_refl in E.
Qed.

Lemma recorded_In (a : K) (c : Z) (t : list (K * Z)) :
  NoDup (map fst t) -> In (a, c) t -> recorded eqb a t = c.
Proof.
  induction t as [|[b d] t IH]; intros Hnd Hin; [destruct Hin|].
  cbn [map fst] in Hnd. inversion Hnd as [|? ? Hb Hnd']; subst.
  cbn [recorded]. destruct Hin as [[= -> ->]|Hin].
  - now rewrite eqb_refl.
  - rewrite eqb_neq; [now apply IH|].
    intros ->. apply Hb. apply (in_map fst) in Hin. exact Hin.
Qed.

Lemma recorded_absent (a : K) (t : list (K * Z)) :
  ~ In a (map fst t) -> recorded eqb a t = 0.
Proof.
  induction t as [|[b d] t IH]; intros H; [reflexivity|].
  cbn [recorded map fst] in *. rewrite eqb_neq.
  - apply IH. intros Hin. apply H. now right.
  - intros ->. apply H. now left.
Qed.

(** The table of counts has one entry per distinct value, with the
    number of its occurrences. *)
Lemma tally_spec (l : list K) :
  NoDup (map fst (tally eqb l))
  /\ (forall a c, In (a, c) (tally eqb l) <-> c = occurrences eqb a l /\ 0 < c).
Proof.
  destruct (tally_from l [] (NoDup_nil _) (Forall_nil _)) as (Hnd & Hpos & Hrec).
  cbv zeta in *. fold (tally eqb l) in *.
  assert (Hocc : forall a, recorded eqb a (tally eqb l) = occurrences eqb a l).
  { intros a. rewrite Hrec. cbn [recorded]. lia. }
  clear Hrec. rename Hocc into Hrec.
  split; [exact Hnd|]. intros a c. split.
  - intros Hin. rewrite <- (Hrec a), (recorded_In a c _ Hnd Hin).
    split; [lia|]. rewrite Forall_forall in Hpos. exact (Hpos _ Hin).
  - intros [-> Hc].
    destruct (in_dec (fun x y => match Bool.bool_dec (eqb x y) true with
                                 | left e => left (proj1 (eqb_spec x y) e)
                                 | right n => right (fun e => n (proj2 (eqb_spec x y) e))
                                 end) a (map fst (tally eqb l))) as [Hin|Hout].
    + apply in_map_iff in Hin as ([b c] & E & Hin). cbn [fst] in E. subst b.
      rewrite <- (Hrec a), (recorded_In a c _ Hnd Hin) in *. exact Hin.
    + apply recorded_absent in Hout. rewrite <- (Hrec a) in Hc. lia.
Qed.

End TallyFacts.

Arguments tally_spec {K} eqb eqb_spec l.

(** ** The ages with the most books *)

Lemma firstn_In_list {A} (n : nat) (l : list A) (x : A) :
  In x (firstn n l) -> In x l.
Proof.
  intros H. rewrite <- (firstn_skipn n l). apply in_or_app. now left.
Qed.


Lemma StronglySorted_firstn {A} (R : A -> A -> Prop) (n : nat) (l : list A) :
  StronglySorted R l -> StronglySorted R (firstn n l).
Proof.
  intros H. revert n. induction H as [|x l Hs IH Hx]; intros [|n]; cbn [firstn];
    try constructor.
  - apply IH.
  - rewrite Forall_forall in *. intros y Hy. apply Hx. now apply firstn_In_list in Hy.
Qed.


Lemma Z_eqb_spec (a b : Z) : Z.eqb a b = true <-> a = b.
Proof. apply Z.eqb_eq. Qed.

Section TopAges.

Variable S : sort_values.
Variable df : frame.

Lemma age_counts_In (a c : Z) :
  In (a, c) (age_counts S df) <-> c = occurrences Z.eqb a (dropna (ages df)) /\ 0 < c.
Proof.
  unfold age_counts, value_counts. rewrite !sort_desc_In.
  apply (proj2 (tally_spec Z.eqb Z_eqb_spec (dropna (ages df)))).
Qed.

Lemma age_counts_NoDup : NoDup (map fst (age_counts S df)).
Proof.
  unfold age_counts, value_counts.
  eapply Permutation_NoDup.
  - apply Permutation_map.
    etransitivity; apply sort_desc_perm.
  - apply (proj1 (tally_spec Z.eqb Z_eqb_spec (dropna (ages df)))).
Qed.

Lemma top_ages_eq : top_ages (aggregate_statistics S df) = firstn 10 (age_counts S df).
Proof. reflexivity. Qed.

Lemma peak_eq : peak (aggregate_statistics S df) = hd_error (age_counts S df).
Proof.
  unfold aggregate_statistics. cbv zeta. cbn [peak]. fold (age_counts S df).
  now destruct (age_counts S df).
Qed.

End TopAges.

Lemma occurrences_positive (a : Z) (l : list Z) :
  In a l -> 0 < occurrences Z.eqb a l.
Proof.
  intros H. unfold occurrences.
  assert (Hin : In a (filter (Z.eqb a) l)) by (apply filter_In; split; [exact H | apply Z.eqb_refl]).
  destruct (filter (Z.eqb a) l); [destruct Hin | cbn [length]; lia].
Qed.



(** ** Age bands *)

Lemma dropna_app {A} (l1 l2 : list (option A)) :
  dropna (l1 ++ l2) = dropna l1 ++ dropna l2.
Proof.
  induction l1 as [|[a|] l1 IH]; cbn [app dropna]; [reflexivity | | exact IH].
  now rewrite IH.
Qed.

Lemma count_where_nil (cond : Z -> bool) : count_where cond [] = 0.
Proof. reflexivity. Qed.

Lemma count_where_some (cond : Z -> bool) (a : Z) (l : list (option Z)) :
  count_where cond (Some a :: l) = Z.b2z (cond a) + count_where cond l.
Proof.
  unfold count_where. cbn [dropna filter]. destruct (cond a); cbn [length Z.b2z]; lia.
Qed.

Lemma count_where_none (cond : Z -> bool) (l : list (option Z)) :
  count_where cond (None :: l) = count_where cond l.
Proof. reflexivity. Qed.

Lemma count_where_app (cond : Z -> bool) (l1 l2 : list (option Z)) :
  count_where cond (l1 ++ l2) = count_where cond l1 + count_where cond l2.
Proof.
  unfold count_where. rewrite dropna_app, filter_app, length_app. lia.
Qed.

Lemma count_where_nonneg (cond : Z -> bool) (l : list (option Z)) :
  0 <= count_where cond l.
Proof. unfold count_where. lia. Qed.

Lemma count_where_ext (f g : Z -> bool) (l : list (option Z)) :
  (forall a, f a = g a) -> count_where f l = count_where g l.
Proof.
  intros H. unfold count_where. now rewrite (filter_ext f g H).
Qed.

Lemma age_groups_table (col : list (option Z)) :
  age_groups col = map (band_count col) band_table.
Proof.
  unfold age_groups, band_table. cbn [map band_count].
  rewrite (count_where_ext (fun a => 90 <=? a) (in_band 90 None)); [reflexivity|].
  intros a. unfold in_band. now rewrite andb_true_r.
Qed.

(** Decides every comparison of the goal that the hypotheses settle. *)
Ltac decide_comparisons :=
  repeat match goal with
  | |- context [?a <=? ?b] =>
      first [ rewrite (proj2 (Z.leb_le a b)) by lia
            | rewrite (proj2 (Z.leb_gt a b)) by lia ]
  | |- context [?a <? ?b] =>
      first [ rewrite (proj2 (Z.ltb_lt a b)) by lia
            | rewrite (proj2 (Z.ltb_ge a b)) by lia ]
  end.

(** A non-negative age falls in exactly one band. *)
Lemma one_band (n : Z) :
  0 <= n ->
  Z.b2z ((0 <=? n) && (n <? 10)) + Z.b2z ((10 <=? n) && (n <? 20))
  + Z.b2z ((20 <=? n) && (n <? 30)) + Z.b2z ((30 <=? n) && (n <? 40))
  + Z.b2z ((40 <=? n) && (n <? 50)) + Z.b2z ((50 <=? n) && (n <? 60))
  + Z.b2z ((60 <=? n) && (n <? 70)) + Z.b2z ((70 <=? n) && (n <? 80))
  + Z.b2z ((80 <=? n) && (n <? 90)) + Z.b2z (90 <=? n) = 1.
Proof.
  intros Hn.
  assert (H : n < 10 \/ 10 <= n < 20 \/ 20 <= n < 30 \/ 30 <= n < 40 \/ 40 <= n < 50
              \/ 50 <= n < 60 \/ 60 <= n < 70 \/ 70 <= n < 80 \/ 80 <= n < 90
              \/ 90 <= n) by lia.
  destruct H as [H|[H|[H|[H|[H|[H|[H|[H|[H|H]]]]]]]]];
    decide_comparisons; reflexivity.
Qed.

Lemma age_groups_sum (col : list (option Z)) :
  Forall (fun a => exists n, a = Some n /\ 0 <= n) col ->
  sum (map snd (age_groups col)) = Z.of_nat (length col).
Proof.
  unfold age_groups. cbn [map snd sum fold_right].
  induction 1 as [|a col (n & -> & Hn) Hcol IH].
  - reflexivity.
  - rewrite !count_where_some. cbn [length]. rewrite Nat2Z.inj_succ, <- IH.
    pose proof (one_band n Hn). lia.
Qed.

Lemma extract_age_natural (kanji2number : ustring -> pyresult Z)
    (title : pyvalue) (n : Z) :
  (forall tok m, kanji2number tok = Ok m -> 0 <= m) ->
  extract_age kanji2number title = Some n -> 0 <= n.
Proof.
  intros Hk. unfold extract_age, extract_age_try.
  destruct (missing title); [discriminate|].
  destruct (str title) as [s|]; cbn [bind]; [|discriminate].
  destruct (search_token is_decimal s) as [tok|].
  - unfold py_int. cbv zeta.
    destruct (int_max_str_digits <? Z.of_nat (length tok)); cbn [bind]; [discriminate|].
    intros [= <-]. apply digits_value_nonneg.
  - destruct (search_token is_kanji_numeral s) as [tok|]; [|discriminate].
    destruct (kanji2number tok) as [m|] eqn:E; cbn [bind]; [|discriminate].
    intros [= <-]. exact (Hk _ _ E).
Qed.

(** After the two selections of the main script every record carries a
    natural number, provided the numeral parser returns no negative
    number. *)
Lemma pipeline_ages_natural (kanji2number : ustring -> pyresult Z) (df : list record) :
  (forall tok m, kanji2number tok = Ok m -> 0 <= m) ->
  Forall (fun a => exists n, a = Some n /\ 0 <= n)
    (ages (statistics_input (df_with_age (filter_and_enrich kanji2number df)))).
Proof.
  intros Hk. cbn [ages statistics_input]. apply Forall_forall. intros a Ha.
  apply in_map_iff in Ha as (e & <- & He).
  unfold df_with_age in He. apply filter_In in He as [He Hna].
  apply filter_and_enrich_In in He as (_ & _ & Hage).
  unfold notna in Hna. destruct (target_age e) as [n|] eqn:E; [|discriminate].
  exists n. split; [reflexivity|].
  exact (extract_age_natural kanji2number _ n Hk (eq_sym Hage)).
Qed.

(** C5: when every record carries an age (a natural number, as the
    extractors produce), the band counts add up to the number of
    records; each band counts the records whose age lies within its
    bounds; and the bands come in ascending order whatever the data. *)
Theorem age_band_counts_partition (S : sort_values) (df : frame) :
  Forall (fun a => exists n, a = Some n /\ 0 <= n) (ages df) ->
  sum (map snd (age_band_counts (aggregate_statistics S df)))
  = total_count (aggregate_statistics S df)
  /\ age_band_counts (aggregate_statistics S df)
     = map (band_count (ages df)) band_table
  /\ map fst (age_band_counts (aggregate_statistics S df))
     = map (fun band => fst (fst band)) band_table
  /\ map (fun band => (snd (fst band), snd band)) band_table
     = [ (0, Some 10); (10, Some 20); (20, Some 30); (30, Some 40); (40, Some 50);
         (50, Some 60); (60, Some 70); (70, Some 80); (80, Some 90); (90, None) ].
Proof.
  intros Hages. unfold aggregate_statistics. cbv zeta.
  cbn [age_band_counts total_count].
  split; [now apply age_groups_sum | split; [apply age_groups_table | split]];
    reflexivity.
Qed.

Lemma age_band_counts_partition_witness :
  sum (map snd (age_band_counts (aggregate_statistics stable sample_frame)))
  = total_count (aggregate_statistics stable sample_frame)
  /\ age_band_counts (aggregate_statistics stable sample_frame)
     = map (band_count (ages sample_frame)) band_table
  /\ map fst (age_band_counts (aggregate_statistics stable sample_frame))
     = map (fun band => fst (fst band)) band_table
  /\ map (fun band => (snd (fst band), snd band)) band_table
     = [ (0, Some 10); (10, Some 20); (20, Some 30); (30, Some 40); (40, Some 50);
         (50, Some 60); (60, Some 70); (70, Some 80); (80, Some 90); (90, None) ].
Proof.
  apply (age_band_counts_partition stable sample_frame).
  repeat constructor; eexists; (split; [reflexivity | lia]).
Defined.

Example sample_frame_bands :
  map snd (age_band_counts (aggregate_statistics stable sample_frame))
  = [0; 3; 1; 0; 0; 0; 0; 0; 0; 0]
  /\ total_count (aggregate_statistics stable sample_frame) = 4
  /\ peak (aggregate_statistics stable sample_frame) = Some (13, 2)
  /\ mean_age (aggregate_statistics stable sample_frame) = NFloat 15.25%float.
Proof. vm_compute. repeat split; reflexivity. Qed.

Lemma numeral_groups_natural (s : ustring) (pending : option Z) (total m : Z) :
  0 <= total -> (forall d, pending = Some d -> 0 <= d) ->
  NumeralParser.groups pending total s = Ok m -> 0 <= m.
Proof.
  revert pending total; induction s as [|c s IH]; intros pending total Ht Hp H;
    cbn [NumeralParser.groups] in H.
  - injection H as <-. destruct pending as [d|]; [specialize (Hp d eq_refl)|]; lia.
  - assert (Hd : forall d, NumeralParser.digit c = Some d -> 0 <= d).
    { unfold NumeralParser.digit. intros d.
      repeat match goal with |- context [if ?b then _ else _] => destruct b end;
        intros [= <-]; lia. }
    assert (Hv : forall v, NumeralParser.place c = Some v -> 0 <= v).
    { unfold NumeralParser.place. intros v.
      repeat match goal with |- context [if ?b then _ else _] => destruct b end;
        intros [= <-]; lia. }
    destruct (NumeralParser.digit c) as [d|].
    + apply IH in H; [exact H | | intros ? [= <-]; now apply Hd].
      destruct pending as [q|]; [specialize (Hp q eq_refl)|]; lia.
    + destruct (NumeralParser.place c) as [v|]; [|discriminate].
      specialize (Hv v eq_refl).
      apply IH in H; [exact H | | discriminate].
      destruct pending as [q|]; [specialize (Hp q eq_refl)|]; nia.
Qed.

Lemma numeral_parse_natural (tok : ustring) (m : Z) :
  NumeralParser.parse tok = Ok m -> 0 <= m.
Proof.
  unfold NumeralParser.parse. destruct tok as [|c tok]; [discriminate|].
  apply numeral_groups_natural; [lia | discriminate].
Qed.

(** On the batch that the main script aggregates, the band counts add
    up to the number of records, whatever the titles of the sheet. *)
Theorem pipeline_band_counts_sum (S : sort_values)
    (kanji2number : ustring -> pyresult Z) (df : list record) :
  (forall tok m, kanji2number tok = Ok m -> 0 <= m) ->
  sum (map snd (age_band_counts
                  (aggregate_statistics S
                     (statistics_input (df_with_age (filter_and_enrich kanji2number df))))))
  = total_count
      (aggregate_statistics S
         (statistics_input (df_with_age (filter_and_enrich kanji2number df)))).
Proof.
  intros Hk. unfold aggregate_statistics. cbv zeta. cbn [age_band_counts total_count].
  apply age_groups_sum, pipeline_ages_natural, Hk.
Qed.

Lemma pipeline_band_counts_sum_witness :
  sum (map snd (age_band_counts
                  (aggregate_statistics stable
                     (statistics_input
                        (df_with_age (filter_and_enrich NumeralParser.parse sample_df))))))
  = total_count
      (aggregate_statistics stable
         (statistics_input (df_with_age (filter_and_enrich NumeralParser.parse sample_df)))).
Proof.
  exact (pipeline_band_counts_sum stable NumeralParser.parse sample_df
           numeral_parse_natural).
Defined.

(** C6: on an empty batch the summary is the zero summary: no record,
    mean, median, minimum and maximum [0], no top age, no peak, every
    band empty.  In the dictionary the two peak keys are missing. *)
Theorem aggregate_statistics_empty (S : sort_values) :
  aggregate_statistics S {| ages := []; decades := None |}
  = {| total_count := 0; mean_age := NInt 0; min_age := 0; max_age := 0;
       median_age := NInt 0; top_ages := []; peak := None; decade_counts := None;
       age_band_counts := map (fun band => (fst (fst band), 0)) band_table |}
  /\ aggregate_statistics S {| ages := []; decades := Some [] |}
     = {| total_count := 0; mean_age := NInt 0; min_age := 0; max_age := 0;
          median_age := NInt 0; top_ages := []; peak := None; decade_counts := Some [];
          age_band_counts := map (fun band => (fst (fst band), 0)) band_table |}
  /\ get_peak_age (as_dict (aggregate_statistics S {| ages := []; decades := None |}))
     = None
  /\ get_peak_count (as_dict (aggregate_statistics S {| ages := []; decades := None |}))
     = None.
Proof.
  unfold aggregate_statistics, as_dict, value_counts. cbv zeta.
  cbn [ages decades dropna tally fold_left length Z.of_nat peak].
  rewrite !sort_desc_nil. repeat split; reflexivity.
Qed.

(** ** Age zero *)

Lemma zero_marker_eq : zero_marker = [48] ++ marker.
Proof. reflexivity. Qed.

Lemma digit_form_nonneg (kanji2number : ustring -> pyresult Z)
    (title : pyvalue) (s tok : ustring) (n : Z) :
  str title = Ok s -> search_token is_decimal s = Some tok ->
  extract_age kanji2number title = Some n -> 0 <= n.
Proof.
  intros Hs Hd H. unfold extract_age in H.
  destruct (missing title) eqn:Hm; [discriminate|].
  fold (extract_age kanji2number title) in H.
  assert (E := extract_age_digit_form kanji2number title s tok Hm Hs Hd).
  unfold extract_age in E. rewrite Hm in E. rewrite E in H.
  destruct (int_max_str_digits <? Z.of_nat (length tok)); [discriminate|].
  injection H as <-. apply digits_value_nonneg.
Qed.

Lemma is_kara_pattern_digit_form (s found : ustring) :
  s <> [] -> search_token is_decimal s = Some found -> is_kara_pattern (PyStr s) = true.
Proof.
  intros Hne Hfound. unfold is_kara_pattern, is_kara_pattern_try.
  rewrite (missing_PyStr s Hne). unfold PyStr. cbn [str bind]. now rewrite Hfound.
Qed.

(** C10, amended: the title 0歳からの matches the pattern and its age is
    0.  Every title containing 0歳からの matches; its age is 0 when that
    occurrence is the first digit form of the title and the 0 is a token
    of its own, not the end of a longer number.  Ages extracted from a
    digit form are never negative, and a record of age 0 is counted in
    the band 0-9歳. *)
Theorem zero_age_title (kanji2number : ustring -> pyresult Z) :
  (is_kara_pattern (PyStr zero_marker) = true
   /\ extract_age kanji2number (PyStr zero_marker) = Some 0)
  /\ (forall pre post, is_kara_pattern (PyStr (pre ++ zero_marker ++ post)) = true)
  /\ (forall pre post,
        search_token is_decimal pre = None -> ends_with_class is_decimal pre = false ->
        extract_age kanji2number (PyStr (pre ++ zero_marker ++ post)) = Some 0)
  /\ (forall title s tok n,
        str title = Ok s -> search_token is_decimal s = Some tok ->
        extract_age kanji2number title = Some n -> 0 <= n)
  /\ (forall (S : sort_values) before after dec,
        hd_error (age_band_counts
                    (aggregate_statistics S
                       {| ages := before ++ Some 0 :: after; decades := dec |}))
        = Some (u"0-9歳",
                1 + count_where (fun a => (0 <=? a) && (a <? 10)) (before ++ after))).
Proof.
  assert (Hzero : forall pre post,
             search_token is_decimal pre = None -> ends_with_class is_decimal pre = false ->
             extract_age kanji2number (PyStr (pre ++ zero_marker ++ post)) = Some 0).
  { intros pre post Hpre Hend. rewrite zero_marker_eq, <- !app_assoc.
    now rewrite extract_age_digit_token. }
  repeat apply conj.
  - reflexivity.
  - exact (Hzero [] [] eq_refl eq_refl).
  - intros pre post. rewrite zero_marker_eq, <- !app_assoc.
    destruct (search_token_some is_decimal marker_not_decimal pre [48] post
                ltac:(discriminate) eq_refl) as [found Hfound].
    apply (is_kara_pattern_digit_form _ found); [|exact Hfound].
    apply app_token_nonempty. discriminate.
  - exact Hzero.
  - apply digit_form_nonneg.
  - intros S before after dec. unfold aggregate_statistics. cbv zeta.
    cbn [age_band_counts ages age_groups hd_error].
    rewrite !count_where_app, count_where_some. cbn [Z.leb Z.ltb Z.compare andb Z.b2z].
    do 2 f_equal. lia.
Qed.

Lemma zero_age_title_witness :
  extract_age NumeralParser.parse (PyStr (u"はじめての0歳からの絵本")) = Some 0
  /\ 0 <= 0.
Proof.
  split.
  - pose proof (proj1 (proj2 (proj2 (zero_age_title NumeralParser.parse)))
                  (u"はじめての") (u"絵本") eq_refl eq_refl) as W.
    vm_compute in W. vm_compute. exact W.
  - exact (proj1 (proj2 (proj2 (proj2 (zero_age_title NumeralParser.parse))))
             (PyStr zero_marker) zero_marker [48] 0 eq_refl eq_refl eq_refl).
Defined.

(** C10 fails as stated: the title contains 0歳からの and its age is 10. *)
Lemma ten_contains_zero_marker :
  contains zero_marker (u"10歳からの") = true
  /\ is_kara_pattern (PyStr (u"10歳からの")) = true
  /\ extract_age NumeralParser.parse (PyStr (u"10歳からの")) = Some 10.
Proof. vm_compute. repeat split; reflexivity. Qed.

(** ** The prompt *)

Lemma bind_Ok {A B} (r : pyresult A) (f : A -> pyresult B) (b : B) :
  bind r f = Ok b -> exists a, r = Ok a /\ f a = Ok b.
Proof. destruct r as [a|msg]; cbn [bind]; [now exists a | discriminate]. Qed.

Lemma join_contains (sep line : ustring) (lines : list ustring) :
  In line lines -> contains line (join sep lines) = true.
Proof.
  induction lines as [|l lines IH]; intros Hin; [destruct Hin|].
  destruct lines as [|l' lines].
  - destruct Hin as [->|[]]. cbn [join].
    rewrite <- (app_nil_r line) at 2. apply (contains_app line [] []).
  - change (join sep (l :: l' :: lines)) with (l ++ sep ++ join sep (l' :: lines)).
    destruct Hin as [->|Hin].
    + apply (contains_app line []).
    + specialize (IH Hin).
      apply (contains_trans _ _ _ IH).
      rewrite app_assoc. rewrite <- (app_nil_r (join sep (l' :: lines))) at 2.
      apply contains_app.
Qed.

Lemma item_lines_In (mid : ustring) (items : list (atom * atom)) (lines : list ustring)
    (k v : atom) (ks vs : ustring) :
  item_lines mid items = Ok lines -> In (k, v) items ->
  py_str k = Ok ks -> py_str v = Ok vs ->
  In (u"- " ++ ks ++ mid ++ vs ++ u"冊") lines.
Proof.
  revert lines; induction items as [|[k' v'] items IH]; intros lines H Hin Hk Hv;
    [destruct Hin|].
  cbn [item_lines] in H.
  apply bind_Ok in H as (ks' & Hk' & H).
  apply bind_Ok in H as (vs' & Hv' & H).
  apply bind_Ok in H as (rest & Hrest & H).
  injection H as <-.
  destruct Hin as [[= -> ->]|Hin].
  - left. rewrite Hk in Hk'. rewrite Hv in Hv'.
    injection Hk' as <-. injection Hv' as <-. reflexivity.
  - right. now apply IH.
Qed.

Lemma item_lines_renders (mid : ustring) (items : list (atom * atom)) :
  renders (item_lines mid items) = renderable_items items.
Proof.
  induction items as [|[k v] items IH]; [reflexivity|].
  cbn [item_lines renderable_items forallb fst snd].
  destruct (py_str k); cbn [bind renders andb]; [|reflexivity].
  destruct (py_str v); cbn [bind renders andb]; [|reflexivity].
  fold (renderable_items items). rewrite <- IH.
  now destruct (item_lines mid items).
Qed.

Lemma prompt_pieces_Ok (stats : stats_dict) (writing_style user_insights : ustring)
    (pieces : list ustring) :
  prompt_pieces stats writing_style user_insights = Ok pieces ->
  exists total mean_s min_s max_s median_s peak_age peak_count top bands decades,
    py_str (get (get_total stats) (AInt 0)) = Ok total
    /\ py_format_1f (get (get_mean stats) (NInt 0)) = Ok mean_s
    /\ py_str (get (get_min stats) (AInt 0)) = Ok min_s
    /\ py_str (get (get_max stats) (AInt 0)) = Ok max_s
    /\ py_format_1f (get (get_median stats) (NInt 0)) = Ok median_s
    /\ py_str (get (get_peak_age stats) (AStr (u"N/A"))) = Ok peak_age
    /\ py_str (get (get_peak_count stats) (AInt 0)) = Ok peak_count
    /\ item_lines (u"歳: ") (get (get_top stats) []) = Ok top
    /\ item_lines (u": ") (get (get_bands stats) []) = Ok bands
    /\ match get_decades stats with
       | Some ((_ :: _) as items) =>
           exists lines, item_lines (u": ") items = Ok lines /\ decades = join [10] lines
       | _ => decades = u"データなし"
       end
    /\ pieces
       = [ prompt_intro;
           u"- 総書籍数: " ++ total ++ u"冊"; [10];
           u"- 平均対象年齢: " ++ mean_s ++ u"歳"; [10];
           u"- 最小年齢: " ++ min_s ++ u"歳"; [10];
           u"- 最大年齢: " ++ max_s ++ u"歳"; [10];
           u"- 中央値年齢: " ++ median_s ++ u"歳"; [10];
           u"- ピーク年齢: " ++ peak_age ++ u"歳（書籍数: " ++ peak_count ++ u"冊）";
           prompt_top_header; join [10] top;
           prompt_bands_header; join [10] bands;
           prompt_decades_header; decades;
           user_insights_section user_insights; prompt_outline;
           style_instruction writing_style ].
Proof.
  unfold prompt_pieces. intros H.
  apply bind_Ok in H as (total & H1 & H).
  apply bind_Ok in H as (mean_s & H2 & H).
  apply bind_Ok in H as (min_s & H3 & H).
  apply bind_Ok in H as (max_s & H4 & H).
  apply bind_Ok in H as (median_s & H5 & H).
  apply bind_Ok in H as (peak_age & H6 & H).
  apply bind_Ok in H as (peak_count & H7 & H).
  apply bind_Ok in H as (top & H8 & H).
  apply bind_Ok in H as (bands & H9 & H).
  apply bind_Ok in H as (decades & H10 & H).
  injection H as <-.
  exists total, mean_s, min_s, max_s, median_s, peak_age, peak_count, top, bands, decades.
  repeat (split; [assumption|]).
  split; [|reflexivity].
  destruct (get_decades stats) as [[|kv items]|].
  - now injection H10.
  - apply bind_Ok in H10 as (lines & Hl & H10). injection H10 as <-. now exists lines.
  - now injection H10.
Qed.

Lemma contains_nth (pieces : list ustring) (i : nat) (piece line : ustring) :
  nth_error pieces i = Some piece -> contains line piece = true ->
  contains line (concat pieces) = true.
Proof.
  intros Hi Hl. apply (contains_trans _ _ _ Hl).
  apply contains_piece. exact (nth_error_In _ _ Hi).
Qed.

Lemma contains_refl (s : ustring) : contains s s = true.
Proof.
  rewrite <- (app_nil_r s) at 2. apply (contains_app s [] []).
Qed.

Lemma contains_suffix (pre s : ustring) : contains s (pre ++ s) = true.
Proof.
  rewrite <- (app_nil_r s) at 2. apply contains_app.
Qed.

(** Two or three consecutive pieces stand side by side in the text. *)
Lemma contains_run3 (pieces : list ustring) (i : nat) (a b c : ustring) :
  nth_error pieces i = Some a -> nth_error pieces (S i) = Some b ->
  nth_error pieces (S (S i)) = Some c ->
  contains (a ++ b ++ c) (concat pieces) = true.
Proof.
  revert pieces; induction i as [|i IH]; intros pieces Ha Hb Hc.
  - destruct pieces as [|x [|y [|z rest]]]; try discriminate.
    injection Ha as ->. injection Hb as ->. injection Hc as ->.
    cbn [concat]. rewrite !app_assoc. rewrite <- !app_assoc.
    replace (a ++ b ++ c ++ concat rest) with ((a ++ b ++ c) ++ concat rest)
      by (now rewrite <- !app_assoc).
    apply (contains_app _ []).
  - destruct pieces as [|x rest]; [discriminate|].
    cbn [concat]. apply (contains_trans _ _ _ (IH rest Ha Hb Hc)).
    apply contains_suffix.
Qed.

Lemma contains_run2 (pieces : list ustring) (i : nat) (a b : ustring) :
  nth_error pieces i = Some a -> nth_error pieces (S i) = Some b ->
  contains (a ++ b) (concat pieces) = true.
Proof.
  revert pieces; induction i as [|i IH]; intros pieces Ha Hb.
  - destruct pieces as [|x [|y rest]]; try discriminate.
    injection Ha as ->. injection Hb as ->.
    cbn [concat]. rewrite app_assoc. apply (contains_app _ []).
  - destruct pieces as [|x rest]; [discriminate|].
    cbn [concat]. apply (contains_trans _ _ _ (IH rest Ha Hb)).
    apply contains_suffix.
Qed.

Lemma rendering_unique {A} (r : pyresult A) (a b : A) : r = Ok a -> r = Ok b -> a = b.
Proof. congruence. Qed.

Lemma contains_peak_age (a p b c d : ustring) :
  contains (a ++ p ++ b) (a ++ p ++ b ++ c ++ d) = true.
Proof.
  replace (a ++ p ++ b ++ c ++ d) with ((a ++ p ++ b) ++ c ++ d)
    by (now rewrite <- !app_assoc).
  apply (contains_app _ []).
Qed.

Lemma contains_peak_count (a p b c d : ustring) :
  contains (b ++ c ++ d) (a ++ p ++ b ++ c ++ d) = true.
Proof.
  replace (a ++ p ++ b ++ c ++ d) with ((a ++ p) ++ (b ++ c ++ d) ++ [])
    by (now rewrite app_nil_r, <- !app_assoc).
  apply contains_app.
Qed.

Lemma build_prompt_renders (stats : stats_dict) (writing_style user_insights : ustring) :
  renders (build_prompt stats writing_style user_insights) = renderable stats.
Proof.
  unfold build_prompt, prompt_pieces, renderable.
  destruct (py_str (get (get_total stats) (AInt 0))); cbn [bind renders andb];
    [|reflexivity].
  destruct (py_format_1f (get (get_mean stats) (NInt 0))); cbn [bind renders andb];
    [|reflexivity].
  destruct (py_str (get (get_min stats) (AInt 0))); cbn [bind renders andb];
    [|reflexivity].
  destruct (py_str (get (get_max stats) (AInt 0))); cbn [bind renders andb];
    [|reflexivity].
  destruct (py_format_1f (get (get_median stats) (NInt 0))); cbn [bind renders andb];
    [|reflexivity].
  destruct (py_str (get (get_peak_age stats) (AStr (u"N/A")))); cbn [bind renders andb];
    [|reflexivity].
  destruct (py_str (get (get_peak_count stats) (AInt 0))); cbn [bind renders andb];
    [|reflexivity].
  rewrite <- (item_lines_renders (u"歳: ") (get (get_top stats) [])).
  destruct (item_lines (u"歳: ") (get (get_top stats) [])); cbn [bind renders andb];
    [|reflexivity].
  rewrite <- (item_lines_renders (u": ") (get (get_bands stats) [])).
  destruct (item_lines (u": ") (get (get_bands stats) [])); cbn [bind renders andb];
    [|reflexivity].
  destruct (get_decades stats) as [[|kv items]|]; cbn [get bind renders];
    try reflexivity.
  rewrite <- (item_lines_renders (u": ") (kv :: items)).
  now destruct (item_lines (u": ") (kv :: items)).
Qed.

(** C8, amended: the prompt is built exactly when every value it prints
    can be printed; it then contains the line of every value present in
    the dictionary, and for each missing key the line of its default
    ([0], [0.0], [N/A] for the peak age, an empty block for a table,
    データなし for the decades).  When a value cannot be printed,
    [generate_article_with_gemini] returns the error text of the exception
    and sends nothing. *)
Theorem build_prompt_fields (stats : stats_dict) (writing_style user_insights : ustring) :
  ((exists prompt, build_prompt stats writing_style user_insights = Ok prompt)
   <-> renderable stats = true)
  /\ (forall prompt line,
        build_prompt stats writing_style user_insights = Ok prompt ->
        shown stats line \/ fallback stats line ->
        contains line prompt = true)
  /\ (forall env key msg,
        api_key env = Some key -> key <> [] ->
        build_prompt stats writing_style user_insights = Exc msg ->
        generate_article_with_gemini env stats writing_style user_insights
        = {| article := None; error := Some (error_prefix ++ msg); requests := [] |}).
Proof.
  split; [|split].
  - rewrite <- (build_prompt_renders stats writing_style user_insights). split.
    + intros [prompt ->]. reflexivity.
    + destruct (build_prompt stats writing_style user_insights) as [prompt|];
        [now exists prompt | discriminate].
  - intros prompt line Hp Hline. unfold build_prompt in Hp.
    apply bind_Ok in Hp as (pieces & Hpieces & Hp). injection Hp as <-.
    apply prompt_pieces_Ok in Hpieces
      as (total & mean_s & min_s & max_s & median_s & peak_age & peak_count & top
          & bands & decades & H1 & H2 & H3 & H4 & H5 & H6 & H7 & H8 & H9 & H10 & ->).
    destruct Hline as [Hs | Hf]; [destruct Hs as
      [v s G R | v s G R | v s G R | v s G R | v s G R | v s G R | v s G R
       | items k v ks vs G Hin Rk Rv | items k v ks vs G Hin Rk Rv
       | items k v ks vs G Hin Rk Rv]
      | destruct Hf as [G | G | G | G | G | G | G | G | G | G]];
      rewrite ?G in *; cbn [get] in *.
    + rewrite (rendering_unique _ _ _ R H1).
      eapply (contains_nth _ 1); [reflexivity | apply contains_refl].
    + rewrite (rendering_unique _ _ _ R H2).
      eapply (contains_nth _ 3); [reflexivity | apply contains_refl].
    + rewrite (rendering_unique _ _ _ R H3).
      eapply (contains_nth _ 5); [reflexivity | apply contains_refl].
    + rewrite (rendering_unique _ _ _ R H4).
      eapply (contains_nth _ 7); [reflexivity | apply contains_refl].
    + rewrite (rendering_unique _ _ _ R H5).
      eapply (contains_nth _ 9); [reflexivity | apply contains_refl].
    + rewrite (rendering_unique _ _ _ R H6).
      eapply (contains_nth _ 11); [reflexivity | apply contains_peak_age].
    + rewrite (rendering_unique _ _ _ R H7).
      eapply (contains_nth _ 11); [reflexivity | apply contains_peak_count].
    + eapply (contains_nth _ 13); [reflexivity | apply join_contains].
      exact (item_lines_In _ _ _ _ _ _ _ H8 Hin Rk Rv).
    + eapply (contains_nth _ 15); [reflexivity | apply join_contains].
      exact (item_lines_In _ _ _ _ _ _ _ H9 Hin Rk Rv).
    + destruct items as [|kv items]; [destruct Hin|].
      destruct H10 as (lines & Hlines & ->).
      eapply (contains_nth _ 17); [reflexivity | apply join_contains].
      exact (item_lines_In _ _ _ _ _ _ _ Hlines Hin Rk Rv).
    + injection H1 as <-. eapply (contains_nth _ 1); [reflexivity | apply contains_refl].
    + injection H2 as <-. eapply (contains_nth _ 3); [reflexivity | apply contains_refl].
    + injection H3 as <-. eapply (contains_nth _ 5); [reflexivity | apply contains_refl].
    + injection H4 as <-. eapply (contains_nth _ 7); [reflexivity | apply contains_refl].
    + injection H5 as <-. eapply (contains_nth _ 9); [reflexivity | apply contains_refl].
    + injection H6 as <-. eapply (contains_nth _ 11); [reflexivity | apply contains_peak_age].
    + injection H7 as <-.
      eapply (contains_nth _ 11); [reflexivity | apply (contains_peak_count _ _ _ (u"0"))].
    + injection H8 as <-. apply (contains_run3 _ 12); reflexivity.
    + injection H9 as <-. apply (contains_run3 _ 14); reflexivity.
    + assert (E : decades = u"データなし") by (destruct G as [G | G]; now rewrite G in H10).
      rewrite E. apply (contains_run2 _ 16); reflexivity.
  - intros env key msg Hkey Hne He. unfold generate_article_with_gemini.
    rewrite Hkey, He. destruct key; [congruence | reflexivity].
Qed.

Lemma build_prompt_fields_witness :
  exists prompt,
    build_prompt (as_dict (aggregate_statistics stable sample_frame)) (u"標準的") []
    = Ok prompt
    /\ contains (u"- 平均対象年齢: " ++ u"15.2" ++ u"歳") prompt = true
    /\ contains (u"- 13" ++ u"歳: " ++ u"2" ++ u"冊") prompt = true
    /\ contains (prompt_decades_header ++ u"データなし") prompt = true.
Proof.
  pose proof (build_prompt_fields (as_dict (aggregate_statistics stable sample_frame))
                (u"標準的") []) as (Hbuilt & Hlines & _).
  destruct (proj2 Hbuilt) as [prompt Hp]; [vm_compute; reflexivity|].
  exists prompt. split; [exact Hp|]. split; [|split]; apply (Hlines prompt _ Hp).
  - left. apply shown_mean with (v := NFloat 15.25%float); vm_compute; reflexivity.
  - left. apply shown_top with (items := int_items [(13, 2); (15, 1); (20, 1)])
                               (k := AInt 13) (v := AInt 2);
      vm_compute; auto.
  - right. apply fallback_decades. left. reflexivity.
Defined.

(** C8 fails as stated: a missing peak age is printed as N/A, not as a
    zero, and with a malformed mean no prompt is built. *)
Lemma prompt_fallback_not_zero :
  (exists prompt,
      build_prompt no_stats (u"標準的") [] = Ok prompt
      /\ contains (u"- ピーク年齢: N/A歳") prompt = true
      /\ contains (u"- ピーク年齢: 0歳") prompt = false)
  /\ build_prompt malformed_stats (u"標準的") []
     = Exc (u"Unknown format code 'f' for object of type 'str'").
Proof.
  split.
  - eexists. vm_compute. repeat split; reflexivity.
  - vm_compute. reflexivity.
Qed.

(** ** The generation call *)

Lemma error_prefix_changes (msg : ustring) : ustring_eqb (error_prefix ++ msg) msg = false.
Proof.
  unfold ustring_eqb. destruct (list_eq_dec Z.eq_dec (error_prefix ++ msg) msg) as [E|];
    [|reflexivity].
  assert (H : length (error_prefix ++ msg) = (19 + length msg)%nat)
    by apply (@length_app Z).
  rewrite E in H. exfalso. lia.
Qed.

(** C9, amended: when the generation call raises, the function returns
    no article and an error text made of a fixed prefix followed by the
    message of the exception, unchanged; it sends at most one request,
    whatever happens. *)
Theorem generation_error_prefixed :
  (forall (env : environment) (stats : stats_dict) (writing_style user_insights : ustring)
          (key prompt msg : ustring),
      api_key env = Some key -> key <> [] ->
      build_prompt stats writing_style user_insights = Ok prompt ->
      generate_content env 0%nat prompt = Exc msg ->
      generate_article_with_gemini env stats writing_style user_insights
      = {| article := None; error := Some (error_prefix ++ msg); requests := [prompt] |})
  /\ (forall (env : environment) (stats : stats_dict)
             (writing_style user_insights : ustring),
        (length (requests (generate_article_with_gemini env stats writing_style
                             user_insights)) <= 1)%nat)
  /\ (forall msg, ustring_eqb (error_prefix ++ msg) msg = false).
Proof.
  split; [|split].
  - intros env stats ws ui key prompt msg Hkey Hne Hp Hg.
    unfold generate_article_with_gemini. rewrite Hkey, Hp, Hg.
    destruct key; [congruence | reflexivity].
  - intros env stats ws ui. unfold generate_article_with_gemini.
    destruct (api_key env) as [[|c key]|]; cbn [requests length]; try lia.
    destruct (build_prompt stats ws ui) as [prompt|]; cbn [requests length]; try lia.
    destruct (generate_content env 0%nat prompt); cbn [requests length]; lia.
  - exact error_prefix_changes.
Qed.

Lemma generation_error_prefixed_witness :
  exists prompt,
    generate_article_with_gemini failing_service no_stats (u"標準的") []
    = {| article := None;
         error := Some (error_prefix ++ u"429 quota exceeded");
         requests := [prompt] |}.
Proof.
  destruct (build_prompt no_stats (u"標準的") []) as [prompt|msg] eqn:Hp;
    [|vm_compute in Hp; discriminate].
  exists prompt.
  apply (proj1 generation_error_prefixed failing_service no_stats (u"標準的") []
           (u"key") prompt (u"429 quota exceeded") eq_refl);
    [discriminate | exact Hp | reflexivity].
Defined.

(** C9 fails as stated: the error text returned is not the message of
    the service. *)
Lemma generation_error_not_verbatim :
  error (generate_article_with_gemini failing_service no_stats (u"標準的") [])
  = Some (u"記事の生成中にエラーが発生しました: 429 quota exceeded")
  /\ ustring_eqb (u"記事の生成中にエラーが発生しました: 429 quota exceeded")
       (u"429 quota exceeded") = false.
Proof. vm_compute. split; reflexivity. Qed.

Lemma kara_pattern_iff_age_or_fault_witness :
  is_kara_pattern (PyStr (u"13歳からの哲学")) = true
  /\ (is_kara_pattern overlong_title = true
      /\ extract_age NumeralParser.parse overlong_title = None)
  /\ (is_kara_pattern PyNaN = false /\ extract_age NumeralParser.parse PyNaN = None).
Proof.
  split; [|split].
  - apply (proj1 (kara_pattern_iff_age_or_fault NumeralParser.parse
                    (PyStr (u"13歳からの哲学")))).
    left. exists 13. vm_compute. reflexivity.
  - apply (proj1 (proj2 (kara_pattern_iff_age_or_fault NumeralParser.parse
                           overlong_title))).
    split; [reflexivity|]. exists (repeat 49 4301 ++ marker). split; [reflexivity|].
    left. exists (repeat 49 4301). split; vm_compute; reflexivity.
  - apply (proj2 (proj2 (kara_pattern_iff_age_or_fault NumeralParser.parse PyNaN))).
    reflexivity.
Defined.

(** ** Ties under a stable sort *)

Lemma first_index_in (a : Z) (p r : list Z) :
  In a p -> first_index a (p ++ r) = first_index a p.
Proof.
  induction p as [|b p IH]; intros H; [destruct H|].
  cbn [app first_index]. destruct (Z.eqb_spec a b) as [->|Hne]; [reflexivity|].
  destruct H as [->|H]; [congruence|]. now rewrite IH.
Qed.

Lemma first_index_lt (a : Z) (p : list Z) :
  In a p -> (first_index a p < length p)%nat.
Proof.
  induction p as [|b p IH]; intros H; [destruct H|].
  cbn [first_index length]. destruct (Z.eqb_spec a b) as [->|Hne]; [lia|].
  destruct H as [->|H]; [congruence|]. specialize (IH H). lia.
Qed.

Lemma first_index_out (a : Z) (p r : list Z) :
  ~ In a p -> first_index a (p ++ r) = (length p + first_index a r)%nat.
Proof.
  induction p as [|b p IH]; intros H; [reflexivity|].
  cbn [app first_index length]. destruct (Z.eqb_spec a b) as [->|Hne].
  - exfalso. apply H. now left.
  - rewrite IH; [lia|]. intros Hin. apply H. now right.
Qed.

Lemma StronglySorted_snoc {A} (R : A -> A -> Prop) (l : list A) (x : A) :
  StronglySorted R l -> Forall (fun y => R y x) l -> StronglySorted R (l ++ [x]).
Proof.
  induction 1 as [|y l Hs IH Hy]; intros Hx; cbn [app].
  - repeat constructor.
  - inversion Hx as [|? ? Hyx Hlx]; subst. constructor; [now apply IH|].
    apply Forall_app. split; [exact Hy | now constructor].
Qed.

Lemma StronglySorted_weaken {A} (R R' : A -> A -> Prop) (l : list A) :
  (forall a b, In a l -> In b l -> R a b -> R' a b) ->
  StronglySorted R l -> StronglySorted R' l.
Proof.
  intros H Hs. induction Hs as [|x l Hl IH Hx]; [constructor|].
  constructor.
  - apply IH. intros a b Ha Hb. apply H; now right.
  - rewrite Forall_forall in *. intros y Hy. apply H; [now left | now right | now apply Hx].
Qed.

Lemma tally_appearance_from (r p : list Z) (t : list (Z * Z)) :
  appearance p (map fst t) ->
  appearance (p ++ r) (map fst (fold_left (fun t a => bump Z.eqb a t) r t)).
Proof.
  revert p t; induction r as [|b r IH]; intros p t [Hin Hs]; cbn [fold_left].
  - rewrite app_nil_r. now split.
  - replace (p ++ b :: r) with ((p ++ [b]) ++ r) by (now rewrite <- app_assoc).
    apply IH. rewrite bump_keys.
    assert (Hs' : StronglySorted
                    (fun a c => (first_index a (p ++ [b]) < first_index c (p ++ [b]))%nat)
                    (map fst t)).
    { refine (StronglySorted_weaken _ _ _ _ Hs).
      intros a c Ha Hc H. apply Hin in Ha, Hc. now rewrite !first_index_in. }
    destruct (existsb (Z.eqb b) (map fst t)) eqn:E.
    + apply (existsb_eqb_In Z Z.eqb Z_eqb_spec) in E. apply Hin in E. split.
      * intros a. rewrite Hin, in_app_iff. cbn [In]. intuition congruence.
      * exact Hs'.
    + assert (Hb : ~ In b p).
      { intros Hb. apply Hin in Hb.
        apply (existsb_eqb_In Z Z.eqb Z_eqb_spec) in Hb. congruence. }
      split.
      * intros a. rewrite !in_app_iff, Hin. cbn [In]. intuition congruence.
      * apply StronglySorted_snoc; [exact Hs'|].
        apply Forall_forall. intros a Ha. apply Hin in Ha.
        rewrite (first_index_in a p [b] Ha), (first_index_out b p [b] Hb).
        pose proof (first_index_lt a p Ha). lia.
Qed.

Lemma tally_appearance (valid : list Z) :
  appearance valid (map fst (tally Z.eqb valid)).
Proof.
  apply (tally_appearance_from valid [] []). split.
  - intros a. reflexivity.
  - constructor.
Qed.

Lemma insert_before_ties {K} (R : K -> K -> Prop) (x : K * Z) (l : list (K * Z)) :
  Forall (fun y => snd x = snd y -> R (fst x) (fst y)) l ->
  tie_sorted R l -> tie_sorted R (insert_before x l).
Proof.
  unfold tie_sorted. intros Hx Hs. induction Hs as [|y l Hl IH Hy]; cbn [insert_before].
  - repeat constructor.
  - destruct (Z.leb_spec (snd y) (snd x)) as [Hle|Hlt].
    + constructor; [now constructor | exact Hx].
    + inversion Hx as [|? ? Hxy Hxl]; subst.
      constructor; [now apply IH|].
      apply (Permutation_Forall (insert_before_perm K x l)).
      constructor; [intros E; lia | exact Hy].
Qed.

(** A stable sort keeps entries with equal counts in their order. *)
Lemma stable_sort_desc_ties {K} (R : K -> K -> Prop) (l : list (K * Z)) :
  tie_sorted R l -> tie_sorted R (stable_sort_desc l).
Proof.
  unfold tie_sorted. induction 1 as [|x l Hl IH Hx]; [constructor|].
  cbn [stable_sort_desc fold_right]. apply insert_before_ties.
  - exact (Permutation_Forall (stable_sort_desc_perm K l) Hx).
  - exact IH.
Qed.

Lemma tie_sorted_of_keys {K} (R : K -> K -> Prop) (t : list (K * Z)) :
  StronglySorted R (map fst t) -> tie_sorted R t.
Proof.
  unfold tie_sorted. induction t as [|x t IH]; intros H; [constructor|].
  cbn [map] in H. inversion H as [|? ? Hs Hx]; subst.
  constructor; [now apply IH|].
  rewrite Forall_forall in *. intros y Hy _. apply Hx. now apply in_map.
Qed.

Lemma ties_in_encounter_order_spec (valid : list Z) (t : list (Z * Z)) :
  tie_sorted (fun a b => (first_index a valid < first_index b valid)%nat) t ->
  ties_in_encounter_order valid t = true.
Proof.
  unfold tie_sorted. induction 1 as [|x t Hs IH Hx]; [reflexivity|].
  cbn [ties_in_encounter_order]. rewrite IH, andb_true_r.
  apply forallb_forall. intros y Hy. rewrite Forall_forall in Hx.
  destruct (Z.eqb_spec (snd x) (snd y)) as [E|_]; [|reflexivity].
  cbn [negb orb]. apply Nat.ltb_lt. now apply Hx.
Qed.

(** With a stable sort the ages with equal counts come in the order of
    their first appearance in the batch. *)
Theorem stable_top_ages_encounter_order (df : frame) :
  ties_in_encounter_order (dropna (ages df)) (top_ages (aggregate_statistics stable df))
  = true.
Proof.
  set (R := fun a b : Z =>
              (first_index a (dropna (ages df)) < first_index b (dropna (ages df)))%nat).
  assert (H : tie_sorted R (age_counts stable df)).
  { unfold age_counts, value_counts. cbn [sort_desc stable].
    apply (stable_sort_desc_ties R), (stable_sort_desc_ties R), tie_sorted_of_keys.
    apply tally_appearance. }
  apply ties_in_encounter_order_spec. rewrite top_ages_eq.
  exact (StronglySorted_firstn _ 10 _ H).
Qed.

(** * Further properties *)

(** ** What the pattern matches *)

Lemma is_kara_pattern_search (title : pyvalue) :
  is_kara_pattern title = true <->
  missing title = false /\
  exists s, str title = Ok s /\
    ((exists tok, search_token is_decimal s = Some tok)
     \/ (exists tok, search_token is_kanji_numeral s = Some tok)).
Proof.
  unfold is_kara_pattern, is_kara_pattern_try.
  destruct (missing title); [split; [discriminate | intros [H _]; discriminate]|].
  destruct (str title) as [s|msg]; cbn [bind].
  - destruct (search_token is_decimal s) as [tok|] eqn:Ed.
    + split; [|reflexivity]. intros _. split; [reflexivity|].
      exists s. split; [reflexivity|]. left. now exists tok.
    + destruct (search_token is_kanji_numeral s) as [tok|] eqn:Ek.
      * split; [|reflexivity]. intros _. split; [reflexivity|].
        exists s. split; [reflexivity|]. right. now exists tok.
      * split; [discriminate|]. intros (_ & s' & [= <-] & [[tok H]|[tok H]]); congruence.
  - split; [discriminate|]. intros (_ & s' & H & _). discriminate.
Qed.

Lemma token_last (cls : codepoint -> bool) (tok : ustring) :
  tok <> [] -> forallb cls tok = true ->
  exists tok' c, tok = tok' ++ [c] /\ cls c = true.
Proof.
  intros Hne Hall. destruct (exists_last Hne) as (tok' & c & ->).
  exists tok', c. split; [reflexivity|].
  rewrite forallb_app in Hall. apply andb_true_iff in Hall as [_ Hc].
  cbn in Hc. now rewrite andb_true_r in Hc.
Qed.

Lemma search_token_substring (cls : codepoint -> bool) (s : ustring) :
  forallb (fun c => negb (cls c)) marker = true ->
  (exists tok, search_token cls s = Some tok) <->
  (exists pre c post, s = pre ++ c :: marker ++ post /\ cls c = true).
Proof.
  intros Hm. split.
  - intros [tok H]. apply search_token_sound in H as (Hne & Hall & pre & post & ->).
    destruct (token_last cls tok Hne Hall) as (tok' & c & -> & Hc).
    exists (pre ++ tok'), c, post. split; [|exact Hc].
    now rewrite <- !app_assoc.
  - intros (pre & c & post & -> & Hc).
    apply (search_token_some cls Hm pre [c] post); [discriminate|].
    cbn. now rewrite Hc.
Qed.

(** A cell matches the pattern exactly when it is not missing and its
    text holds a decimal digit or a kanji numeral immediately followed by
    歳からの. *)
Theorem is_kara_pattern_substring (title : pyvalue) :
  is_kara_pattern title = true <->
  missing title = false /\
  exists s pre c post,
    str title = Ok s /\ s = pre ++ c :: marker ++ post /\ age_character c = true.
Proof.
  rewrite is_kara_pattern_search. split.
  - intros (Hm & s & Hs & H). split; [exact Hm|].
    destruct H as [H|H].
    + apply (search_token_substring _ _ marker_not_decimal) in H
        as (pre & c & post & -> & Hc).
      exists (pre ++ c :: marker ++ post), pre, c, post. repeat split; [exact Hs|].
      unfold age_character. now rewrite Hc.
    + apply (search_token_substring _ _ marker_not_kanji_numeral) in H
        as (pre & c & post & -> & Hc).
      exists (pre ++ c :: marker ++ post), pre, c, post. repeat split; [exact Hs|].
      unfold age_character. rewrite Hc. apply orb_true_r.
  - intros (Hm & s & pre & c & post & Hs & -> & Hc). split; [exact Hm|].
    exists (pre ++ c :: marker ++ post). split; [exact Hs|].
    unfold age_character in Hc. apply orb_true_iff in Hc as [Hc|Hc].
    + left. apply (search_token_substring _ _ marker_not_decimal). now exists pre, c, post.
    + right. apply (search_token_substring _ _ marker_not_kanji_numeral).
      now exists pre, c, post.
Qed.

(** ** Digits of other scripts *)

Lemma Nd_zeros_digits :
  forallb (fun z => forallb (fun d => match decimal (z + d) with
                                      | Some d' => d' =? d
                                      | None => false
                                      end)
                      [0; 1; 2; 3; 4; 5; 6; 7; 8; 9]) Nd_zeros = true.
Proof. vm_compute. reflexivity. Qed.

Lemma decimal_in_script (zero d : Z) :
  In zero Nd_zeros -> 0 <= d <= 9 -> decimal (zero + d) = Some d.
Proof.
  intros Hz Hd. pose proof Nd_zeros_digits as H.
  rewrite forallb_forall in H. specialize (H zero Hz).
  rewrite forallb_forall in H.
  assert (Hin : In d [0; 1; 2; 3; 4; 5; 6; 7; 8; 9]).
  { cbn. lia. }
  specialize (H d Hin). destruct (decimal (zero + d)) as [d'|]; [|discriminate].
  apply Z.eqb_eq in H. now subst.
Qed.

Lemma fold_digits_in_script (zero : codepoint) (ds : list Z) (n : Z) :
  In zero Nd_zeros -> Forall (fun d => 0 <= d <= 9) ds ->
  fold_left (fun n c => 10 * n + match decimal c with Some d => d | None => 0 end)
    (in_script zero ds) n
  = fold_left (fun n d => 10 * n + d) ds n.
Proof.
  intros Hz Hds. revert n. induction Hds as [|d ds Hd _ IH]; intros n; [reflexivity|].
  cbn [in_script map fold_left]. rewrite (decimal_in_script zero d Hz Hd). apply IH.
Qed.

Lemma in_script_digits (zero : codepoint) (ds : list Z) :
  In zero Nd_zeros -> Forall (fun d => 0 <= d <= 9) ds ->
  forallb is_decimal (in_script zero ds) = true.
Proof.
  intros Hz Hds. induction Hds as [|d ds Hd _ IH]; [reflexivity|].
  cbn [in_script map forallb]. unfold is_decimal at 1.
  rewrite (decimal_in_script zero d Hz Hd). exact IH.
Qed.

(** The digits of every script are read alike: a number written in the
    digits of one script before 歳からの is the age, whatever the script
    (１３歳からの gives 13). *)
Theorem extract_age_any_script (kanji2number : ustring -> pyresult Z)
    (zero : codepoint) (ds : list Z) (pre post : ustring) :
  In zero Nd_zeros -> ds <> [] -> Forall (fun d => 0 <= d <= 9) ds ->
  Z.of_nat (length ds) <= int_max_str_digits ->
  search_token is_decimal pre = None -> ends_with_class is_decimal pre = false ->
  extract_age kanji2number (PyStr (pre ++ in_script zero ds ++ marker ++ post))
  = Some (of_digits ds).
Proof.
  intros Hz Hne Hds Hlen Hpre Hend.
  rewrite (extract_age_digit_token kanji2number pre (in_script zero ds) post Hpre Hend).
  - unfold digits_value, of_digits. now rewrite fold_digits_in_script.
  - unfold in_script. destruct ds; [congruence | discriminate].
  - now apply in_script_digits.
  - unfold in_script. now rewrite length_map.
Qed.

Lemma extract_age_any_script_witness :
  extract_age NumeralParser.parse (PyStr (u"はじめての１３歳からの哲学")) = Some 13.
Proof.
  pose proof (extract_age_any_script NumeralParser.parse 0xff10 [1; 3]
                (u"はじめての") (u"哲学")) as W.
  apply W.
  - vm_compute. tauto.
  - discriminate.
  - repeat constructor; lia.
  - vm_compute. discriminate.
  - vm_compute. reflexivity.
  - vm_compute. reflexivity.
Defined.

(** ** The rows that reach the charts and the statistics *)

Lemma has_age_kara (kanji2number : ustring -> pyresult Z) (r : record) :
  has_age kanji2number r = true -> is_kara_pattern (title r) = true.
Proof.
  unfold has_age. destruct (extract_age kanji2number (title r)) as [n|] eqn:E;
    [|discriminate].
  intros _. exact (extract_age_matches _ _ _ E).
Qed.

(** After the filter by pattern and the selection of the rows with an
    age, the frame holds the records whose title gives an age, each with
    that age, in the order of the sheet: the filter by pattern removes
    nothing that the selection would keep. *)
Theorem df_with_age_rows (kanji2number : ustring -> pyresult Z) (df : list record) :
  df_with_age (filter_and_enrich kanji2number df)
  = map (enrich kanji2number) (filter (has_age kanji2number) df).
Proof.
  unfold df_with_age, filter_and_enrich.
  induction df as [|r df IH]; [reflexivity|].
  cbn [filter]. destruct (has_age kanji2number r) eqn:Ha.
  - rewrite (has_age_kara _ _ Ha). cbn [map filter]. rewrite IH.
    unfold notna, enrich. cbn [target_age]. unfold has_age in Ha.
    now destruct (extract_age kanji2number (title r)).
  - destruct (is_kara_pattern (title r)); [|exact IH].
    cbn [map filter]. rewrite IH.
    unfold notna. cbn [target_age]. unfold has_age in Ha.
    now destruct (extract_age kanji2number (title r)).
Qed.

(** ** Conversions between int and str *)

Lemma fold_digits_bound (tok : ustring) (n : Z) :
  0 <= n ->
  fold_left (fun n c => 10 * n + match decimal c with Some d => d | None => 0 end) tok n
  < (n + 1) * 10 ^ Z.of_nat (length tok).
Proof.
  revert n. induction tok as [|c tok IH]; intros n Hn; cbn [fold_left length].
  - cbn. lia.
  - assert (Hd : 0 <= match decimal c with Some d => d | None => 0 end <= 9).
    { destruct (decimal c) as [d|] eqn:E; [exact (decimal_range _ _ E) | lia]. }
    set (d := match decimal c with Some d => d | None => 0 end) in *.
    assert (Hnd : 0 <= 10 * n + d) by lia.
    specialize (IH (10 * n + d) Hnd).
    rewrite Nat2Z.inj_succ, Z.pow_succ_r by lia.
    assert (0 < 10 ^ Z.of_nat (length tok)) by (apply Z.pow_pos_nonneg; lia).
    nia.
Qed.

Lemma digits_value_bound (tok : ustring) : digits_value tok < 10 ^ Z.of_nat (length tok).
Proof.
  pose proof (fold_digits_bound tok 0 (Z.le_refl 0)) as H. unfold digits_value. lia.
Qed.

Lemma str_nat_beyond_limit (n : Z) :
  10 ^ int_max_str_digits <= n ->
  int_max_str_digits < Z.of_nat (length (str_nat n)).
Proof.
  intros Hn.
  assert (H0 : 0 <= n).
  { assert (0 < 10 ^ int_max_str_digits) by (apply Z.pow_pos_nonneg; unfold int_max_str_digits; lia). lia. }
  pose proof (digits_value_bound (str_nat n)) as Hb.
  rewrite (digits_value_str_nat n H0) in Hb.
  destruct (Z.le_gt_cases (Z.of_nat (length (str_nat n))) int_max_str_digits) as [Hle|Hgt];
    [|lia].
  assert (10 ^ Z.of_nat (length (str_nat n)) <= 10 ^ int_max_str_digits).
  { apply Z.pow_le_mono_r; lia. }
  lia.
Qed.

(** For a natural number below 10^4300, [str] gives a string of decimal
    digits that is not empty and that [int] reads back as the number;
    from 10^4300 on, both conversions raise. *)
Theorem int_str_round_trip (n : Z) :
  0 <= n ->
  (n < 10 ^ int_max_str_digits ->
   py_str_int n = Ok (str_int n)
   /\ str_int n <> [] /\ forallb is_decimal (str_int n) = true
   /\ py_int (str_int n) = Ok n)
  /\ (10 ^ int_max_str_digits <= n ->
      (exists msg, py_str_int n = Exc msg) /\ (exists msg, py_int (str_int n) = Exc msg)).
Proof.
  intros Hn. rewrite (str_int_nonneg n Hn).
  unfold py_str_int. rewrite (Z.abs_eq n Hn), (str_int_nonneg n Hn). split.
  - intros Hlt. pose proof (str_nat_within_limit n (conj Hn Hlt)) as Hlen.
    destruct (str_nat_digits n Hn) as [Hdig Hne].
    destruct (Z.ltb_spec int_max_str_digits (Z.of_nat (length (str_nat n)))); [lia|].
    repeat split; try assumption.
    rewrite (py_int_ok _ Hlen). now rewrite digits_value_str_nat.
  - intros Hge. pose proof (str_nat_beyond_limit n Hge) as Hlen. split.
    + destruct (Z.ltb_spec int_max_str_digits (Z.of_nat (length (str_nat n)))); [|lia].
      eexists. reflexivity.
    + exact (py_int_overlong _ Hlen).
Qed.

Lemma int_str_round_trip_witness :
  py_str_int 1990 = Ok (u"1990") /\ py_int (u"1990") = Ok 1990.
Proof.
  assert (H0 : 0 <= 1990) by lia.
  assert (Hlt : 1990 < 10 ^ int_max_str_digits) by (vm_compute; reflexivity).
  destruct (int_str_round_trip 1990 H0) as [W _].
  destruct (W Hlt) as (W1 & _ & _ & W2).
  assert (Es : str_int 1990 = u"1990") by (vm_compute; reflexivity).
  rewrite Es in W1, W2. split; [exact W1 | exact W2].
Defined.

(** ** Counts *)

Lemma sum_app (l1 l2 : list Z) : sum (l1 ++ l2) = sum l1 + sum l2.
Proof. induction l1 as [|a l1 IH]; cbn [app sum fold_right] in *; [reflexivity|]. unfold sum in *. lia. Qed.

Lemma sum_perm (l1 l2 : list Z) : Permutation l1 l2 -> sum l1 = sum l2.
Proof.
  induction 1; unfold sum in *; cbn [fold_right]; lia.
Qed.

Lemma sum_counts_bump {K} (eqb : K -> K -> bool) (a : K) (t : list (K * Z)) :
  sum (map snd (bump eqb a t)) = sum (map snd t) + 1.
Proof.
  induction t as [|[b c] t IH]; [reflexivity|].
  cbn [bump]. destruct (eqb a b); cbn [map snd sum fold_right] in *; unfold sum in *; lia.
Qed.

Lemma sum_counts_tally_from {K} (eqb : K -> K -> bool) (l : list K) (t : list (K * Z)) :
  sum (map snd (fold_left (fun t a => bump eqb a t) l t))
  = sum (map snd t) + Z.of_nat (length l).
Proof.
  revert t. induction l as [|a l IH]; intros t; cbn [fold_left length].
  - lia.
  - rewrite IH, sum_counts_bump. lia.
Qed.

Lemma sum_counts_tally {K} (eqb : K -> K -> bool) (l : list K) :
  sum (map snd (tally eqb l)) = Z.of_nat (length l).
Proof. unfold tally. rewrite sum_counts_tally_from. reflexivity. Qed.

Lemma sum_counts_sort (S : sort_values) {K} (t : list (K * Z)) :
  sum (map snd (sort_desc S t)) = sum (map snd t).
Proof.
  symmetry. apply sum_perm, Permutation_map, sort_desc_perm.
Qed.

Lemma sum_counts_value_counts (S : sort_values) {K} (eqb : K -> K -> bool)
    (l : list (option K)) :
  sum (map snd (value_counts eqb S l)) = Z.of_nat (length (dropna l)).
Proof. unfold value_counts. now rewrite sum_counts_sort, sum_counts_tally. Qed.

Lemma value_counts_In (S : sort_values) {K} (eqb : K -> K -> bool)
    (eqb_spec : forall a b, eqb a b = true <-> a = b) (l : list (option K)) (a : K) (c : Z) :
  In (a, c) (value_counts eqb S l) <-> c = occurrences eqb a (dropna l) /\ 0 < c.
Proof.
  unfold value_counts. rewrite sort_desc_In.
  apply (proj2 (tally_spec eqb eqb_spec (dropna l))).
Qed.

Lemma value_counts_NoDup (S : sort_values) {K} (eqb : K -> K -> bool)
    (eqb_spec : forall a b, eqb a b = true <-> a = b) (l : list (option K)) :
  NoDup (map fst (value_counts eqb S l)).
Proof.
  unfold value_counts.
  apply (Permutation_NoDup (l := map fst (tally eqb (dropna l)))).
  - apply Permutation_map, sort_desc_perm.
  - apply (proj1 (tally_spec eqb eqb_spec (dropna l))).
Qed.

Lemma ustring_eqb_spec (a b : ustring) : ustring_eqb a b = true <-> a = b.
Proof.
  unfold ustring_eqb. destruct (list_eq_dec Z.eq_dec a b); split; congruence.
Qed.

(** ** The counts by decade *)

(** 年代別書籍数 is present exactly when the frame has the column 年代; it
    then has one entry for each decade of the column, with the number of
    its rows, in decreasing order of the counts, and the counts add up to
    the number of rows with a decade. *)
Theorem decade_counts_spec (S : sort_values) (df : frame) :
  match decades df with
  | None => decade_counts (aggregate_statistics S df) = None
  | Some col =>
      exists t,
        decade_counts (aggregate_statistics S df) = Some t
        /\ NoDup (map fst t)
        /\ StronglySorted desc t
        /\ (forall d c, In (d, c) t <-> c = occurrences ustring_eqb d (dropna col) /\ 0 < c)
        /\ sum (map snd t) = Z.of_nat (length (dropna col))
  end.
Proof.
  unfold aggregate_statistics. cbv zeta. cbn [decade_counts].
  destruct (decades df) as [col|]; [|reflexivity].
  exists (value_counts ustring_eqb S col). split; [reflexivity|].
  split; [apply (value_counts_NoDup S _ ustring_eqb_spec)|].
  split; [apply sort_desc_sorted|].
  split; [intros d c; apply (value_counts_In S _ ustring_eqb_spec)|].
  apply sum_counts_value_counts.
Qed.

(** ** Sums of the counts *)

Lemma sum_nonneg (l : list Z) : Forall (fun c => 0 <= c) l -> 0 <= sum l.
Proof. induction 1; unfold sum in *; cbn [fold_right]; lia. Qed.

Lemma sum_firstn_le (n : nat) (l : list Z) :
  Forall (fun c => 0 <= c) l -> sum (firstn n l) <= sum l.
Proof.
  intros H. rewrite <- (firstn_skipn n l) at 2. rewrite sum_app.
  assert (0 <= sum (skipn n l)); [|lia].
  apply sum_nonneg. rewrite Forall_forall in *. intros c Hc. apply H.
  rewrite <- (firstn_skipn n l). apply in_or_app. now right.
Qed.

Lemma age_counts_sum (S : sort_values) (df : frame) :
  sum (map snd (age_counts S df)) = Z.of_nat (length (dropna (ages df))).
Proof.
  unfold age_counts. now rewrite sum_counts_sort, sum_counts_value_counts.
Qed.

Lemma age_counts_keys (S : sort_values) (df : frame) (a : Z) :
  In a (map fst (age_counts S df)) <-> In a (dropna (ages df)).
Proof.
  rewrite in_map_iff. split.
  - intros ([a' c] & <- & Hin). cbn [fst]. apply age_counts_In in Hin as [-> Hc].
    unfold occurrences in Hc.
    destruct (filter (Z.eqb a') (dropna (ages df))) as [|x l] eqn:E; [cbn in Hc; lia|].
    assert (Hx : In x (filter (Z.eqb a') (dropna (ages df)))) by (rewrite E; now left).
    apply filter_In in Hx as [Hx Ex]. apply Z.eqb_eq in Ex. now subst.
  - intros Hin. exists (a, occurrences Z.eqb a (dropna (ages df))). split; [reflexivity|].
    apply age_counts_In. split; [reflexivity | now apply occurrences_positive].
Qed.

Lemma age_counts_length (S : sort_values) (df : frame) :
  length (age_counts S df) = length (nodup Z.eq_dec (dropna (ages df))).
Proof.
  rewrite <- (length_map fst). apply Permutation_length, NoDup_Permutation.
  - apply age_counts_NoDup.
  - apply NoDup_nodup.
  - intros a. rewrite nodup_In. apply age_counts_keys.
Qed.

Lemma age_counts_positive (S : sort_values) (df : frame) :
  Forall (fun c => 0 <= c) (map snd (age_counts S df)).
Proof.
  rewrite Forall_forall. intros c Hc. apply in_map_iff in Hc as ([a c'] & <- & Hin).
  apply age_counts_In in Hin. cbn [snd]. lia.
Qed.

(** The counts of the ten most frequent ages add up to at most the number
    of records with an age, and to exactly that number when the batch has
    at most ten different ages; the count of the peak age is the largest
    number of records of any one age. *)
Theorem top_ages_counts_sum (S : sort_values) (df : frame) :
  sum (map snd (top_ages (aggregate_statistics S df)))
  <= Z.of_nat (length (dropna (ages df)))
  /\ ((length (nodup Z.eq_dec (dropna (ages df))) <= 10)%nat ->
      sum (map snd (top_ages (aggregate_statistics S df)))
      = Z.of_nat (length (dropna (ages df))))
  /\ (forall a c, peak (aggregate_statistics S df) = Some (a, c) ->
        c = occurrences Z.eqb a (dropna (ages df))
        /\ 0 < c
        /\ forall a', occurrences Z.eqb a' (dropna (ages df)) <= c).
Proof.
  rewrite top_ages_eq, peak_eq. split; [|split].
  - rewrite <- (age_counts_sum S df), <- firstn_map.
    apply sum_firstn_le, age_counts_positive.
  - intros Hlen. rewrite firstn_all2; [apply age_counts_sum|].
    now rewrite age_counts_length.
  - intros a c Hpeak.
    pose proof (sort_desc_sorted S _ (value_counts Z.eqb S (ages df))) as Hsorted.
    fold (age_counts S df) in Hsorted.
    destruct (age_counts S df) as [|[a0 c0] t] eqn:E; [discriminate|].
    injection Hpeak as -> ->.
    assert (Hin : In (a, c) (age_counts S df)) by (rewrite E; now left).
    apply age_counts_In in Hin as [Hc Hpos]. split; [exact Hc|]. split; [exact Hpos|].
    intros a'.
    destruct (in_dec Z.eq_dec a' (dropna (ages df))) as [Ha'|Ha'].
    + assert (Hin' : In (a', occurrences Z.eqb a' (dropna (ages df))) (age_counts S df)).
      { apply age_counts_In. split; [reflexivity | now apply occurrences_positive]. }
      rewrite E in Hin'. destruct Hin' as [[= -> <-]|Hin']; [lia|].
      inversion Hsorted as [|? ? _ Hall]; subst. rewrite Forall_forall in Hall.
      exact (Hall _ Hin').
    + unfold occurrences.
      destruct (filter (Z.eqb a') (dropna (ages df))) as [|x l] eqn:Ef; [cbn; lia|].
      assert (Hx : In x (filter (Z.eqb a') (dropna (ages df)))) by (rewrite Ef; now left).
      apply filter_In in Hx as [Hx Ex]. apply Z.eqb_eq in Ex. now subst.
Qed.

(** ** Smallest and largest age *)

Lemma fold_min_spec (l : list Z) (a : Z) :
  (fold_left Z.min l a = a \/ In (fold_left Z.min l a) l)
  /\ fold_left Z.min l a <= a
  /\ forall x, In x l -> fold_left Z.min l a <= x.
Proof.
  revert a. induction l as [|b l IH]; intros a; cbn [fold_left].
  - split; [now left|]. split; [lia | intros x []].
  - destruct (IH (Z.min a b)) as (H1 & H2 & H3). split; [|split].
    + destruct H1 as [H1|H1].
      * rewrite H1. destruct (Z.min_spec a b) as [[_ ->]|[_ ->]]; [now left | right; now left].
      * right. now right.
    + lia.
    + intros x [<-|Hx]; [lia | now apply H3].
Qed.

Lemma fold_max_spec (l : list Z) (a : Z) :
  (fold_left Z.max l a = a \/ In (fold_left Z.max l a) l)
  /\ a <= fold_left Z.max l a
  /\ forall x, In x l -> x <= fold_left Z.max l a.
Proof.
  revert a. induction l as [|b l IH]; intros a; cbn [fold_left].
  - split; [now left|]. split; [lia | intros x []].
  - destruct (IH (Z.max a b)) as (H1 & H2 & H3). split; [|split].
    + destruct H1 as [H1|H1].
      * rewrite H1. destruct (Z.max_spec a b) as [[_ ->]|[_ ->]]; [right; now left | now left].
      * right. now right.
    + lia.
    + intros x [<-|Hx]; [lia | now apply H3].
Qed.

(** In a batch with at least one age, 最小年齢 and 最大年齢 are ages of the
    batch and every age lies between them. *)
Theorem min_max_age_bounds (S : sort_values) (df : frame) :
  dropna (ages df) <> [] ->
  In (min_age (aggregate_statistics S df)) (dropna (ages df))
  /\ In (max_age (aggregate_statistics S df)) (dropna (ages df))
  /\ forall a, In a (dropna (ages df)) ->
       min_age (aggregate_statistics S df) <= a <= max_age (aggregate_statistics S df).
Proof.
  intros Hne. unfold aggregate_statistics. cbv zeta. cbn [min_age max_age].
  destruct (dropna (ages df)) as [|a0 l]; [congruence|]. clear Hne.
  unfold minimum, maximum.
  destruct (fold_min_spec l a0) as (Hm1 & Hm2 & Hm3).
  destruct (fold_max_spec l a0) as (HM1 & HM2 & HM3).
  split; [|split].
  - destruct Hm1 as [->|H]; [now left | now right].
  - destruct HM1 as [->|H]; [now left | now right].
  - intros a [<-|Ha]; [lia|]. split; [now apply Hm3 | now apply HM3].
Qed.

Lemma min_max_age_bounds_witness :
  In (min_age (aggregate_statistics stable sample_frame)) [13; 13; 15; 20]
  /\ min_age (aggregate_statistics stable sample_frame) <= 15
     <= max_age (aggregate_statistics stable sample_frame).
Proof.
  assert (Hne : dropna (ages sample_frame) <> []) by discriminate.
  destruct (min_max_age_bounds stable sample_frame Hne) as (Hmin & _ & Hall).
  split; [exact Hmin|]. apply Hall. cbn. tauto.
Defined.

(** ** The age bands of any batch *)

Lemma band_sum_any (n : Z) :
  Z.b2z ((0 <=? n) && (n <? 10)) + Z.b2z ((10 <=? n) && (n <? 20))
  + Z.b2z ((20 <=? n) && (n <? 30)) + Z.b2z ((30 <=? n) && (n <? 40))
  + Z.b2z ((40 <=? n) && (n <? 50)) + Z.b2z ((50 <=? n) && (n <? 60))
  + Z.b2z ((60 <=? n) && (n <? 70)) + Z.b2z ((70 <=? n) && (n <? 80))
  + Z.b2z ((80 <=? n) && (n <? 90)) + Z.b2z (90 <=? n) = Z.b2z (0 <=? n).
Proof.
  destruct (Z.le_gt_cases 0 n) as [Hn|Hn].
  - rewrite (one_band n Hn). symmetry. change 1 with (Z.b2z true). f_equal.
    now apply Z.leb_le.
  - repeat match goal with
           | |- context [?a <=? n] => destruct (Z.leb_spec a n); [lia|]
           end.
    reflexivity.
Qed.

Lemma age_groups_sum_any (col : list (option Z)) :
  sum (map snd (age_groups col)) = count_where (fun a => 0 <=? a) col.
Proof.
  unfold age_groups. cbn [map snd sum fold_right].
  induction col as [|[n|] col IH].
  - rewrite !count_where_nil. reflexivity.
  - rewrite !count_where_some. pose proof (band_sum_any n). lia.
  - rewrite !count_where_none. exact IH.
Qed.

Lemma count_where_le (cond : Z -> bool) (col : list (option Z)) :
  count_where cond col <= Z.of_nat (length col).
Proof.
  induction col as [|[n|] col IH]; cbn [length].
  - rewrite count_where_nil. lia.
  - rewrite count_where_some. destruct (cond n); cbn [Z.b2z]; lia.
  - rewrite count_where_none. lia.
Qed.

Lemma count_where_all (cond : Z -> bool) (col : list (option Z)) :
  count_where cond col = Z.of_nat (length col)
  <-> Forall (fun a => exists n, a = Some n /\ cond n = true) col.
Proof.
  induction col as [|[n|] col IH]; cbn [length].
  - rewrite count_where_nil. split; [constructor | reflexivity].
  - rewrite count_where_some. pose proof (count_where_le cond col) as Hle. split.
    + intros H. destruct (cond n) eqn:E; cbn [Z.b2z] in H; [|lia].
      constructor; [now exists n | apply IH; lia].
    + intros H. inversion H as [|? ? Hhead Hall]; subst.
      destruct Hhead as (m & E & Hm). injection E as E. subst m.
      rewrite Hm. cbn [Z.b2z]. apply IH in Hall. lia.
  - rewrite count_where_none. pose proof (count_where_le cond col) as Hle. split.
    + intros H. lia.
    + intros H. inversion H as [|? ? Hhead _]; subst.
      destruct Hhead as (m & E & _). discriminate.
Qed.

(** The band counts of any batch add up to the number of records with a
    non-negative age: a record with no age or a negative age is counted
    in 総書籍数 and in no band. *)
Theorem age_band_counts_total (S : sort_values) (df : frame) :
  sum (map snd (age_band_counts (aggregate_statistics S df)))
  = count_where (fun a => 0 <=? a) (ages df)
  /\ sum (map snd (age_band_counts (aggregate_statistics S df)))
     <= total_count (aggregate_statistics S df)
  /\ (sum (map snd (age_band_counts (aggregate_statistics S df)))
      = total_count (aggregate_statistics S df)
      <-> Forall (fun a => exists n, a = Some n /\ 0 <= n) (ages df)).
Proof.
  unfold aggregate_statistics. cbv zeta. cbn [age_band_counts total_count].
  rewrite age_groups_sum_any. split; [reflexivity|]. split; [apply count_where_le|].
  rewrite count_where_all. split; intros H; rewrite Forall_forall in *; intros a Ha;
    destruct (H a Ha) as (n & -> & Hn); exists n; (split; [reflexivity|]).
  - now apply Z.leb_le.
  - now apply Z.leb_le.
Qed.

(** ** The histogram *)

Lemma insert_by_index_In (x y : Z * Z) (l : list (Z * Z)) :
  In y (insert_by_index x l) <-> y = x \/ In y l.
Proof.
  induction l as [|z l IH]; cbn [insert_by_index].
  - cbn. intuition congruence.
  - destruct (fst x <=? fst z); cbn [In]; [intuition congruence|].
    rewrite IH. intuition congruence.
Qed.

Lemma sort_index_In (y : Z * Z) (l : list (Z * Z)) : In y (sort_index l) <-> In y l.
Proof.
  induction l as [|x l IH]; [reflexivity|].
  cbn [sort_index fold_right]. fold (sort_index l). rewrite insert_by_index_In, IH.
  cbn [In]. intuition congruence.
Qed.

Lemma insert_by_index_perm (x : Z * Z) (l : list (Z * Z)) :
  Permutation (x :: l) (insert_by_index x l).
Proof.
  induction l as [|z l IH]; cbn [insert_by_index]; [reflexivity|].
  destruct (fst x <=? fst z); [reflexivity|].
  rewrite perm_swap. now constructor.
Qed.

Lemma sort_index_perm (l : list (Z * Z)) : Permutation l (sort_index l).
Proof.
  induction l as [|x l IH]; [reflexivity|].
  cbn [sort_index fold_right]. fold (sort_index l).
  rewrite <- insert_by_index_perm. now constructor.
Qed.

Lemma insert_by_index_sorted (x : Z * Z) (l : list (Z * Z)) :
  ~ In (fst x) (map fst l) ->
  StronglySorted by_index l -> StronglySorted by_index (insert_by_index x l).
Proof.
  intros Hx Hs. induction Hs as [|z l Hs IH Hz]; cbn [insert_by_index].
  - repeat constructor.
  - cbn [map In] in Hx.
    destruct (Z.leb_spec (fst x) (fst z)) as [Hle|Hgt].
    + constructor; [now constructor|].
      assert (Hxz : by_index x z) by (unfold by_index; lia).
      constructor; [exact Hxz|]. rewrite Forall_forall in *. intros y Hy.
      specialize (Hz y Hy). unfold by_index in *. lia.
    + constructor; [apply IH; tauto|].
      rewrite Forall_forall in *. intros y Hy. apply insert_by_index_In in Hy as [->|Hy].
      * unfold by_index. lia.
      * now apply Hz.
Qed.

Lemma sort_index_sorted (l : list (Z * Z)) :
  NoDup (map fst l) -> StronglySorted by_index (sort_index l).
Proof.
  induction l as [|x l IH]; intros Hnd; [constructor|].
  cbn [map] in Hnd. inversion Hnd as [|? ? Hx Hnd']; subst.
  cbn [sort_index fold_right]. fold (sort_index l). apply insert_by_index_sorted.
  - intros Hin. apply Hx. apply in_map_iff in Hin as (y & E & Hy).
    apply (proj1 (sort_index_In _ _)) in Hy. rewrite <- E. now apply in_map.
  - now apply IH.
Qed.

Lemma by_index_sorted_unique (l1 l2 : list (Z * Z)) :
  StronglySorted by_index l1 -> StronglySorted by_index l2 ->
  (forall x, In x l1 <-> In x l2) -> l1 = l2.
Proof.
  intros H1. revert l2. induction H1 as [|x l1 Hs1 IH Hx]; intros l2 H2 Hin.
  - destruct l2 as [|y l2]; [reflexivity|]. exfalso. apply (proj2 (Hin y)). now left.
  - destruct H2 as [|y l2 Hs2 Hy]; [exfalso; apply (proj1 (Hin x)); now left|].
    rewrite Forall_forall in Hx, Hy.
    assert (E : x = y).
    { destruct (proj1 (Hin x) (or_introl eq_refl)) as [E|Hx2]; [now symmetry|].
      destruct (proj2 (Hin y) (or_introl eq_refl)) as [E|Hy1]; [exact E|].
      specialize (Hx _ Hy1). specialize (Hy _ Hx2). unfold by_index in *. lia. }
    subst y. f_equal. apply IH; [exact Hs2|].
    intros z. split; intros Hz.
    + destruct (proj1 (Hin z) (or_intror Hz)) as [<-|H]; [|exact H].
      specialize (Hx _ Hz). unfold by_index in Hx. lia.
    + destruct (proj2 (Hin z) (or_intror Hz)) as [<-|H]; [|exact H].
      specialize (Hy _ Hz). unfold by_index in Hy. lia.
Qed.

(** The histogram has one bar per age of the batch, in increasing order
    of the ages, as high as the number of records of that age; it does
    not depend on how [sort_values] orders equal counts. *)
Theorem age_df_spec (S : sort_values) (df_with_age : list enriched) :
  StronglySorted by_index (age_df S df_with_age)
  /\ (forall a c, In (a, c) (age_df S df_with_age) <->
        c = occurrences Z.eqb a (dropna (map target_age df_with_age)) /\ 0 < c)
  /\ sum (map snd (age_df S df_with_age))
     = Z.of_nat (length (dropna (map target_age df_with_age)))
  /\ forall S', age_df S' df_with_age = age_df S df_with_age.
Proof.
  assert (Hsorted : forall S0, StronglySorted by_index (age_df S0 df_with_age)).
  { intros S0. apply sort_index_sorted, (value_counts_NoDup S0 _ Z_eqb_spec). }
  assert (Hin : forall S0 a c, In (a, c) (age_df S0 df_with_age) <->
            c = occurrences Z.eqb a (dropna (map target_age df_with_age)) /\ 0 < c).
  { intros S0 a c. unfold age_df. rewrite sort_index_In.
    apply (value_counts_In S0 _ Z_eqb_spec). }
  split; [apply Hsorted|]. split; [apply Hin|]. split.
  - unfold age_df. rewrite <- (sum_counts_value_counts S Z.eqb).
    symmetry. apply sum_perm, Permutation_map, sort_index_perm.
  - intros S'. apply by_index_sorted_unique; [apply Hsorted | apply Hsorted|].
    intros [a c]. now rewrite !Hin.
Qed.

(** ** The header *)




(** ** The chart of decades and ages *)

Lemma str_le_refl (a : ustring) : str_le a a = true.
Proof.
  induction a as [|x a IH]; [reflexivity|]. cbn [str_le].
  now rewrite Z.eqb_refl, IH, orb_true_r.
Qed.



Lemma str_le_antisym (a b : ustring) :
  str_le a b = true -> str_le b a = true -> a = b.
Proof.
  revert b. induction a as [|x a IH]; intros [|y b]; cbn [str_le];
    try reflexivity; try discriminate.
  intros H1 H2.
  apply orb_true_iff in H1 as [H1|H1]; apply orb_true_iff in H2 as [H2|H2].
  - apply Z.ltb_lt in H1, H2. lia.
  - apply andb_true_iff in H2 as [H2 _]. apply Z.eqb_eq in H2. apply Z.ltb_lt in H1. lia.
  - apply andb_true_iff in H1 as [H1 _]. apply Z.eqb_eq in H1. apply Z.ltb_lt in H2. lia.
  - apply andb_true_iff in H1 as [E1 H1]. apply andb_true_iff in H2 as [_ H2].
    apply Z.eqb_eq in E1. subst y. f_equal. now apply IH.
Qed.



Lemma by_age_decade_antisym (x y : decade_row * Z) :
  by_age_decade x y = true -> by_age_decade y x = true -> fst x = fst y.
Proof.
  unfold by_age_decade. destruct x as [[d a] c], y as [[d' a'] c']. cbn [fst snd].
  intros H1 H2.
  apply orb_true_iff in H1 as [H1|H1]; apply orb_true_iff in H2 as [H2|H2].
  - apply Z.ltb_lt in H1, H2. lia.
  - apply andb_true_iff in H2 as [H2 _]. apply Z.eqb_eq in H2. apply Z.ltb_lt in H1. lia.
  - apply andb_true_iff in H1 as [H1 _]. apply Z.eqb_eq in H1. apply Z.ltb_lt in H2. lia.
  - apply andb_true_iff in H1 as [E1 H1]. apply andb_true_iff in H2 as [_ H2].
    apply Z.eqb_eq in E1. subst a'. f_equal. now apply str_le_antisym.
Qed.













Lemma cross_table_occurrences (rows : list decade_row) (d : ustring) (a : Z) :
  cross_table rows d a = occurrences decade_row_eqb (d, a) rows.
Proof. reflexivity. Qed.












(** ** The API key *)

(** The key used is the first usable one among [[gemini] api_key],
    [GEMINI_API_KEY] (a section with that key, or a text),
    [gemini_api_key] and the environment variable [GEMINI_API_KEY]; the
    third look-up of the source never changes the result; and no key is
    found exactly when none of the four places holds a usable one. *)
Theorem find_api_key_precedence (secrets : list (ustring * secret))
    (environ : list (ustring * ustring)) :
  usable (find_api_key secrets environ) = first_usable (key_sources secrets environ)
  /\ (usable (find_api_key secrets environ) = None <->
      Forall (fun c => usable c = None) (key_sources secrets environ)).
Proof.
  assert (E : usable (find_api_key secrets environ)
              = first_usable (key_sources secrets environ)).
  { unfold find_api_key, key_sources. cbv zeta. cbn [first_usable].
    generalize (lookup (u"gemini") secrets) (lookup (u"GEMINI_API_KEY") secrets)
               (lookup (u"gemini_api_key") secrets) (lookup (u"GEMINI_API_KEY") environ).
    intros g G f e.
    unfold usable, not_key.
    destruct g as [[s1|d1|b1]|]; try destruct (lookup (u"api_key") d1) as [v1|];
      destruct G as [[[|c2 s2]|d2|b2]|];
      try destruct (lookup (u"GEMINI_API_KEY") d2) as [v2|];
      destruct f as [v4|]; destruct e as [[|c5 s5]|];
      repeat match goal with
             | v : secret |- _ =>
                 lazymatch goal with
                 | H : secret_truthy v = _ |- _ => fail
                 | _ => destruct (secret_truthy v) eqn:?
                 end
             end;
      repeat (progress (cbn; repeat match goal with
                                    | H : secret_truthy _ = _ |- _ => rewrite H
                                    end));
      reflexivity. }
  split; [exact E|]. rewrite E. unfold key_sources.
  generalize (match lookup (u"gemini") secrets with
    | Some (SDict section) => lookup (u"api_key") section
    | _ => None
    end) (match lookup (u"GEMINI_API_KEY") secrets with
    | Some (SDict section) => lookup (u"GEMINI_API_KEY") section
    | Some (SStr s) => Some (SStr s)
    | _ => None
    end) (lookup (u"gemini_api_key") secrets) (option_map SStr (lookup (u"GEMINI_API_KEY") environ)).
  intros c1 c2 c4 c5. cbn [first_usable]. split.
  - intros H. destruct (usable c1) eqn:E1; [discriminate|].
    destruct (usable c2) eqn:E2; [discriminate|].
    destruct (usable c4) eqn:E4; [discriminate|].
    destruct (usable c5) eqn:E5; [discriminate|]. repeat constructor; assumption.
  - intros H. inversion H as [|? ? H1 H']; subst. inversion H' as [|? ? H2 H'']; subst.
    inversion H'' as [|? ? H4 H''']; subst. inversion H''' as [|? ? H5 _]; subst.
    now rewrite H1, H2, H4, H5.
Qed.

(** ** The style and the remarks in the prompt *)

Lemma ustring_eqb_neq (a b : ustring) : a <> b -> ustring_eqb a b = false.
Proof. unfold ustring_eqb. destruct (list_eq_dec Z.eq_dec a b); congruence. Qed.

Lemma style_instruction_unknown (writing_style : ustring) :
  ~ In writing_style writing_styles -> style_instruction writing_style = style_standard.
Proof.
  intros H. unfold style_instruction.
  rewrite !ustring_eqb_neq; [reflexivity| | | | |];
    intros E; apply H; rewrite E; cbn; tauto.
Qed.

Lemma style_instruction_standard : style_instruction (u"標準的") = style_standard.
Proof. vm_compute. reflexivity. Qed.

Lemma prompt_pieces_style (stats : stats_dict) (ws ws' ui : ustring) (pieces : list ustring) :
  prompt_pieces stats ws ui = Ok pieces ->
  exists front,
    pieces = front ++ [style_instruction ws]
    /\ prompt_pieces stats ws' ui = Ok (front ++ [style_instruction ws']).
Proof.
  unfold prompt_pieces.
  destruct (py_str (get (get_total stats) (AInt 0))); [|discriminate].
  destruct (py_format_1f (get (get_mean stats) (NInt 0))); [|discriminate].
  destruct (py_str (get (get_min stats) (AInt 0))); [|discriminate].
  destruct (py_str (get (get_max stats) (AInt 0))); [|discriminate].
  destruct (py_format_1f (get (get_median stats) (NInt 0))); [|discriminate].
  destruct (py_str (get (get_peak_age stats) (AStr (u"N/A")))); [|discriminate].
  destruct (py_str (get (get_peak_count stats) (AInt 0))); [|discriminate].
  destruct (item_lines (u"歳: ") (get (get_top stats) [])); [|discriminate].
  destruct (item_lines (u": ") (get (get_bands stats) [])); [|discriminate].
  cbn [bind].
  destruct (match get_decades stats with
            | Some ((_ :: _) as items) =>
                lines <- item_lines (u": ") items ;; Ok (join [10] lines)
            | _ => Ok (u"データなし")
            end); [|discriminate].
  cbn [bind]. intros [= <-].
  eexists (_ :: _ :: _ :: _ :: _ :: _ :: _ :: _ :: _ :: _ :: _ :: _ :: _ :: _ :: _ :: _ :: _ :: _ :: _ :: [_]).
  split; reflexivity.
Qed.

Lemma prompt_pieces_Exc (stats : stats_dict) (ws ws' ui msg : ustring) :
  prompt_pieces stats ws ui = Exc msg -> prompt_pieces stats ws' ui = Exc msg.
Proof.
  unfold prompt_pieces.
  destruct (py_str (get (get_total stats) (AInt 0))); [|intros H; exact H].
  destruct (py_format_1f (get (get_mean stats) (NInt 0))); [|intros H; exact H].
  destruct (py_str (get (get_min stats) (AInt 0))); [|intros H; exact H].
  destruct (py_str (get (get_max stats) (AInt 0))); [|intros H; exact H].
  destruct (py_format_1f (get (get_median stats) (NInt 0))); [|intros H; exact H].
  destruct (py_str (get (get_peak_age stats) (AStr (u"N/A")))); [|intros H; exact H].
  destruct (py_str (get (get_peak_count stats) (AInt 0))); [|intros H; exact H].
  destruct (item_lines (u"歳: ") (get (get_top stats) [])); [|intros H; exact H].
  destruct (item_lines (u": ") (get (get_bands stats) [])); [|intros H; exact H].
  cbn [bind].
  destruct (match get_decades stats with
            | Some ((_ :: _) as items) =>
                lines <- item_lines (u": ") items ;; Ok (join [10] lines)
            | _ => Ok (u"データなし")
            end); [|intros H; exact H].
  cbn [bind]. discriminate.
Qed.

(** The prompt ends with the instruction of the chosen style, the rest of
    the prompt does not depend on the style, and a style that is not one
    of the five gives the prompt of 標準的. *)
Theorem style_instruction_last (stats : stats_dict) (writing_style user_insights : ustring) :
  (forall prompt,
      build_prompt stats writing_style user_insights = Ok prompt ->
      exists body,
        prompt = body ++ style_instruction writing_style
        /\ forall other,
             build_prompt stats other user_insights = Ok (body ++ style_instruction other))
  /\ (forall msg,
        build_prompt stats writing_style user_insights = Exc msg ->
        forall other, build_prompt stats other user_insights = Exc msg)
  /\ (~ In writing_style writing_styles ->
      build_prompt stats writing_style user_insights
      = build_prompt stats (u"標準的") user_insights).
Proof.
  assert (Hok : forall ws prompt,
            build_prompt stats ws user_insights = Ok prompt ->
            exists body,
              prompt = body ++ style_instruction ws
              /\ forall other,
                   build_prompt stats other user_insights
                   = Ok (body ++ style_instruction other)).
  { intros ws prompt H. unfold build_prompt in H.
    destruct (prompt_pieces stats ws user_insights) as [pieces|] eqn:E; [|discriminate].
    cbn [bind] in H. injection H as <-.
    destruct (prompt_pieces_style stats ws ws user_insights pieces E) as (front & -> & _).
    exists (concat front). split.
    - now rewrite concat_app; cbn [concat]; rewrite app_nil_r.
    - intros other. unfold build_prompt.
      destruct (prompt_pieces_style stats ws other user_insights _ E) as (front' & E' & ->).
      apply app_inj_tail in E' as [<- _]. cbn [bind].
      now rewrite concat_app; cbn [concat]; rewrite app_nil_r. }
  assert (Hexc : forall ws msg,
            build_prompt stats ws user_insights = Exc msg ->
            forall other, build_prompt stats other user_insights = Exc msg).
  { intros ws msg H other. unfold build_prompt in H |- *.
    destruct (prompt_pieces stats ws user_insights) as [pieces|m] eqn:Ep;
      cbn [bind] in H; [discriminate|].
    injection H as ->.
    rewrite (prompt_pieces_Exc stats ws other user_insights msg Ep). reflexivity. }
  split; [apply Hok|]. split; [apply Hexc|].
  intros Hunknown.
  assert (Hcase : forall r,
            build_prompt stats writing_style user_insights = r ->
            r = build_prompt stats (u"標準的") user_insights).
  { intros [prompt|msg] E.
    - destruct (Hok _ _ E) as (body & -> & Hall). rewrite (Hall (u"標準的")).
      rewrite (style_instruction_unknown _ Hunknown), style_instruction_standard.
      reflexivity.
    - symmetry. exact (Hexc _ _ E _). }
  exact (Hcase _ eq_refl).
Qed.

Lemma style_instruction_last_witness :
  build_prompt no_stats (u"ユーモラス") [] = build_prompt no_stats (u"標準的") [].
Proof.
  destruct (style_instruction_last no_stats (u"ユーモラス") []) as (_ & _ & W).
  apply W. intros H. vm_compute in H.
  destruct H as [H|[H|[H|[H|[H|[]]]]]]; discriminate H.
Defined.

Lemma user_insights_section_blank (user_insights : ustring) :
  has_text user_insights = false ->
  user_insights_section user_insights = user_insights_section [].
Proof. unfold user_insights_section. intros ->. reflexivity. Qed.

Lemma prompt_pieces_insights (stats : stats_dict) (ws ui : ustring) (pieces : list ustring) :
  prompt_pieces stats ws ui = Ok pieces ->
  nth_error pieces 18 = Some (user_insights_section ui).
Proof.
  intros H. apply prompt_pieces_Ok in H
    as (total & mean_s & min_s & max_s & median_s & peak_age & peak_count & top
        & bands & decades & _ & _ & _ & _ & _ & _ & _ & _ & _ & _ & ->).
  reflexivity.
Qed.

Lemma has_text_spec (user_insights : ustring) :
  has_text user_insights = true <-> exists c, In c user_insights /\ is_space c = false.
Proof.
  unfold has_text. rewrite negb_true_iff. split.
  - intros H. induction user_insights as [|c s IH]; [discriminate|].
    cbn [forallb] in H. destruct (is_space c) eqn:E.
    + destruct (IH H) as (c' & Hin & Hc'). exists c'. split; [now right | exact Hc'].
    + exists c. split; [now left | exact E].
  - intros (c & Hin & Hc). destruct (forallb is_space user_insights) eqn:E; [|reflexivity].
    rewrite forallb_forall in E. rewrite (E c Hin) in Hc. discriminate.
Qed.

(** Remarks that are empty or blank leave the prompt as it is without
    remarks; any other remarks are quoted in the prompt under their
    heading, followed by the request to take them into account. *)
Theorem user_insights_in_prompt (stats : stats_dict) (writing_style user_insights : ustring) :
  (has_text user_insights = true <->
   exists c, In c user_insights /\ is_space c = false)
  /\ (has_text user_insights = false ->
      build_prompt stats writing_style user_insights
      = build_prompt stats writing_style [])
  /\ (has_text user_insights = true ->
      forall prompt,
        build_prompt stats writing_style user_insights = Ok prompt ->
        contains (u"【ユーザーの気づき・観察】" ++ [10] ++ user_insights ++ [10; 10]
                  ++ u"上記のユーザーの気づきや観察も踏まえて、考察記事に反映してください。")
          prompt = true).
Proof.
  split; [apply has_text_spec|]. split.
  - intros Hblank. unfold build_prompt, prompt_pieces.
    rewrite (user_insights_section_blank _ Hblank). reflexivity.
  - intros Htext prompt H. unfold build_prompt in H.
    apply bind_Ok in H as (pieces & Hpieces & H). injection H as <-.
    apply prompt_pieces_insights in Hpieces.
    apply (contains_nth pieces 18 _ _ Hpieces).
    unfold user_insights_section. rewrite Htext.
    assert (E : forall a b : ustring,
              u"

【ユーザーの気づき・観察】
" ++ a ++ u"

上記のユーザーの気づきや観察も踏まえて、考察記事に反映してください。"
              = [10; 10] ++ (u"【ユーザーの気づき・観察】" ++ [10] ++ a ++ [10; 10]
                  ++ u"上記のユーザーの気づきや観察も踏まえて、考察記事に反映してください。")).
    { intros a b.
      assert (E1 : u"

【ユーザーの気づき・観察】
" = [10; 10] ++ u"【ユーザーの気づき・観察】" ++ [10]) by (vm_compute; reflexivity).
      assert (E2 : u"

上記のユーザーの気づきや観察も踏まえて、考察記事に反映してください。"
                   = [10; 10] ++ u"上記のユーザーの気づきや観察も踏まえて、考察記事に反映してください。")
        by (vm_compute; reflexivity).
      rewrite E1, E2. rewrite <- !app_assoc. reflexivity. }
    rewrite (E user_insights []). apply contains_suffix.
Qed.

Lemma user_insights_in_prompt_witness :
  build_prompt no_stats (u"標準的") (u" 　
") = build_prompt no_stats (u"標準的") [].
Proof.
  destruct (user_insights_in_prompt no_stats (u"標準的") (u" 　
")) as (_ & W & _).
  apply W. vm_compute. reflexivity.
Defined.

(** ** Printing the statistics *)

Lemma int64_within_limit (n : Z) : int64 n -> Z.abs n < 10 ^ int_max_str_digits.
Proof.
  unfold int64. intros H.
  assert (E : (2 ^ 63 <? 10 ^ int_max_str_digits) = true) by (vm_compute; reflexivity).
  apply Z.ltb_lt in E. lia.
Qed.

Lemma py_str_int_within_limit (n : Z) :
  Z.abs n < 10 ^ int_max_str_digits -> py_str_int n = Ok (str_int n).
Proof.
  intros H. unfold py_str_int.
  pose proof (str_nat_within_limit (Z.abs n) (conj (Z.abs_nonneg n) H)) as Hlen.
  destruct (Z.ltb_spec int_max_str_digits (Z.of_nat (length (str_nat (Z.abs n)))));
    [lia | reflexivity].
Qed.

Lemma renders_int64 (n : Z) : int64 n -> renders (py_str (AInt n)) = true.
Proof.
  intros H. cbn [py_str]. now rewrite (py_str_int_within_limit n (int64_within_limit n H)).
Qed.

Lemma renderable_int_items (l : list (Z * Z)) :
  Forall (fun kv => int64 (fst kv) /\ int64 (snd kv)) l ->
  renderable_items (int_items l) = true.
Proof.
  induction 1 as [|[a c] l [Ha Hc] _ IH]; [reflexivity|].
  cbn [int_items map renderable_items forallb fst snd] in *.
  rewrite (renders_int64 a Ha), (renders_int64 c Hc). exact IH.
Qed.

Lemma renderable_str_items (l : list (ustring * Z)) :
  Forall (fun kv => int64 (snd kv)) l -> renderable_items (str_items l) = true.
Proof.
  induction 1 as [|[a c] l Hc _ IH]; [reflexivity|].
  cbn [str_items map renderable_items forallb fst snd] in *.
  rewrite (renders_int64 c Hc). exact IH.
Qed.

Lemma occurrences_le {K} (eqb : K -> K -> bool) (a : K) (l : list K) :
  0 <= occurrences eqb a l <= Z.of_nat (length l).
Proof.
  unfold occurrences. pose proof (filter_length_le (eqb a) l). lia.
Qed.

Lemma dropna_length {A} (l : list (option A)) : (length (dropna l) <= length l)%nat.
Proof. induction l as [|[a|] l IH]; cbn [dropna length]; lia. Qed.

Lemma py_float_zero : renders (py_format_1f (NInt 0)) = true.
Proof. vm_compute. reflexivity. Qed.

Section Printable.

Variable S : sort_values.
Variable df : frame.
Hypothesis rows : Z.of_nat (length (ages df)) < 2 ^ 63.
Hypothesis ages_int64 : Forall int64 (dropna (ages df)).
Hypothesis decade_rows :
  forall col, decades df = Some col -> Z.of_nat (length col) < 2 ^ 63.

Lemma count_int64 (c : Z) : 0 <= c <= Z.of_nat (length (dropna (ages df))) -> int64 c.
Proof. pose proof (dropna_length (ages df)). unfold int64. lia. Qed.

Lemma age_counts_int64 :
  Forall (fun kv => int64 (fst kv) /\ int64 (snd kv)) (age_counts S df).
Proof.
  rewrite Forall_forall. intros [a c] Hin. cbn [fst snd]. split.
  - rewrite Forall_forall in ages_int64. apply ages_int64.
    apply (age_counts_keys S df). now apply (in_map fst) in Hin.
  - apply age_counts_In in Hin as [-> _]. apply count_int64, occurrences_le.
Qed.

Lemma aggregate_statistics_renderable :
  renderable (as_dict (aggregate_statistics S df)) = true.
Proof.
  pose proof age_counts_int64 as Hcounts.
  unfold renderable, as_dict.
  cbn [get_total get_mean get_min get_max get_median get_peak_age get_peak_count
       get_top get_bands get_decades get].
  rewrite top_ages_eq, peak_eq.
  unfold aggregate_statistics. cbv zeta.
  cbn [total_count mean_age min_age max_age median_age decade_counts age_band_counts].
  repeat match goal with
         | |- (_ && _) = true => apply andb_true_iff; split
         end.
  - apply renders_int64. unfold int64. lia.
  - destruct (dropna (ages df)); [apply py_float_zero | reflexivity].
  - apply renders_int64.
    destruct (dropna (ages df)) as [|a0 l] eqn:E; [unfold int64; lia|].
    unfold minimum. destruct (fold_min_spec l a0) as ([H|H] & _).
    + rewrite H. now inversion ages_int64.
    + rewrite Forall_forall in ages_int64. apply ages_int64. now right.
  - apply renders_int64.
    destruct (dropna (ages df)) as [|a0 l] eqn:E; [unfold int64; lia|].
    unfold maximum. destruct (fold_max_spec l a0) as ([H|H] & _).
    + rewrite H. now inversion ages_int64.
    + rewrite Forall_forall in ages_int64. apply ages_int64. now right.
  - destruct (dropna (ages df)); [apply py_float_zero | reflexivity].
  - destruct (age_counts S df) as [|[a c] t]; [reflexivity|].
    cbn [hd_error option_map fst]. apply renders_int64. now inversion Hcounts.
  - destruct (age_counts S df) as [|[a c] t]; [apply renders_int64; unfold int64; lia|].
    cbn [hd_error option_map snd]. apply renders_int64. now inversion Hcounts.
  - apply renderable_int_items. rewrite Forall_forall in *. intros kv Hkv.
    apply Hcounts. now apply firstn_In_list in Hkv.
  - apply renderable_str_items. rewrite age_groups_table, Forall_forall.
    intros kv Hkv. apply in_map_iff in Hkv as ([[label low] high] & <- & _).
    cbn [band_count snd]. unfold int64.
    pose proof (count_where_nonneg (in_band low high) (ages df)).
    pose proof (count_where_le (in_band low high) (ages df)). lia.
  - destruct (decades df) as [col|] eqn:E; [|reflexivity].
    cbn [option_map get]. apply renderable_str_items. rewrite Forall_forall.
    intros [d c] Hin. cbn [snd].
    apply (value_counts_In S ustring_eqb ustring_eqb_spec) in Hin as [-> _].
    pose proof (occurrences_le ustring_eqb d (dropna col)).
    pose proof (dropna_length col). pose proof (decade_rows col eq_refl).
    unfold int64. lia.
Qed.

End Printable.

(** The statistics of a batch can always be printed: for a frame of
    fewer than 2^63 rows whose ages are 64-bit integers the prompt is
    built, it reports the number of rows, and exactly one request is
    sent, whose result is returned. *)
Theorem statistics_prompt_sent (S : sort_values) (env : environment) (df : frame)
    (writing_style user_insights key : ustring) :
  api_key env = Some key -> key <> [] ->
  Z.of_nat (length (ages df)) < 2 ^ 63 ->
  (forall col, decades df = Some col -> Z.of_nat (length col) < 2 ^ 63) ->
  Forall int64 (dropna (ages df)) ->
  exists prompt,
    build_prompt (as_dict (aggregate_statistics S df)) writing_style user_insights
    = Ok prompt
    /\ contains (u"- 総書籍数: " ++ str_int (Z.of_nat (length (ages df))) ++ u"冊") prompt
       = true
    /\ generate_article_with_gemini env (as_dict (aggregate_statistics S df))
         writing_style user_insights
       = match generate_content env 0%nat prompt with
         | Ok text => {| article := Some text; error := None; requests := [prompt] |}
         | Exc msg =>
             {| article := None; error := Some (error_prefix ++ msg);
                requests := [prompt] |}
         end.
Proof.
  intros Hkey Hne Hrows Hdec Hages.
  pose proof (aggregate_statistics_renderable S df Hrows Hages Hdec) as Hr.
  rewrite <- (build_prompt_renders _ writing_style user_insights) in Hr.
  destruct (build_prompt (as_dict (aggregate_statistics S df)) writing_style user_insights)
    as [prompt|msg] eqn:E; [|discriminate].
  exists prompt. split; [reflexivity|]. split.
  - unfold build_prompt in E. apply bind_Ok in E as (pieces & Hpieces & E).
    injection E as <-.
    apply prompt_pieces_Ok in Hpieces
      as (total & mean_s & min_s & max_s & median_s & peak_age & peak_count & top
          & bands & decades & Htotal & _ & _ & _ & _ & _ & _ & _ & _ & _ & ->).
    cbn [as_dict get_total get aggregate_statistics total_count py_str] in Htotal.
    rewrite py_str_int_within_limit in Htotal.
    + injection Htotal as <-. eapply (contains_nth _ 1); [reflexivity | apply contains_refl].
    + apply int64_within_limit. unfold int64. lia.
  - unfold generate_article_with_gemini. rewrite Hkey, E.
    destruct key; [congruence | reflexivity].
Qed.

Lemma statistics_prompt_sent_witness :
  exists prompt,
    contains (u"- 総書籍数: 4冊") prompt = true
    /\ requests (generate_article_with_gemini failing_service
                   (as_dict (aggregate_statistics stable sample_frame)) (u"詩的") [])
       = [prompt].
Proof.
  assert (Hkey : api_key failing_service = Some (u"key")) by reflexivity.
  assert (Hne : u"key" <> []) by (vm_compute; discriminate).
  assert (Hrows : Z.of_nat (length (ages sample_frame)) < 2 ^ 63) by (vm_compute; reflexivity).
  assert (Hdec : forall col, decades sample_frame = Some col ->
                             Z.of_nat (length col) < 2 ^ 63) by discriminate.
  assert (Hages : Forall int64 (dropna (ages sample_frame))).
  { repeat constructor; vm_compute; congruence. }
  destruct (statistics_prompt_sent stable failing_service sample_frame (u"詩的") []
              (u"key") Hkey Hne Hrows Hdec Hages) as (prompt & _ & Hc & Hg).
  exists prompt. split.
  - assert (E : u"- 総書籍数: " ++ str_int (Z.of_nat (length (ages sample_frame))) ++ u"冊"
                = u"- 総書籍数: 4冊") by (vm_compute; reflexivity).
    rewrite <- E. exact Hc.
  - rewrite Hg. reflexivity.
Defined.

(** ** The article buttons *)






Lemma on_generate_session (S : sort_values) (env : environment)
    (df : option (list enriched)) (writing_style user_insights : ustring)
    (state : SessionState.t) :
  session (on_generate S env df writing_style user_insights state) = state
  \/ exists text,
       text <> []
       /\ session (on_generate S env df writing_style user_insights state)
          = {| SessionState.generated_article := Some text;
               SessionState.writing_style := Some writing_style |}.
Proof.
  unfold on_generate. destruct df as [rows|]; [|now left].
  destruct (df_with_age rows) as [|e l]; [now left|]. cbv zeta.
  destruct (nonempty (error _)); [now left|].
  destruct (article _) as [[|c text]|]; cbn [nonempty session]; try now left.
  right. exists (c :: text). split; [discriminate | reflexivity].
Qed.

Lemma press_keeps (S : sort_values) (state : SessionState.t) (b : button) :
  article_with_style state -> article_with_style (session (press S state b)).
Proof.
  intros H. destruct b as [env df ws ui|]; cbn [press].
  - destruct (on_generate_session S env df ws ui state) as [->|(text & Hne & ->)];
      [exact H|].
    unfold article_with_style. cbn. split; [exact Hne | now exists ws].
  - unfold on_clear. destruct (SessionState.generated_article state) eqn:E; cbn [session].
    + reflexivity.
    + exact H.
Qed.

(** Whatever the clicks on the two buttons, starting with the empty
    session state: the article stored is never empty, and a style is
    stored exactly when an article is; after a click on 記事をクリア no
    article is stored. *)
Theorem session_article_with_style (S : sort_values) (clicks : list button) :
  article_with_style (replay S empty_session clicks)
  /\ SessionState.generated_article (replay S empty_session (clicks ++ [Clear])) = None.
Proof.
  assert (H : forall state, article_with_style state ->
                            article_with_style (replay S state clicks)).
  { induction clicks as [|b clicks IH]; intros state Hs; [exact Hs|].
    cbn [replay fold_left]. apply IH. now apply press_keeps. }
  split; [apply H; reflexivity|].
  unfold replay. rewrite fold_left_app. cbn [fold_left press].
  generalize (fold_left (fun state b => session (press S state b)) clicks empty_session).
  intros state. unfold on_clear.
  destruct (SessionState.generated_article state) eqn:E; cbn [session]; [reflexivity | exact E].
Qed.

(** ** The label of a decade *)

Lemma decade_labels :
  forallb (fun a =>
    forallb (fun b =>
      forallb (fun c =>
        ustring_eqb (str_int (1000 * a + 100 * b + 10 * c)) (in_script 48 [a; b; c; 0]))
        digit_values) digit_values) [1; 2; 3; 4; 5; 6; 7; 8; 9] = true.
Proof. vm_compute. reflexivity. Qed.

Lemma decade_label (a b c : Z) :
  1 <= a <= 9 -> 0 <= b <= 9 -> 0 <= c <= 9 ->
  str_int (1000 * a + 100 * b + 10 * c) = in_script 48 [a; b; c; 0].
Proof.
  intros Ha Hb Hc. pose proof decade_labels as H.
  rewrite forallb_forall in H.
  assert (Ia : In a [1; 2; 3; 4; 5; 6; 7; 8; 9]) by (cbn; lia).
  specialize (H a Ia). rewrite forallb_forall in H.
  assert (Ib : In b digit_values) by (cbn; lia).
  specialize (H b Ib). rewrite forallb_forall in H.
  assert (Ic : In c digit_values) by (cbn; lia).
  specialize (H c Ic). unfold ustring_eqb in H.
  now destruct (list_eq_dec Z.eq_dec _ _).
Qed.

Lemma match_year_non_digit (x : codepoint) (s : ustring) :
  is_decimal x = false -> match_year (x :: s) = None.
Proof.
  intros H. unfold match_year. destruct s as [|b [|c [|d s]]]; try reflexivity.
  now rewrite H.
Qed.

Lemma search_year_skip (pre s : ustring) :
  forallb (fun x => negb (is_decimal x)) pre = true ->
  search_year (pre ++ s) = search_year s.
Proof.
  induction pre as [|x pre IH]; intros H; [reflexivity|].
  cbn [forallb] in H. apply andb_true_iff in H as [Hx Hpre].
  apply negb_true_iff in Hx.
  cbn [app search_year]. rewrite (match_year_non_digit x _ Hx). now apply IH.
Qed.

Lemma search_year_head (zero a b c d : Z) (post : ustring) :
  In zero Nd_zeros -> 0 <= a <= 9 -> 0 <= b <= 9 -> 0 <= c <= 9 -> 0 <= d <= 9 ->
  search_year (in_script zero [a; b; c; d] ++ post) = Some (in_script zero [a; b; c; d]).
Proof.
  intros Hz Ha Hb Hc Hd. cbn [in_script map app search_year match_year].
  unfold is_decimal.
  rewrite (decimal_in_script zero a Hz Ha), (decimal_in_script zero b Hz Hb),
    (decimal_in_script zero c Hz Hc), (decimal_in_script zero d Hz Hd).
  reflexivity.
Qed.

Lemma digits_value_year (zero a b c d : Z) :
  In zero Nd_zeros -> 0 <= a <= 9 -> 0 <= b <= 9 -> 0 <= c <= 9 -> 0 <= d <= 9 ->
  digits_value (in_script zero [a; b; c; d]) = 1000 * a + 100 * b + 10 * c + d.
Proof.
  intros Hz Ha Hb Hc Hd. unfold digits_value.
  assert (Hds : Forall (fun d => 0 <= d <= 9) [a; b; c; d]) by (repeat (apply Forall_cons; [assumption|]); apply Forall_nil).
  rewrite (fold_digits_in_script zero [a; b; c; d] 0 Hz Hds).
  cbn [fold_left]. lia.
Qed.

(** For a date whose first digits are a year of four digits without a
    leading zero, the label is the year with its last digit replaced by
    0, in ASCII digits whatever the script of the year, followed by 年代;
    and the decade of such a label is the label itself. *)
Theorem extract_decade_label (zero a b c d : Z) (pre post : ustring) :
  In zero Nd_zeros ->
  1 <= a <= 9 -> 0 <= b <= 9 -> 0 <= c <= 9 -> 0 <= d <= 9 ->
  forallb (fun x => negb (is_decimal x)) pre = true ->
  extract_decade (PyStr (pre ++ in_script zero [a; b; c; d] ++ post))
  = Some (in_script 48 [a; b; c; 0] ++ u"年代")
  /\ extract_decade (PyStr (in_script 48 [a; b; c; 0] ++ u"年代"))
     = Some (in_script 48 [a; b; c; 0] ++ u"年代").
Proof.
  intros Hz Ha Hb Hc Hd Hpre.
  assert (Ha' : 0 <= a <= 9) by lia.
  assert (H : forall zero' d' pre' post',
            In zero' Nd_zeros -> 0 <= d' <= 9 ->
            forallb (fun x => negb (is_decimal x)) pre' = true ->
            extract_decade (PyStr (pre' ++ in_script zero' [a; b; c; d'] ++ post'))
            = Some (in_script 48 [a; b; c; 0] ++ u"年代")).
  { intros zero' d' pre' post' Hz' Hd' Hpre'.
    rewrite (extract_decade_year (PyStr (pre' ++ in_script zero' [a; b; c; d'] ++ post'))
               (pre' ++ in_script zero' [a; b; c; d'] ++ post')
               (in_script zero' [a; b; c; d'])).
    - rewrite (digits_value_year zero' a b c d') by assumption.
      replace ((1000 * a + 100 * b + 10 * c + d') / 10 * 10)
        with (1000 * a + 100 * b + 10 * c).
      + now rewrite decade_label.
      + replace (1000 * a + 100 * b + 10 * c + d')
          with ((100 * a + 10 * b + c) * 10 + d') by lia.
        rewrite Z.div_add_l by lia. rewrite (Z.div_small d' 10) by lia. lia.
    - apply missing_PyStr. destruct pre'; discriminate.
    - reflexivity.
    - rewrite (search_year_skip _ _ Hpre'). now apply search_year_head.
    - cbn [in_script map]. eauto. }
  split.
  - now apply H.
  - apply (H 48 0 [] (u"年代")); [vm_compute; tauto | lia | reflexivity].
Qed.

Lemma extract_decade_label_witness :
  extract_decade (PyStr (u"昭和 １９９５年")) = Some (u"1990年代")
  /\ extract_decade (PyStr (u"1990年代")) = Some (u"1990年代").
Proof.
  assert (Hz : In 0xff10 Nd_zeros) by (vm_compute; tauto).
  assert (H1 : 1 <= 1 <= 9) by lia.
  assert (H9 : 0 <= 9 <= 9) by lia.
  assert (H5 : 0 <= 5 <= 9) by lia.
  assert (Hpre : forallb (fun x => negb (is_decimal x)) (u"昭和 ") = true)
    by (vm_compute; reflexivity).
  pose proof (extract_decade_label 0xff10 1 9 9 5 (u"昭和 ") (u"年")
                Hz H1 H9 H9 H5 Hpre) as W.
  vm_compute in W. vm_compute. exact W.
Defined.
